(** * Balsam launcher: the job transition engine

    A shallow embedding of [balsam/launcher/transitions.py]: the job
    record, the worker's cache of locked jobs, the fast-forward pass,
    the transition functions and the worker's transition pass, together
    with the properties of the engine stated in the design notes.

    Conventions of the embedding.
    - A job object is a record; the functions of the module mutate the
      object they are handed, so every function returns the job (or the
      whole cache) next to its result, also when it raises.
    - The job cache is the list of the job objects a worker has locked.
      The store hands out each locked job once, so the elements of a
      cache are distinct objects and a loop over the cache updates its
      elements one by one.
    - Everything outside the process (file system, job store, log, the
      stop flag set by the signal handler) lives in a [World] value that
      is threaded through the code.  The file system and the job store
      are reliable: their operations fail only where stated. *)

From Stdlib Require Import ZArith Lia Ascii String.
From Stdlib Require Import Floats.SpecFloat.
From stdpp Require Import base gmap sets list strings pretty.
From stdpp Require Import fin_maps fin_sets.

Local Open Scope string_scope.
Local Open Scope list_scope.
Local Open Scope nat_scope.

(** ** Python values stored in [job.state]

    The state of a job is a Python string.  One assignment of the module
    stores a tuple of strings instead, so both shapes are values. *)

Inductive pyval : Type :=
  | PyStr (s : string)
  | PyTuple (items : list string).

#[global] Instance pyval_eq_dec : EqDecision pyval.
Proof. solve_decision. Defined.

#[global] Instance pyval_inhabited : Inhabited pyval := populate (PyStr "").

(** Truth value testing: [bool(x)] and [not x]. *)
Class Truthy (A : Type) := truthy : A → bool.

#[global] Instance string_truthy : Truthy string :=
  λ s, match s with EmptyString => false | String _ _ => true end.
#[global] Instance option_truthy `{Truthy A} : Truthy (option A) :=
  λ o, match o with None => false | Some x => truthy x end.
#[global] Instance list_truthy {A} : Truthy (list A) :=
  λ l, match l with [] => false | _ :: _ => true end.
#[global] Instance bool_truthy : Truthy bool := λ b, b.

(** ** Strings

    A string is the UTF-8 encoding of a Python [str].  [white_space] lists
    the encodings of the characters for which [str.isspace] holds:
    U+0009..U+000D, U+001C..U+0020, U+0085, U+00A0, U+1680,
    U+2000..U+200A, U+2028, U+2029, U+202F, U+205F and U+3000. *)
Definition utf8 (bytes : list nat) : string :=
  string_of_list_ascii (ascii_of_nat <$> bytes).

Definition white_space : list string :=
  utf8 <$>
    [[9]; [10]; [11]; [12]; [13]; [28]; [29]; [30]; [31]; [32];
     [194; 133]; [194; 160]; [225; 154; 128];
     [226; 128; 128]; [226; 128; 129]; [226; 128; 130]; [226; 128; 131];
     [226; 128; 132]; [226; 128; 133]; [226; 128; 134]; [226; 128; 135];
     [226; 128; 136]; [226; 128; 137]; [226; 128; 138];
     [226; 128; 168]; [226; 128; 169]; [226; 128; 175];
     [226; 129; 159]; [227; 128; 128]].

(** [s.startswith(c)] *)
Fixpoint starts_with (c s : string) : bool :=
  match c, s with
  | EmptyString, _ => true
  | String a c', String b s' => Ascii.eqb a b && starts_with c' s'
  | String _ _, EmptyString => false
  end.

(** The number of bytes of the white-space character [s] begins with;
    0 when it begins with none. *)
Definition space_width (s : string) : nat :=
  match List.find (λ c, starts_with c s) white_space with
  | Some c => String.length c
  | None => 0
  end.

(** [s.split()]: the maximal runs of characters that are not white space.
    [skip] counts the bytes still to pass of the white-space character
    being read. *)
Fixpoint split_aux (skip : nat) (cur : string) (s : string) : list string :=
  match s with
  | EmptyString => if truthy cur then [String.rev cur] else []
  | String c s' =>
      match skip with
      | S n => split_aux n cur s'
      | O =>
          match space_width s with
          | O => split_aux 0 (String c cur) s'
          | S n =>
              (if truthy cur then [String.rev cur] else [])
              ++ split_aux n "" s'
          end
      end
  end.

Definition split (s : string) : list string := split_aux 0 "" s.

(** [os.path.join(a, b)] and [os.path.basename(p)] on POSIX paths. *)
Definition ends_with_slash (s : string) : bool :=
  match String.rev s with String "/" _ => true | _ => false end.

Definition path_join (a b : string) : string :=
  match b with
  | String "/" _ => b
  | _ => if negb (truthy a) || ends_with_slash a then a +:+ b
         else a +:+ "/" +:+ b
  end.

Fixpoint basename_aux (cur : string) (s : string) : string :=
  match s with
  | EmptyString => cur
  | String c s' =>
      if Ascii.eqb c "/" then basename_aux "" s'
      else basename_aux (cur +:+ String c "") s'
  end.

Definition basename (p : string) : string := basename_aux "" p.

(** ** Job states *)

Definition CREATED : pyval := PyStr "CREATED".
Definition AWAITING_PARENTS : pyval := PyStr "AWAITING_PARENTS".
Definition READY : pyval := PyStr "READY".
Definition STAGED_IN : pyval := PyStr "STAGED_IN".
Definition PREPROCESSED : pyval := PyStr "PREPROCESSED".
Definition RUN_DONE : pyval := PyStr "RUN_DONE".
Definition RUN_TIMEOUT : pyval := PyStr "RUN_TIMEOUT".
Definition RUN_ERROR : pyval := PyStr "RUN_ERROR".
Definition RESTART_READY : pyval := PyStr "RESTART_READY".
Definition POSTPROCESSED : pyval := PyStr "POSTPROCESSED".
Definition JOB_FINISHED : pyval := PyStr "JOB_FINISHED".
Definition FAILED : pyval := PyStr "FAILED".

(** ** The job record

    [__old_state] is the attribute [refresh_cache] attaches to a cached
    job; it is absent ([None]) on a job that was never refreshed.  The
    optional text fields are [None] or a string; the empty string and
    [None] are both false.  The attributes [job.preprocess] and
    [job.postprocess] are the fields [preprocess_cmd] and
    [postprocess_cmd], the plain names being those of the transition
    functions. *)

Record BalsamJob : Type := mkJob {
  pk : string;
  cute_id : string;
  state : pyval;
  __old_state : option pyval;
  working_directory : string;
  parents : list string;
  wait_for_parents : bool;
  input_files : string;
  stage_in_url : option string;
  stage_out_files : string;
  stage_out_url : option string;
  preprocess_cmd : option string;
  postprocess_cmd : option string;
  post_error_handler : bool;
  post_timeout_handler : bool;
  auto_timeout_retry : bool;
}.

Definition set_state (v : pyval) (j : BalsamJob) : BalsamJob :=
  mkJob (pk j) (cute_id j) v (__old_state j) (working_directory j)
        (parents j) (wait_for_parents j) (input_files j) (stage_in_url j)
        (stage_out_files j) (stage_out_url j) (preprocess_cmd j)
        (postprocess_cmd j) (post_error_handler j) (post_timeout_handler j)
        (auto_timeout_retry j).

Definition set_old_state (v : pyval) (j : BalsamJob) : BalsamJob :=
  mkJob (pk j) (cute_id j) (state j) (Some v) (working_directory j)
        (parents j) (wait_for_parents j) (input_files j) (stage_in_url j)
        (stage_out_files j) (stage_out_url j) (preprocess_cmd j)
        (postprocess_cmd j) (post_error_handler j) (post_timeout_handler j)
        (auto_timeout_retry j).

(** [job.get_parents_by_id()]: the ids listed in the job's parents field. *)
Definition get_parents_by_id (j : BalsamJob) : list string := parents j.

(** ** The world outside the process *)

Inductive level : Type := DEBUG | INFO | WARNING | ERROR | CRITICAL.

Inductive StoreCall : Type :=
  | AtomicBegin
  | BatchUpdateState (ids : list string) (newstate : pyval)
  | AtomicCommit
  | AcquireTransitionable (n : Z)
  | Release (ids : list string).

Record World : Type := mkWorld {
  fs : gset string;              (* the paths that exist *)
  db : gmap string pyval;        (* JobStore: persisted state by key *)
  store_calls : list StoreCall;  (* the operations issued to the store *)
  log : list (level * string);
  EXIT_FLAG : bool;
}.

Definition with_fs (f : gset string) (w : World) : World :=
  mkWorld f (db w) (store_calls w) (log w) (EXIT_FLAG w).
Definition with_db (d : gmap string pyval) (w : World) : World :=
  mkWorld (fs w) d (store_calls w) (log w) (EXIT_FLAG w).
Definition with_call (c : StoreCall) (w : World) : World :=
  mkWorld (fs w) (db w) (store_calls w ++ [c]) (log w) (EXIT_FLAG w).
Definition logger (l : level) (msg : string) (w : World) : World :=
  mkWorld (fs w) (db w) (store_calls w) (log w ++ [(l, msg)]) (EXIT_FLAG w).

Definition os_path_exists (p : string) (w : World) : bool :=
  bool_decide (p ∈ fs w).

(** The directories above [p]: what is before each slash of [p]. *)
Fixpoint parent_dirs (cur : string) (p : string) : list string :=
  match p with
  | EmptyString => []
  | String c p' =>
      (if Ascii.eqb c "/" && truthy cur then [String.rev cur] else [])
      ++ parent_dirs (String c cur) p'
  end.

(** [os.makedirs(p)] makes [p] and the missing directories above it. *)
Definition os_makedirs (p : string) (w : World) : World :=
  with_fs ({[p]} ∪ list_to_set (parent_dirs "" p) ∪ fs w) w.

(** Modelled from the spec: [BalsamJob.batch_update_state] of the job
    store is not part of the sources; the store contract says it sets the
    state of the listed jobs to the new state, atomically for the group.
    Keys without a record are not created. *)
Definition batch_update_state (joblist : list string) (newstate : pyval)
    (w : World) : World :=
  with_call (BatchUpdateState joblist newstate)
    (with_db (foldr (λ k d, alter (λ _, newstate) k d) (db w) joblist) w).

(** Modelled from the spec: [job.get_parents()] of the job model is not
    part of the sources; it is the query for the stored jobs whose key is
    one of the job's parent ids. *)
Definition get_parents (j : BalsamJob) (w : World) : gmap string pyval :=
  filter (λ kv, kv.1 ∈ get_parents_by_id j) (db w).

(** [queryset.filter(state=s).count()] *)
Definition count_state (s : pyval) (q : gmap string pyval) : nat :=
  size (filter (λ kv, kv.2 = s) q).

(** ** check_parents *)

Definition check_parents (job : BalsamJob) (w : World) : World * BalsamJob :=
  let num_parents := length (get_parents_by_id job) in
  let ready :=
    if (num_parents =? 0)%nat || negb (wait_for_parents job) then true
    else
      let parents := get_parents job w in
      (num_parents =? count_state JOB_FINISHED parents)%nat in
  if ready then
    (logger DEBUG (cute_id job +:+ " ready") w, set_state READY job)
  else if bool_decide (state job ≠ AWAITING_PARENTS) then
    (logger DEBUG (cute_id job +:+ " waiting for parents") w,
     set_state AWAITING_PARENTS job)
  else (w, job).

(** ** Exceptions *)

Inductive exn : Type :=
  | BalsamTransitionError (msg : string)
  | ValueError (msg : string)
  | NameError (name : string)
  | UnboundLocalError (name : string)
  | KeyError (key : pyval)
  | IndexError
  | AttributeError (name : string)
  | DoesNotExist
  | ZeroDivisionError
  | OverflowError
  | OSError (msg : string).

(** ** update_states_from_cache

    [update_jobs] is a [defaultdict(list)]: an insertion-ordered
    dictionary from new state to the keys of the jobs that reached it. *)

Fixpoint dict_append (k : pyval) (v : string) (d : list (pyval * list string))
    : list (pyval * list string) :=
  match d with
  | [] => [(k, [v])]
  | (k', vs) :: d' =>
      if decide (k = k') then (k', vs ++ [v]) :: d'
      else (k', vs) :: dict_append k v d'
  end.

(** The first loop: compare each job with its [__old_state], file the
    changed ones under their new state and refresh [__old_state]. *)
Fixpoint scan_cache (job_cache : list BalsamJob)
    (update_jobs : list (pyval * list string))
    : list BalsamJob * (exn + list (pyval * list string)) :=
  match job_cache with
  | [] => ([], inr update_jobs)
  | job :: rest =>
      match __old_state job with
      | None => (job :: rest, inl (AttributeError "__old_state"))
      | Some old =>
          if bool_decide (state job ≠ old) then
            let '(rest', r) :=
              scan_cache rest (dict_append (state job) (pk job) update_jobs) in
            (set_old_state (state job) job :: rest', r)
          else
            let '(rest', r) := scan_cache rest update_jobs in
            (job :: rest', r)
      end
  end.

Definition write_groups (update_jobs : list (pyval * list string))
    (w : World) : World :=
  foldl (λ w item, batch_update_state item.2 item.1 w) w update_jobs.

Definition update_states_from_cache (job_cache : list BalsamJob) (w : World)
    : World * list BalsamJob * option exn :=
  match scan_cache job_cache [] with
  | (cache', inl e) => (w, cache', Some e)
  | (cache', inr update_jobs) =>
      if negb (truthy update_jobs) then (w, cache', None)
      else
        (with_call AtomicCommit
           (write_groups update_jobs (with_call AtomicBegin w)),
         cache', None)
  end.

(** ** fast_forward

    Each pass of [fast_forward] is a loop over a generator
    [(j for j in job_cache if cond)]: the condition is evaluated on a job
    just before the body runs on it. *)

Fixpoint for_each (cond : BalsamJob → bool)
    (body : BalsamJob → World → World * BalsamJob)
    (job_cache : list BalsamJob) (w : World) : World * list BalsamJob :=
  match job_cache with
  | [] => (w, [])
  | job :: rest =>
      let '(w1, job1) := if cond job then body job w else (w, job) in
      let '(w2, rest') := for_each cond body rest w1 in
      (w2, job1 :: rest')
  end.

Definition assign_state (v : pyval) (job : BalsamJob) (w : World)
    : World * BalsamJob := (w, set_state v job).

Definition state_is (v : pyval) (j : BalsamJob) : bool :=
  bool_decide (state j = v).

Definition skip_stage_in (job : BalsamJob) (w : World) : World * BalsamJob :=
  let workdir := working_directory job in
  let w1 :=
    if negb (os_path_exists workdir w) then
      logger DEBUG (cute_id job +:+ " working directory " +:+ workdir)
        (os_makedirs workdir w)
    else w in
  let hasParents := truthy (get_parents_by_id job) in
  let hasInput := truthy (input_files job) in
  let hasRemote := truthy (stage_in_url job) in
  if negb hasRemote && negb (hasParents && hasInput)
  then (w1, set_state STAGED_IN job) else (w1, job).

Definition is_check_job (j : BalsamJob) : bool :=
  bool_decide (state j ∈ PyStr <$> split "CREATED AWAITING_PARENTS").
Definition is_preprocess_skip (j : BalsamJob) : bool :=
  state_is STAGED_IN j && negb (truthy (preprocess_cmd j)).
Definition is_done_job (j : BalsamJob) : bool :=
  state_is RUN_DONE j && negb (truthy (postprocess_cmd j)).
Definition is_retry_job (j : BalsamJob) : bool :=
  state_is RUN_TIMEOUT j && auto_timeout_retry j
  && negb (post_timeout_handler j).
Definition is_timefail_job (j : BalsamJob) : bool :=
  state_is RUN_TIMEOUT j && negb (auto_timeout_retry j)
  && negb (truthy (postprocess_cmd j) && post_timeout_handler j).
Definition is_errfail_job (j : BalsamJob) : bool :=
  state_is RUN_ERROR j
  && negb (post_error_handler j && truthy (postprocess_cmd j)).
Definition is_stageout_skip (j : BalsamJob) : bool :=
  state_is POSTPROCESSED j
  && negb (truthy (stage_out_url j) && truthy (stage_out_files j)).

Definition fast_forward (job_cache : list BalsamJob) (w : World)
    : World * list BalsamJob * option exn :=
  (* Check parents *)
  let '(w, c) := for_each is_check_job check_parents job_cache w in
  (* Skip stage-in *)
  let '(w, c) := for_each (state_is READY) skip_stage_in c w in
  (* Skip preprocess *)
  let '(w, c) := for_each is_preprocess_skip (assign_state PREPROCESSED) c w in
  (* RUN_DONE: skip postprocess *)
  let '(w, c) := for_each is_done_job (assign_state POSTPROCESSED) c w in
  (* Timeout: retry *)
  let '(w, c) := for_each is_retry_job (assign_state RESTART_READY) c w in
  (* Timeout: fail *)
  let '(w, c) := for_each is_timefail_job (assign_state FAILED) c w in
  (* Error: fail *)
  let '(w, c) := for_each is_errfail_job (assign_state FAILED) c w in
  (* skip stageout (finished) *)
  let '(w, c) := for_each is_stageout_skip (assign_state JOB_FINISHED) c w in
  update_states_from_cache c w.

(** ** The arithmetic of refresh_cache

    [round(num_transitionable / num_threads + 0.5)]: the true division of
    two integers is the correctly rounded binary64 quotient, the sum is a
    binary64 sum, and [round] of a float picks the nearest integer, the
    even one when two are equally near. *)

Definition exact_int (n : Z) : spec_float :=
  match n with
  | Z0 => S754_zero false
  | Zpos p => S754_finite false p 0
  | Zneg p => S754_finite true p 0
  end.

Definition int_true_div (a b : Z) : exn + spec_float :=
  if (b =? 0)%Z then inl ZeroDivisionError
  else match SFdiv 53 1024 (exact_int a) (exact_int b) with
       | S754_finite s m e => inr (S754_finite s m e)
       | S754_zero s => inr (S754_zero s)
       | _ => inl OverflowError
       end.

(** The float [0.5]. *)
Definition one_half : spec_float := S754_finite false 4503599627370496 (-53).

Definition float_round (x : spec_float) : exn + Z :=
  match x with
  | S754_zero _ => inr 0%Z
  | S754_finite s m e =>
      let v :=
        if (0 <=? e)%Z then (Zpos m * 2 ^ e)%Z
        else
          let d := (2 ^ (- e))%Z in
          let q := (Zpos m / d)%Z in
          let r := (Zpos m mod d)%Z in
          match (2 * r ?= d)%Z with
          | Lt => q
          | Gt => (q + 1)%Z
          | Eq => if Z.even q then q else (q + 1)%Z
          end in
      inr (if s then (- v)%Z else v)
  | _ => inl OverflowError
  end.

Definition target_count (num_transitionable num_threads : Z) : exn + Z :=
  match int_true_div num_transitionable num_threads with
  | inl e => inl e
  | inr q => float_round (SFadd 53 1024 q one_half)
  end.

(** ** Transition functions

    A transition function works on one job and on the world, and either
    returns or raises; the job keeps what was assigned before a raise. *)

Definition Tr (A : Type) : Type :=
  World * BalsamJob → (World * BalsamJob) * (exn + A).

#[global] Instance Tr_ret : MRet Tr := λ A x s, (s, inr x).
#[global] Instance Tr_bind : MBind Tr := λ A B f m s,
  match m s with
  | (s', inl e) => (s', inl e)
  | (s', inr x) => f x s'
  end.

Definition raise {A} (e : exn) : Tr A := λ s, (s, inl e).
Definition self : Tr BalsamJob := λ s, (s, inr s.2).
Definition job_state_assign (v : pyval) : Tr unit :=
  λ s, ((s.1, set_state v s.2), inr ()).
Definition logging (l : level) (msg : string) : Tr unit :=
  λ s, ((logger l msg s.1, s.2), inr ()).
Definition world_get {A} (f : World → A) : Tr A := λ s, (s, inr (f s.1)).
Definition world_do (f : World → World) : Tr unit :=
  λ s, ((f s.1, s.2), inr ()).

Definition world_step {A} (f : World → World * A) : Tr A :=
  λ s, let '(w', x) := f s.1 in ((w', s.2), inr x).

(** A call of an outside operation that returns nothing and may raise an
    exception; [Some msg] is the text of the exception. *)
Definition ext_call (f : World → World * option string) : Tr unit :=
  λ s, let '(w', r) := f s.1 in
       ((w', s.2),
        match r with None => inr () | Some msg => inl (OSError msg) end).

(** [try: body except Exception as e: handler] *)
Definition try_except {A} (body : Tr A) (handler : exn → Tr A) : Tr A :=
  λ s, match body s with
       | (s', inl e) => handler e s'
       | (s', inr x) => (s', inr x)
       end.

Definition when (b : bool) (c : Tr unit) : Tr unit := if b then c else mret ().

Fixpoint for_in {A} (l : list A) (body : A → Tr unit) : Tr unit :=
  match l with
  | [] => mret ()
  | x :: l' => body x;; for_in l' body
  end.

(** [str(e)] *)
Definition str_exn (e : exn) : string :=
  match e with
  | BalsamTransitionError m | ValueError m | OSError m => m
  | NameError n => "name '" +:+ n +:+ "' is not defined"
  | UnboundLocalError n =>
      "local variable '" +:+ n +:+ "' referenced before assignment"
  | KeyError _ => "key"
  | IndexError => "list index out of range"
  | AttributeError n => "object has no attribute '" +:+ n +:+ "'"
  | DoesNotExist => "BalsamJob matching query does not exist."
  | ZeroDivisionError => "division by zero"
  | OverflowError => "cannot convert float infinity to integer"
  end.

Definition opt_text (o : option string) : string := default "None" o.

(** [l[0]] *)
Definition first_item (l : list string) : Tr string :=
  match l with [] => raise IndexError | x :: _ => mret x end.

(** [job.refresh_from_db()]: reload the persisted state of the job. *)
Definition refresh_from_db : Tr unit :=
  job ← self;
  stored ← world_get (λ w, db w !! pk job);
  match stored with
  | Some v => job_state_assign v
  | None => raise DoesNotExist
  end.

(** What a [subprocess.Popen] followed by [proc.wait] and
    [proc.communicate] can do. *)
Inductive proc_outcome : Type :=
  | PopenRaises (msg : string)   (* Popen raised: [proc] was never bound *)
  | WaitRaises (msg : string)    (* wait or communicate raised (time-out) *)
  | Exited (retcode : Z).

Definition newline : string := String (ascii_of_nat 10) "".

(** What [postprocess] writes at the top of [postprocess.log]. *)
Definition postprocess_header (app : string)
    (error_handling timeout_handling : bool) : string :=
  "# Balsam Postprocessor: " +:+ app +:+ newline
  +:+ (if timeout_handling
       then "# Invoked to handle RUN_TIMEOUT" +:+ newline else "")
  +:+ (if error_handling
       then "# Invoked to handle RUN_ERROR" +:+ newline else "").

(** The world once [postprocess] has logged its opening lines. *)
Definition postprocess_entry (job : BalsamJob)
    (error_handling timeout_handling : bool) (w : World) : World :=
  let w := logger DEBUG (cute_id job +:+ " in postprocess") w in
  let w := if error_handling
           then logger INFO (cute_id job +:+ " handling RUN_ERROR") w else w in
  if timeout_handling
  then logger INFO (cute_id job +:+ " handling RUN_TIMEOUT") w else w.

Definition PREPROCESS_TIMEOUT_SECONDS : Z := 300.
Definition POSTPROCESS_TIMEOUT_SECONDS : Z := 300.

Section Engine.

(** The collaborators of the module: the transfer client, the file
    operations, the subprocess machinery and the helpers of the job
    model are used through their interface only. *)
Context {env : Type}.
Variable get_envs : BalsamJob → bool → bool → env.
Variable transfer_stage_in : string → string → World → World * option string.
Variable transfer_stage_out : string → string → World → World * option string.
Variable glob_glob : string → World → list string.
Variable os_symlink : string → string → World → World * option string.
Variable shutil_copyfile : string → string → World → World * option string.
Variable tempdir_enter : World → World * string.
Variable tempdir_exit : string → World → World.
Variable open_write : string → string → World → World * option string.
Variable run_subprocess :
  list string → env → string → Z → World → World * proc_outcome.
Variable proc_kill : World → World.
Variable get_tail : string → option nat → World → string.
(** [(parent.pk, parent.working_directory)] for the jobs of
    [job.get_parents()]. *)
Variable parent_workdirs : BalsamJob → World → list (string * string).
(** [traceback.print_exc] into a buffer: the text of the traceback of
    the exception being handled. *)
Variable print_exc : exn → string.

Definition stage_in : Tr unit :=
  job ← self;
  logging DEBUG (cute_id job +:+ " in stage_in");;
  let work_dir := working_directory job in
  present ← world_get (os_path_exists work_dir);
  (* os.makedirs(workdir): no name [workdir] is bound in this function *)
  when (negb present) (raise (NameError "workdir"));;
  (* stage in all remote urls *)
  let url_in := stage_in_url job in
  when (truthy url_in)
    (logging INFO (cute_id job +:+ " transfer in from " +:+ opt_text url_in);;
     try_except (ext_call (transfer_stage_in (opt_text url_in) work_dir))
       (λ e, raise (BalsamTransitionError
                      ("Exception received during stage_in: " +:+ str_exn e))));;
  (* create unique symlinks to "input_files" patterns from parents *)
  parents ← world_get (parent_workdirs job);
  let input_patterns := split (input_files job) in
  logging DEBUG (cute_id job +:+ " searching parent workdirs");;
  matches ← world_get (λ w,
    mjoin ((λ parent : string * string,
              mjoin ((λ pattern,
                        (λ m, (parent.1, m)) <$>
                          glob_glob (path_join parent.2 pattern) w)
                     <$> input_patterns))
           <$> parents));
  for_in matches (λ item : string * string,
    let '(parent_pk, inp_file) := item in
    let new_path := path_join work_dir (basename inp_file) in
    taken ← world_get (os_path_exists new_path);
    let new_path :=
      if (taken : bool) then new_path +:+ "_" +:+ String.substring 0 8 parent_pk
      else new_path in
    logging INFO (cute_id job +:+ "   " +:+ new_path +:+ "  -->  " +:+ inp_file);;
    try_except (ext_call (os_symlink inp_file new_path))
      (λ e, raise (BalsamTransitionError
                     ("Exception received during symlink: " +:+ str_exn e))));;
  job_state_assign STAGED_IN;;
  logging INFO (cute_id job +:+ " stage_in done").

(** [with tempfile.TemporaryDirectory() as d: body]; the directory is
    removed on every way out of the body. *)
Definition with_tempdir {A} (body : string → Tr A) : Tr A :=
  λ s, let '(w1, stagingdir) := tempdir_enter s.1 in
       let '((w2, j2), r) := body stagingdir (w1, s.2) in
       ((tempdir_exit stagingdir w2, j2), r).

Definition stage_out : Tr unit :=
  job ← self;
  logging DEBUG (cute_id job +:+ " in stage_out");;
  let url_out := stage_out_url job in
  if negb (truthy url_out) then
    job_state_assign JOB_FINISHED;;
    logging INFO (cute_id job +:+ " no stage_out_url: done")
  else
    let stage_out_patterns := split (stage_out_files job) in
    logging DEBUG (cute_id job +:+ " stage out files match");;
    let work_dir := working_directory job in
    matches ← world_get (λ w,
      mjoin ((λ pattern, glob_glob (path_join work_dir pattern) w)
             <$> stage_out_patterns));
    when (truthy matches)
      (logging INFO (cute_id job +:+ " stage out files");;
       with_tempdir (λ stagingdir,
         try_except
           (for_in matches (λ f,
              let dst := path_join stagingdir (basename f) in
              ext_call (shutil_copyfile f dst);;
              logging INFO ("staging " +:+ f +:+ " out for transfer"));;
            logging INFO ("transferring to " +:+ opt_text url_out);;
            ext_call (transfer_stage_out (stagingdir +:+ "/")
                        (opt_text url_out +:+ "/")))
           (λ e, raise (BalsamTransitionError
                          ("Exception received during stage_out: "
                           +:+ str_exn e)))));;
    job_state_assign JOB_FINISHED;;
    logging INFO (cute_id job +:+ " stage_out done").

(** The body shared by [preprocess] and [postprocess]: open the log,
    write the header, start the program and wait for it.  When [Popen]
    itself raises, the handler's [proc.kill()] finds [proc] unbound. *)
Definition run_logged (out header : string) (args : list string)
    (envs : env) (cwd : string) (timeout : Z) (name what : string) : Tr Z :=
  ext_call (open_write out header);;
  job ← self;
  logging INFO (cute_id job +:+ " " +:+ name +:+ " Popen");;
  r ← world_step (run_subprocess args envs cwd timeout);
  match r with
  | Exited retcode => mret retcode
  | WaitRaises msg =>
      world_do proc_kill;;
      raise (BalsamTransitionError (what +:+ " failed: " +:+ msg))
  | PopenRaises msg => raise (UnboundLocalError "proc")
  end.

Definition preprocess : Tr unit :=
  job ← self;
  logging DEBUG (cute_id job +:+ " in preprocess");;
  (* Get preprocesser exe *)
  let preproc_app := preprocess_cmd job in
  if negb (truthy preproc_app) then job_state_assign PREPROCESSED
  else
    let app := opt_text preproc_app in
    exe ← first_item (split app);
    present ← world_get (os_path_exists exe);
    when (negb present)
      (raise (BalsamTransitionError
                ("Preprocessor " +:+ app +:+ " does not exist on filesystem")));;
    let envs := get_envs job false false in
    let out := path_join (working_directory job) "preprocess.log" in
    retcode ← run_logged out ("# Balsam Preprocessor: " +:+ app)
                (split app) envs (working_directory job)
                PREPROCESS_TIMEOUT_SECONDS "preprocess" "Preprocess";
    (if bool_decide (retcode ≠ 0%Z) then
       tail ← world_get (get_tail out None);
       raise (BalsamTransitionError
                (cute_id job +:+ " preprocess returned " +:+ pretty retcode
                 +:+ ":" +:+ newline +:+ tail))
     else mret ());;
    job_state_assign PREPROCESSED;;
    logging INFO (cute_id job +:+ " preprocess done").

Definition postprocess (error_handling timeout_handling : bool) : Tr unit :=
  job ← self;
  logging DEBUG (cute_id job +:+ " in postprocess");;
  when (error_handling && timeout_handling)
    (raise (ValueError "Both error-handling and timeout-handling is invalid"));;
  when error_handling (logging INFO (cute_id job +:+ " handling RUN_ERROR"));;
  when timeout_handling (logging INFO (cute_id job +:+ " handling RUN_TIMEOUT"));;
  (* Get postprocesser exe *)
  let postproc_app := postprocess_cmd job in
  (* If no postprocesssor; move on (unless in error_handling mode) *)
  if negb (truthy postproc_app) then
    if error_handling then
      raise (BalsamTransitionError
               (cute_id job +:+ " handle error: no postprocessor found!"))
    else if timeout_handling then
      job_state_assign RESTART_READY;;
      logging WARNING
        (cute_id job +:+ " unhandled job timeout: marked RESTART_READY")
    else
      (* job.state = 'POSTPROCESSED',   -- the trailing comma makes the
         right-hand side a one-element tuple *)
      job_state_assign (PyTuple ["POSTPROCESSED"]);;
      logging INFO (cute_id job +:+ " no postprocess: skipped")
  else
    let app := opt_text postproc_app in
    exe ← first_item (split app);
    present ← world_get (os_path_exists exe);
    when (negb present)
      (raise (BalsamTransitionError
                ("Postprocessor " +:+ app +:+ " does not exist on filesystem")));;
    (* Create postprocess-specific environment *)
    let envs := get_envs job timeout_handling error_handling in
    (* Run postprocesser with special environment in job working directory *)
    let out := path_join (working_directory job) "postprocess.log" in
    let header := postprocess_header app error_handling timeout_handling in
    retcode ← run_logged out header (split app) envs (working_directory job)
                POSTPROCESS_TIMEOUT_SECONDS "postprocess" "Postprocess";
    (if bool_decide (retcode ≠ 0%Z) then
       tail ← world_get (get_tail out (Some 30%nat));
       raise (BalsamTransitionError
                (cute_id job +:+ " postprocess returned " +:+ pretty retcode
                 +:+ ":" +:+ newline +:+ tail))
     else mret ());;
    refresh_from_db;;
    (* If postprocessor handled error or timeout, it should have changed
       job's state. If it failed to do this, mark FAILED. *)
    job ← self;
    when (error_handling && bool_decide (state job = RUN_ERROR))
      (raise (BalsamTransitionError
                (cute_id job
                 +:+ " Error handling didn't fix job state: marking FAILED")));;
    when (timeout_handling && bool_decide (state job = RUN_TIMEOUT))
      (raise (BalsamTransitionError
                (cute_id job
                 +:+ " Timeout handling didn't change job state: marking FAILED")));;
    when (negb (error_handling || timeout_handling))
      (job_state_assign POSTPROCESSED);;
    logging INFO (cute_id job +:+ " postprocess done").

Definition handle_timeout : Tr unit :=
  job ← self;
  if post_timeout_handler job then
    logging DEBUG
      (cute_id job +:+ " invoking postprocess with timeout_handling flag");;
    postprocess false true
  else
    raise (BalsamTransitionError
             (cute_id job +:+ " no timeout handling: marking FAILED")).

Definition handle_run_error : Tr unit :=
  job ← self;
  if post_error_handler job then
    logging DEBUG
      (cute_id job +:+ " invoking postprocess with error_handling flag");;
    postprocess true false
  else raise (BalsamTransitionError "No error handler: run failed").

(** [TRANSITIONS[job.state]]; a state that is not a key is a [KeyError]. *)
Definition TRANSITIONS (st : pyval) : option (Tr unit) :=
  if decide (st = READY) then Some stage_in
  else if decide (st = STAGED_IN) then Some preprocess
  else if decide (st = RUN_DONE) then Some (postprocess false false)
  else if decide (st = RUN_TIMEOUT) then Some handle_timeout
  else if decide (st = RUN_ERROR) then Some handle_run_error
  else if decide (st = POSTPROCESSED) then Some stage_out
  else None.

(** *** The worker *)

(** [PROCESSABLE_STATES] is imported from the job model, which is not
    part of the sources; the store's [acquire_transitionable] locks up
    to [n] transitionable jobs and returns the ones it locked. *)
Variable PROCESSABLE_STATES : list string.
Variable acquire_transitionable : Z → World → World * list BalsamJob.

Definition processable (st : pyval) : bool :=
  bool_decide (st ∈ PyStr <$> PROCESSABLE_STATES).

Definition refresh_cache (job_cache : list BalsamJob) (num_threads : Z)
    (w : World) : World * list BalsamJob * option exn :=
  let num_transitionable :=
    Z.of_nat (size (filter (λ kv, processable kv.2 = true) (db w))) in
  match target_count num_transitionable num_threads with
  | inl e => (w, job_cache, Some e)
  | inr target =>
      let num_to_acquire := Z.max 0 (target - Z.of_nat (length job_cache)) in
      let '(w1, acquired) :=
        acquire_transitionable num_to_acquire
          (with_call (AcquireTransitionable num_to_acquire) w) in
      let w2 :=
        if truthy acquired then logger DEBUG "Acquired new jobs" w1
        else w1 in
      let job_cache := job_cache ++ acquired in
      (w2, (λ job, set_old_state (state job) job) <$> job_cache, None)
  end.

Definition release_jobs (job_cache : list BalsamJob) (w : World)
    : World * list BalsamJob :=
  let release_jobs :=
    pk <$> filter (λ j, processable (state j) = false) job_cache in
  (with_call (Release release_jobs) w,
   filter (λ j, pk j ∉ release_jobs) job_cache).

(** What the [except BalsamTransitionError] clause of the pass does:
    the job is set to FAILED, the traceback is printed into a buffer and
    two records are logged with [logger.exception]. *)
Definition mark_failed (msg : string) (s : World * BalsamJob)
    : World * BalsamJob :=
  let job := set_state FAILED s.2 in
  let buf := print_exc (BalsamTransitionError msg) in
  (logger ERROR ("Marking " +:+ cute_id job +:+ " as FAILED")
     (logger ERROR
        (cute_id job +:+ " BalsamTransitionError:" +:+ newline +:+ buf
         +:+ newline) s.1),
   job).

(** Run transitions (one pass over all jobs).  An exception other than
    a transition error leaves the loop and the function. *)
Fixpoint transition_pass (job_cache : list BalsamJob) (w : World)
    : World * list BalsamJob * option exn :=
  match job_cache with
  | [] => (w, [], None)
  | job :: rest =>
      match TRANSITIONS (state job) with
      | None => (w, job :: rest, Some (KeyError (state job)))
      | Some transition_function =>
          let '(s1, r) := transition_function (w, job) in
          match r with
          | inl (BalsamTransitionError msg) =>
              let '(w2, job2) := mark_failed msg s1 in
              if EXIT_FLAG w2 then (w2, job2 :: rest, None)
              else
                let '(w3, rest', e) := transition_pass rest w2 in
                (w3, job2 :: rest', e)
          | inl e => (s1.1, s1.2 :: rest, Some e)
          | inr _ =>
              if EXIT_FLAG s1.1 then (s1.1, s1.2 :: rest, None)
              else
                let '(w3, rest', e) := transition_pass rest s1.1 in
                (w3, s1.2 :: rest', e)
          end
      end
  end.

(** One turn of the [while not EXIT_FLAG] loop of [_main]; [stale]
    says whether more than [refresh_period] has elapsed since the last
    refresh. *)
Definition main_turn (num_threads : Z) (stale : bool)
    (job_cache : list BalsamJob) (w : World)
    : World * list BalsamJob * option exn :=
  let '(w, c, e) :=
    if negb (truthy job_cache) || stale
    then refresh_cache job_cache num_threads w
    else (w, job_cache, None) in
  match e with
  | Some _ => (w, c, e)
  | None =>
    let '(w, c, e) := fast_forward c w in
    match e with
    | Some _ => (w, c, e)
    | None =>
      let '(w, c) := release_jobs c w in
      let '(w, c, e) := transition_pass c w in
      match e with
      | Some _ => (w, c, e)
      | None =>
        let '(w, c, e) := update_states_from_cache c w in
        match e with
        | Some _ => (w, c, e)
        | None => let '(w, c) := release_jobs c w in (w, c, None)
        end
      end
    end
  end.

End Engine.

(** ** The fast-forward pass, job by job

    No body of the eight loops writes the store, and what a body does to
    a job depends on the world only through the store (the dependency
    check).  The jobs a pass leaves are therefore the images of the jobs
    it was given under [ff_job]. *)

Definition cond_apply (cond : BalsamJob → bool) (f : BalsamJob → BalsamJob)
    (j : BalsamJob) : BalsamJob := if cond j then f j else j.

Definition ff_job (w : World) (j : BalsamJob) : BalsamJob :=
  cond_apply is_stageout_skip (set_state JOB_FINISHED)
    (cond_apply is_errfail_job (set_state FAILED)
       (cond_apply is_timefail_job (set_state FAILED)
          (cond_apply is_retry_job (set_state RESTART_READY)
             (cond_apply is_done_job (set_state POSTPROCESSED)
                (cond_apply is_preprocess_skip (set_state PREPROCESSED)
                   (cond_apply (state_is READY) (λ j, (skip_stage_in j w).2)
                      (cond_apply is_check_job (λ j, (check_parents j w).2)
                         j))))))).

(** The readiness test of [check_parents] on its own. *)
Definition parents_ready (ps : list string) (wait : bool)
    (d : gmap string pyval) : bool :=
  (length ps =? 0) || negb wait
  || (length ps =? size (filter (λ kv : string * pyval, kv.2 = JOB_FINISHED)
                           (filter (λ kv : string * pyval, kv.1 ∈ ps) d))).

(** The states on which some loop of [fast_forward] has a condition. *)
Definition fast_forward_states : list pyval :=
  [CREATED; AWAITING_PARENTS; READY; STAGED_IN; RUN_DONE; RUN_TIMEOUT;
   RUN_ERROR; POSTPROCESSED].

(** A job is settled when no skip rule of [fast_forward] applies to it
    and it has been through the dependency check. *)
Definition is_stagein_skip (j : BalsamJob) : bool :=
  state_is READY j
  && negb (truthy (stage_in_url j))
  && negb (truthy (get_parents_by_id j) && truthy (input_files j)).

Definition settled (j : BalsamJob) : bool :=
  negb (state_is CREATED j) && negb (is_stagein_skip j)
  && negb (is_preprocess_skip j) && negb (is_done_job j)
  && negb (is_retry_job j) && negb (is_timefail_job j)
  && negb (is_errfail_job j) && negb (is_stageout_skip j).

(** A cached job is changed when its state differs from the state
    recorded in [__old_state] at the previous write. *)
Definition changed (j : BalsamJob) : Prop :=
  ∃ old, __old_state j = Some old ∧ state j ≠ old.

(** The store calls a non-empty [update_jobs] gives rise to. *)
Definition group_calls (update_jobs : list (pyval * list string))
    : list StoreCall :=
  (λ item, BatchUpdateState item.2 item.1) <$> update_jobs.

(** The fair share as the design notes word it:
    [ceil(total_transitionable / worker_count)]. *)
Definition fair_share_spec (total_transitionable worker_count : Z) : Z :=
  (- ((- total_transitionable) / worker_count))%Z.

(** A computation keeps the job when it hands on the job object with
    nothing changed but, possibly, the state; it leaves the job when the
    state is not assigned either. *)
Definition same_but_state (j j' : BalsamJob) : Prop :=
  j' = set_state (state j') j.

Definition keeps_job {A} (m : Tr A) : Prop :=
  ∀ s, same_but_state s.2 (m s).1.2.

Definition leaves_job {A} (m : Tr A) : Prop :=
  ∀ s, (m s).1.2 = s.2.

(** A computation raises nothing but transition errors; it never
    raises; it ends in state [v] when it returns and hands the job on
    untouched when it raises. *)
Definition only_transition_errors {A} (m : Tr A) : Prop :=
  ∀ s e, (m s).2 = inl e → ∃ msg, e = BalsamTransitionError msg.

Definition never_raises {A} (m : Tr A) : Prop :=
  ∀ s, ∃ x, (m s).2 = inr x.

Definition ends_in {A} (v : pyval) (m : Tr A) : Prop :=
  ∀ s, match (m s).2 with
       | inr _ => (m s).1.2 = set_state v s.2
       | inl _ => (m s).1.2 = s.2
       end.

(** The keys of [TRANSITIONS]. *)
Definition transition_states : list pyval :=
  [READY; STAGED_IN; RUN_DONE; RUN_TIMEOUT; RUN_ERROR; POSTPROCESSED].

(** ** Sample data: a quiet outside world and a plain job *)

Module Sample.

Definition get_envs (_ : BalsamJob) (_ _ : bool) : unit := ().
Definition transfer (_ _ : string) (w : World) : World * option string :=
  (w, None).
Definition glob_glob (_ : string) (_ : World) : list string := [].
Definition tempdir_enter (w : World) : World * string := (w, "/tmp/stage").
Definition tempdir_exit (_ : string) (w : World) : World := w.
Definition run_subprocess (_ : list string) (_ : unit) (_ : string) (_ : Z)
    (w : World) : World * proc_outcome := (w, Exited 0).
Definition proc_kill (w : World) : World := w.
Definition get_tail (_ : string) (_ : option nat) (_ : World) : string := "".
Definition parent_workdirs (_ : BalsamJob) (_ : World)
    : list (string * string) := [].

(** A job with nothing configured. *)
Definition job (key : string) (st : pyval) (ps : list string) : BalsamJob :=
  {| pk := key; cute_id := "[" +:+ key +:+ "]"; state := st;
     __old_state := Some st; working_directory := "/work/" +:+ key;
     parents := ps; wait_for_parents := true; input_files := "";
     stage_in_url := None; stage_out_files := ""; stage_out_url := None;
     preprocess_cmd := None; postprocess_cmd := None;
     post_error_handler := false; post_timeout_handler := false;
     auto_timeout_retry := false |}.

Definition free_running (j : BalsamJob) : BalsamJob :=
  {| pk := pk j; cute_id := cute_id j; state := state j;
     __old_state := __old_state j; working_directory := working_directory j;
     parents := parents j; wait_for_parents := false;
     input_files := input_files j; stage_in_url := stage_in_url j;
     stage_out_files := stage_out_files j; stage_out_url := stage_out_url j;
     preprocess_cmd := preprocess_cmd j; postprocess_cmd := postprocess_cmd j;
     post_error_handler := post_error_handler j;
     post_timeout_handler := post_timeout_handler j;
     auto_timeout_retry := auto_timeout_retry j |}.

(** The same job with a postprocess command that also handles run
    errors and time-outs. *)
Definition with_handler (cmd : string) (j : BalsamJob) : BalsamJob :=
  {| pk := pk j; cute_id := cute_id j; state := state j;
     __old_state := __old_state j; working_directory := working_directory j;
     parents := parents j; wait_for_parents := wait_for_parents j;
     input_files := input_files j; stage_in_url := stage_in_url j;
     stage_out_files := stage_out_files j; stage_out_url := stage_out_url j;
     preprocess_cmd := preprocess_cmd j; postprocess_cmd := Some cmd;
     post_error_handler := true; post_timeout_handler := true;
     auto_timeout_retry := auto_timeout_retry j |}.

(** The processable states of the job model, and a store that hands
    out the first [n] jobs of a pool. *)
Definition PROCESSABLE_STATES : list string :=
  ["CREATED"; "AWAITING_PARENTS"; "READY"; "STAGED_IN"; "RUN_DONE";
   "POSTPROCESSED"; "RUN_TIMEOUT"; "RUN_ERROR"].
Definition acquire (pool : list BalsamJob) (n : Z) (w : World)
    : World * list BalsamJob := (w, take (Z.to_nat n) pool).

Definition world (paths : list string) (rows : list (string * pyval))
    : World :=
  {| fs := list_to_set paths; db := list_to_map rows; store_calls := [];
     log := []; EXIT_FLAG := false |}.

(** A traceback reduced to its first and last lines. *)
Definition print_exc (e : exn) : string :=
  "Traceback (most recent call last):" +:+ newline +:+ str_exn e.

(** A stage-in transfer cut short by a signal: the signal handler sets
    the stop flag and the transfer fails. *)
Definition interrupted_transfer (_ _ : string) (w : World)
    : World * option string :=
  ({| fs := fs w; db := db w; store_calls := store_calls w; log := log w;
      EXIT_FLAG := true |},
   Some "interrupted").

Definition interrupted_transitions : pyval → option (Tr unit) :=
  TRANSITIONS get_envs interrupted_transfer transfer glob_glob transfer
    transfer tempdir_enter tempdir_exit transfer run_subprocess proc_kill
    get_tail parent_workdirs.

Definition interrupted_pass
    : list BalsamJob → World → World * list BalsamJob * option exn :=
  transition_pass get_envs interrupted_transfer transfer glob_glob
    transfer transfer tempdir_enter tempdir_exit transfer run_subprocess
    proc_kill get_tail parent_workdirs print_exc.

Definition stage_in : Tr unit :=
  stage_in transfer glob_glob transfer parent_workdirs.
Definition postprocess : bool → bool → Tr unit :=
  postprocess get_envs transfer run_subprocess proc_kill get_tail.
Definition TRANSITIONS : pyval → option (Tr unit) :=
  TRANSITIONS get_envs transfer transfer glob_glob transfer transfer
    tempdir_enter tempdir_exit transfer run_subprocess proc_kill get_tail
    parent_workdirs.

Definition transition_pass
    : list BalsamJob → World → World * list BalsamJob * option exn :=
  transition_pass get_envs transfer transfer glob_glob transfer transfer
    tempdir_enter tempdir_exit transfer run_subprocess proc_kill get_tail
    parent_workdirs print_exc.
Definition handle_run_error : Tr unit :=
  handle_run_error get_envs transfer run_subprocess proc_kill get_tail.

(** The same job retried automatically after a time-out. *)
Definition retrying (j : BalsamJob) : BalsamJob :=
  {| pk := pk j; cute_id := cute_id j; state := state j;
     __old_state := __old_state j; working_directory := working_directory j;
     parents := parents j; wait_for_parents := wait_for_parents j;
     input_files := input_files j; stage_in_url := stage_in_url j;
     stage_out_files := stage_out_files j; stage_out_url := stage_out_url j;
     preprocess_cmd := preprocess_cmd j; postprocess_cmd := postprocess_cmd j;
     post_error_handler := post_error_handler j;
     post_timeout_handler := post_timeout_handler j;
     auto_timeout_retry := true |}.

(** The same job with a preprocess command. *)
Definition with_preprocess (cmd : string) (j : BalsamJob) : BalsamJob :=
  {| pk := pk j; cute_id := cute_id j; state := state j;
     __old_state := __old_state j; working_directory := working_directory j;
     parents := parents j; wait_for_parents := wait_for_parents j;
     input_files := input_files j; stage_in_url := stage_in_url j;
     stage_out_files := stage_out_files j; stage_out_url := stage_out_url j;
     preprocess_cmd := Some cmd; postprocess_cmd := postprocess_cmd j;
     post_error_handler := post_error_handler j;
     post_timeout_handler := post_timeout_handler j;
     auto_timeout_retry := auto_timeout_retry j |}.

(** The same job with a stage-in URL. *)
Definition with_stage_in (url : string) (j : BalsamJob) : BalsamJob :=
  {| pk := pk j; cute_id := cute_id j; state := state j;
     __old_state := __old_state j; working_directory := working_directory j;
     parents := parents j; wait_for_parents := wait_for_parents j;
     input_files := input_files j; stage_in_url := Some url;
     stage_out_files := stage_out_files j; stage_out_url := stage_out_url j;
     preprocess_cmd := preprocess_cmd j; postprocess_cmd := postprocess_cmd j;
     post_error_handler := post_error_handler j;
     post_timeout_handler := post_timeout_handler j;
     auto_timeout_retry := auto_timeout_retry j |}.

(** The same job as the store hands it out, before any [__old_state] has
    been saved on it. *)
Definition unsaved (j : BalsamJob) : BalsamJob :=
  {| pk := pk j; cute_id := cute_id j; state := state j;
     __old_state := None; working_directory := working_directory j;
     parents := parents j; wait_for_parents := wait_for_parents j;
     input_files := input_files j; stage_in_url := stage_in_url j;
     stage_out_files := stage_out_files j; stage_out_url := stage_out_url j;
     preprocess_cmd := preprocess_cmd j; postprocess_cmd := postprocess_cmd j;
     post_error_handler := post_error_handler j;
     post_timeout_handler := post_timeout_handler j;
     auto_timeout_retry := auto_timeout_retry j |}.

(** A subprocess that exits with code 2. *)
Definition run_failing (_ : list string) (_ : unit) (_ : string) (_ : Z)
    (w : World) : World * proc_outcome := (w, Exited 2).

Definition main_turn (pool : list BalsamJob)
    : Z → bool → list BalsamJob → World → World * list BalsamJob * option exn :=
  main_turn get_envs transfer transfer glob_glob transfer transfer
    tempdir_enter tempdir_exit transfer run_subprocess proc_kill get_tail
    parent_workdirs print_exc PROCESSABLE_STATES (acquire pool).

End Sample.

(** * Properties *)

(** ** Dependency check *)

Lemma size_list_to_set_le (l : list string) :
  size (list_to_set l : gset string) ≤ length l.
Proof.
  induction l as [|x l IH].
  - rewrite list_to_set_nil, size_empty. simpl. lia.
  - rewrite list_to_set_cons, size_union_alt, size_singleton. simpl.
    assert (Hle : size (list_to_set l ∖ {[x]} : gset string)
                  ≤ size (list_to_set l : gset string)).
    { apply subseteq_size. apply subseteq_difference_l. reflexivity. }
    lia.
Qed.

(** When as many stored parents are finished as the job lists parent
    ids, every listed id is the key of a finished job. *)
Lemma count_finished_all (j : BalsamJob) (w : World) :
  length (get_parents_by_id j) = count_state JOB_FINISHED (get_parents j w) →
  ∀ p, p ∈ parents j → db w !! p = Some JOB_FINISHED.
Proof.
  unfold count_state, get_parents, get_parents_by_id. intros Hlen p Hp.
  set (m := filter (λ kv : string * pyval, kv.2 = JOB_FINISHED)
              (filter (λ kv : string * pyval, kv.1 ∈ parents j) (db w))) in *.
  assert (Hsub : dom m ⊆ (list_to_set (parents j) : gset string)).
  { intros k Hk. apply elem_of_dom in Hk as [v Hv].
    apply map_lookup_filter_Some in Hv as [Hv _].
    apply map_lookup_filter_Some in Hv as [_ Hin]. simpl in Hin.
    by apply elem_of_list_to_set. }
  assert (Heq : dom m = (list_to_set (parents j) : gset string)).
  { apply set_subseteq_size_eq; [done|].
    rewrite size_dom. pose proof (size_list_to_set_le (parents j)). lia. }
  assert (Hin : p ∈ dom m) by (rewrite Heq; by apply elem_of_list_to_set).
  apply elem_of_dom in Hin as [v Hv].
  apply map_lookup_filter_Some in Hv as [Hv Hfin].
  apply map_lookup_filter_Some in Hv as [Hv _]. simpl in Hfin. by subst v.
Qed.

(** C2, as amended: for a job that has at least one parent and is set to
    wait for its parents, the dependency check moves it from
    AWAITING_PARENTS to READY only when every one of its parent jobs is in
    state JOB_FINISHED in the store at the time of the check. *)
Theorem check_parents_ready_only_when_finished (job : BalsamJob) (w : World) :
  parents job ≠ [] →
  wait_for_parents job = true →
  state job = AWAITING_PARENTS →
  state (check_parents job w).2 = READY →
  ∀ p, p ∈ parents job → db w !! p = Some JOB_FINISHED.
Proof.
  intros Hps Hwait Hst Hready. unfold check_parents in Hready.
  cbv zeta in Hready.
  destruct ((length (get_parents_by_id job) =? 0)
            || negb (wait_for_parents job)) eqn:E1.
  - rewrite Hwait, orb_false_r in E1. apply Nat.eqb_eq in E1.
    unfold get_parents_by_id in E1. by destruct (parents job).
  - destruct (length (get_parents_by_id job)
              =? count_state JOB_FINISHED (get_parents job w)) eqn:E2.
    + apply Nat.eqb_eq in E2. by apply count_finished_all.
    + rewrite Hst in Hready. simpl in Hready. rewrite Hst in Hready.
      discriminate.
Qed.

Lemma check_parents_ready_only_when_finished_witness :
  let job := Sample.job "child" AWAITING_PARENTS ["mother"; "father"] in
  let w := Sample.world []
             [("mother", JOB_FINISHED); ("father", JOB_FINISHED)] in
  state (check_parents job w).2 = READY ∧
  ∀ p, p ∈ parents job → db w !! p = Some JOB_FINISHED.
Proof.
  intros job w.
  assert (Hr : state (check_parents job w).2 = READY) by (vm_compute; reflexivity).
  split; [exact Hr|].
  apply (check_parents_ready_only_when_finished job w);
    [discriminate | reflexivity | reflexivity | exact Hr].
Defined.

(** C2 as stated fails: a job that does not wait for its parents is made
    READY while its only parent is still RUNNING. *)
Lemma check_parents_ready_before_parent_finished :
  ¬ (∀ (job : BalsamJob) (w : World),
       parents job ≠ [] →
       state job = AWAITING_PARENTS →
       state (check_parents job w).2 = READY →
       ∀ p, p ∈ parents job → db w !! p = Some JOB_FINISHED).
Proof.
  intros H.
  specialize (H (Sample.free_running
                   (Sample.job "child" AWAITING_PARENTS ["mother"]))
                (Sample.world [] [("mother", PyStr "RUNNING")])).
  specialize (H ltac:(discriminate) eq_refl eq_refl "mother").
  specialize (H ltac:(simpl; apply list_elem_of_here)).
  vm_compute in H. discriminate.
Qed.

(** ** Fast-forward *)

Section ForEach.

Variables (cond : BalsamJob → bool)
          (body : BalsamJob → World → World * BalsamJob)
          (g : BalsamJob → BalsamJob)
          (d : gmap string pyval).
Hypothesis body_job : ∀ j w, db w = d → (body j w).2 = g j.
Hypothesis body_db : ∀ j w, db (body j w).1 = db w.

Lemma for_each_jobs (job_cache : list BalsamJob) (w : World) :
  db w = d →
  (for_each cond body job_cache w).2 = cond_apply cond g <$> job_cache
  ∧ db (for_each cond body job_cache w).1 = d.
Proof.
  revert w. induction job_cache as [|j rest IH]; intros w Hw.
  { split; [reflexivity | exact Hw]. }
  cbn [for_each fmap list_fmap]. unfold cond_apply at 1.
  destruct (cond j).
  - pose proof (body_job j w Hw) as Hj. pose proof (body_db j w) as Hd.
    destruct (body j w) as [w1 j1]. cbn [fst snd] in Hj, Hd.
    destruct (IH w1 ltac:(congruence)) as [IH1 IH2].
    destruct (for_each cond body rest w1) as [w2 rest'].
    cbn [fst snd] in *. split; [congruence | exact IH2].
  - destruct (IH w Hw) as [IH1 IH2].
    destruct (for_each cond body rest w) as [w2 rest'].
    cbn [fst snd] in *. split; [congruence | exact IH2].
Qed.

End ForEach.

Lemma db_logger l msg w : db (logger l msg w) = db w.
Proof. done. Qed.

Lemma check_parents_db j w : db (check_parents j w).1 = db w.
Proof.
  unfold check_parents. cbv zeta.
  repeat match goal with |- context [if ?b then _ else _] => destruct b end;
    done.
Qed.

Lemma check_parents_job j w w' :
  db w = db w' → (check_parents j w).2 = (check_parents j w').2.
Proof.
  intros Hd. unfold check_parents, get_parents. cbv zeta. rewrite Hd.
  repeat match goal with |- context [if ?b then _ else _] => destruct b end;
    done.
Qed.

Lemma skip_stage_in_db j w : db (skip_stage_in j w).1 = db w.
Proof.
  unfold skip_stage_in. cbv zeta.
  repeat match goal with |- context [if ?b then _ else _] => destruct b end;
    done.
Qed.

Lemma skip_stage_in_job j w w' : (skip_stage_in j w).2 = (skip_stage_in j w').2.
Proof.
  unfold skip_stage_in. cbv zeta.
  destruct (negb (truthy (stage_in_url j))
            && negb (truthy (get_parents_by_id j) && truthy (input_files j)));
    done.
Qed.

(** The jobs handed to the final write-back, and the store at that point. *)
Lemma fast_forward_unfold (job_cache : list BalsamJob) (w : World) :
  ∃ w', db w' = db w ∧
        fast_forward job_cache w
        = update_states_from_cache (ff_job w <$> job_cache) w'.
Proof.
  unfold fast_forward.
  destruct (for_each_jobs is_check_job check_parents
              (λ j, (check_parents j w).2) (db w)
              (λ j w0 H, check_parents_job j w0 w H) check_parents_db
              job_cache w eq_refl) as [E1 D1].
  destruct (for_each is_check_job check_parents job_cache w) as [w1 c1].
  cbn [fst snd] in E1, D1.
  destruct (for_each_jobs (state_is READY) skip_stage_in
              (λ j, (skip_stage_in j w).2) (db w)
              (λ j w0 _, skip_stage_in_job j w0 w) skip_stage_in_db
              c1 w1 D1) as [E2 D2].
  destruct (for_each (state_is READY) skip_stage_in c1 w1) as [w2 c2].
  cbn [fst snd] in E2, D2.
  assert (Hassign : ∀ cond v c w0, db w0 = db w →
            (for_each cond (assign_state v) c w0).2
            = cond_apply cond (set_state v) <$> c
            ∧ db (for_each cond (assign_state v) c w0).1 = db w).
  { intros cond v c w0 H0.
    apply (for_each_jobs cond (assign_state v) (set_state v) (db w));
      [reflexivity | reflexivity | exact H0]. }
  destruct (Hassign is_preprocess_skip PREPROCESSED c2 w2 D2) as [E3 D3].
  destruct (for_each is_preprocess_skip _ c2 w2) as [w3 c3].
  cbn [fst snd] in E3, D3.
  destruct (Hassign is_done_job POSTPROCESSED c3 w3 D3) as [E4 D4].
  destruct (for_each is_done_job _ c3 w3) as [w4 c4].
  cbn [fst snd] in E4, D4.
  destruct (Hassign is_retry_job RESTART_READY c4 w4 D4) as [E5 D5].
  destruct (for_each is_retry_job _ c4 w4) as [w5 c5].
  cbn [fst snd] in E5, D5.
  destruct (Hassign is_timefail_job FAILED c5 w5 D5) as [E6 D6].
  destruct (for_each is_timefail_job _ c5 w5) as [w6 c6].
  cbn [fst snd] in E6, D6.
  destruct (Hassign is_errfail_job FAILED c6 w6 D6) as [E7 D7].
  destruct (for_each is_errfail_job _ c6 w6) as [w7 c7].
  cbn [fst snd] in E7, D7.
  destruct (Hassign is_stageout_skip JOB_FINISHED c7 w7 D7) as [E8 D8].
  destruct (for_each is_stageout_skip _ c7 w7) as [w8 c8].
  cbn [fst snd] in E8, D8.
  exists w8. split; [exact D8|]. f_equal.
  rewrite E8, E7, E6, E5, E4, E3, E2, E1.
  rewrite <- !list_fmap_compose. apply list_fmap_ext.
  intros i j _. unfold ff_job, compose. reflexivity.
Qed.

Lemma is_check_job_eq j :
  is_check_job j = state_is CREATED j || state_is AWAITING_PARENTS j.
Proof.
  unfold is_check_job, state_is.
  change (PyStr <$> split "CREATED AWAITING_PARENTS")
    with [CREATED; AWAITING_PARENTS].
  repeat case_bool_decide; simpl; try done;
    rewrite ?elem_of_cons, ?elem_of_nil in *; tauto.
Qed.

Lemma check_parents_state j w :
  (check_parents j w).2 =
  if parents_ready (parents j) (wait_for_parents j) (db w)
  then set_state READY j
  else if bool_decide (state j ≠ AWAITING_PARENTS)
       then set_state AWAITING_PARENTS j else j.
Proof.
  unfold check_parents, parents_ready, count_state, get_parents,
    get_parents_by_id.
  cbv zeta.
  destruct (length (parents j) =? 0); simpl; [done|].
  destruct (negb (wait_for_parents j)); simpl; [done|].
  destruct (_ =? _); [done|]. by destruct (bool_decide _).
Qed.

Lemma skip_stage_in_state j w :
  (skip_stage_in j w).2 =
  if negb (truthy (stage_in_url j))
     && negb (truthy (parents j) && truthy (input_files j))
  then set_state STAGED_IN j else j.
Proof.
  unfold skip_stage_in, get_parents_by_id. cbv zeta.
  by destruct (_ && _).
Qed.

(** *** Case analysis on one job

    The tactics below run the stages of [ff_job] one after the other on
    a job that is given as a record, splitting on the configuration tests
    as they come up. *)

Ltac decide_states :=
  repeat match goal with
  | |- context [bool_decide (?a = ?b)] =>
      first [ rewrite (bool_decide_eq_true_2 (a = b) eq_refl)
            | rewrite (bool_decide_eq_false_2 (a = b)
                         ltac:(first [assumption | discriminate])) ]
  | |- context [bool_decide (?a ≠ ?b)] =>
      first [ rewrite (bool_decide_eq_false_2 (a ≠ b) (λ H, H eq_refl))
            | rewrite (bool_decide_eq_true_2 (a ≠ b)
                         ltac:(first [assumption | discriminate])) ]
  end.

Ltac job_fields :=
  cbn [state __old_state pk cute_id working_directory parents
       wait_for_parents input_files stage_in_url stage_out_files stage_out_url
       preprocess_cmd postprocess_cmd post_error_handler post_timeout_handler
       auto_timeout_retry fst snd].

Ltac ff_simpl :=
  unfold set_state; job_fields; decide_states; cbn [andb orb negb].

Ltac ff_stage :=
  match goal with
  | |- context [cond_apply ?c ?f (mkJob ?a1 ?a2 ?a3 ?a4 ?a5 ?a6 ?a7 ?a8 ?a9
                                        ?a10 ?a11 ?a12 ?a13 ?a14 ?a15 ?a16)] =>
      let J := constr:(mkJob a1 a2 a3 a4 a5 a6 a7 a8 a9 a10 a11 a12 a13 a14
                             a15 a16) in
      change (cond_apply c f J) with (if c J then f J else J);
      cbv beta;
      rewrite ?is_check_job_eq, ?(check_parents_state J),
        ?(skip_stage_in_state J);
      unfold is_preprocess_skip, is_done_job, is_retry_job, is_timefail_job,
        is_errfail_job, is_stageout_skip, state_is;
      ff_simpl;
      repeat match goal with
             | |- context [if ?b then _ else _] => destruct b eqn:?; ff_simpl
             end
  end.

Ltac case_state st :=
  destruct (decide (st = CREATED)) as [->|?];
  [|destruct (decide (st = AWAITING_PARENTS)) as [->|?];
  [|destruct (decide (st = READY)) as [->|?];
  [|destruct (decide (st = STAGED_IN)) as [->|?];
  [|destruct (decide (st = RUN_DONE)) as [->|?];
  [|destruct (decide (st = RUN_TIMEOUT)) as [->|?];
  [|destruct (decide (st = RUN_ERROR)) as [->|?];
  [|destruct (decide (st = POSTPROCESSED)) as [->|?]]]]]]]].

Ltac unfold_settled :=
  unfold settled, is_stagein_skip, is_preprocess_skip, is_done_job,
    is_retry_job, is_timefail_job, is_errfail_job, is_stageout_skip,
    state_is, get_parents_by_id.

(** A job in a state no loop tests for is returned as it is. *)
Lemma ff_job_other (w : World) (j : BalsamJob) :
  state j ∉ fast_forward_states → ff_job w j = j.
Proof.
  unfold fast_forward_states. rewrite !not_elem_of_cons.
  intros (N1 & N2 & N3 & N4 & N5 & N6 & N7 & N8 & _).
  destruct j as [k cid st old wd ps wait inp url_in outf url_out pre post
                 eh th retry].
  cbn [state] in *. unfold ff_job. repeat ff_stage. reflexivity.
Qed.

(** A pass never changes the key of a job. *)
Lemma ff_job_pk (w : World) (j : BalsamJob) : pk (ff_job w j) = pk j.
Proof.
  destruct j as [k cid st old wd ps wait inp url_in outf url_out pre post
                 eh th retry].
  unfold ff_job. case_state st; repeat ff_stage; reflexivity.
Qed.

(** One pass settles every job. *)
Lemma ff_job_settled (w : World) (j : BalsamJob) : settled (ff_job w j) = true.
Proof.
  destruct j as [k cid st old wd ps wait inp url_in outf url_out pre post
                 eh th retry].
  unfold ff_job. case_state st; repeat ff_stage; unfold_settled; ff_simpl;
    repeat match goal with
           | H : _ = _ |- _ => rewrite H; clear H; cbn [andb orb negb]
           end;
    try reflexivity.
Qed.

(** On a settled job only the dependency check can still act. *)
Lemma settled_fixed (w' : World) (j : BalsamJob) :
  settled j = true →
  (state j = AWAITING_PARENTS →
   state (check_parents j w').2 = AWAITING_PARENTS) →
  state (ff_job w' j) = state j.
Proof.
  destruct j as [k cid st old wd ps wait inp url_in outf url_out pre post
                 eh th retry].
  unfold ff_job. unfold_settled. job_fields.
  case_state st; repeat ff_stage; rewrite ?check_parents_state; ff_simpl;
    intros Hs H; try discriminate Hs; try reflexivity;
    try (specialize (H eq_refl); discriminate H);
    repeat match goal with
           | E : _ = _ |- _ => rewrite E in Hs; cbn [andb orb negb] in Hs
           end;
    try discriminate Hs.
Qed.

(** *** The write-back leaves the jobs alone, up to [__old_state] *)

Lemma update_states_cache (c : list BalsamJob) (w : World) :
  (update_states_from_cache c w).1.2 = (scan_cache c []).1.
Proof.
  unfold update_states_from_cache.
  destruct (scan_cache c []) as [c' [e|d]]; [reflexivity|].
  by destruct (negb (truthy d)).
Qed.

Lemma scan_cache_lookup (c : list BalsamJob) d (i : nat) (j : BalsamJob) :
  c !! i = Some j →
  ∃ j', (scan_cache c d).1 !! i = Some j'
        ∧ (j' = j ∨ j' = set_old_state (state j) j).
Proof.
  revert d i. induction c as [|x c IH]; intros d i Hi; [done|].
  cbn [scan_cache]. destruct (__old_state x) as [old|].
  - destruct (bool_decide (state x ≠ old)).
    + specialize (IH (dict_append (state x) (pk x) d)).
      destruct (scan_cache c (dict_append (state x) (pk x) d)) as [c' r].
      destruct i as [|i]; simpl in *.
      * injection Hi as <-. eauto.
      * by apply IH.
    + specialize (IH d). destruct (scan_cache c d) as [c' r].
      destruct i as [|i]; simpl in *.
      * injection Hi as <-. eauto.
      * by apply IH.
  - exists j. split; [exact Hi | by left].
Qed.

Lemma scan_cache_length (c : list BalsamJob) d :
  length (scan_cache c d).1 = length c.
Proof.
  revert d. induction c as [|x c IH]; intros d; [done|].
  cbn [scan_cache]. destruct (__old_state x) as [old|]; [|done].
  destruct (bool_decide (state x ≠ old)).
  - specialize (IH (dict_append (state x) (pk x) d)).
    destruct (scan_cache c _) as [c' r]. simpl in *. by rewrite IH.
  - specialize (IH d). destruct (scan_cache c d) as [c' r]. simpl in *.
    by rewrite IH.
Qed.

(** Every job of the cache is where it was after a pass, and is its
    image under [ff_job], possibly with [__old_state] refreshed. *)
Lemma fast_forward_lookup (job_cache : list BalsamJob) (w : World)
    (i : nat) (j : BalsamJob) :
  job_cache !! i = Some j →
  ∃ j', (fast_forward job_cache w).1.2 !! i = Some j'
        ∧ (j' = ff_job w j
           ∨ j' = set_old_state (state (ff_job w j)) (ff_job w j)).
Proof.
  intros Hi. destruct (fast_forward_unfold job_cache w) as (w' & _ & ->).
  rewrite update_states_cache. apply scan_cache_lookup.
  by rewrite list_lookup_fmap, Hi.
Qed.

Lemma fast_forward_length (job_cache : list BalsamJob) (w : World) :
  length (fast_forward job_cache w).1.2 = length job_cache.
Proof.
  destruct (fast_forward_unfold job_cache w) as (w' & _ & ->).
  by rewrite update_states_cache, scan_cache_length, length_fmap.
Qed.

Lemma settled_set_old_state (v : pyval) (j : BalsamJob) :
  settled (set_old_state v j) = settled j.
Proof. by destruct j. Qed.

Lemma fast_forward_state (job_cache : list BalsamJob) (w : World)
    (i : nat) (j : BalsamJob) :
  job_cache !! i = Some j →
  ∃ j', (fast_forward job_cache w).1.2 !! i = Some j'
        ∧ state j' = state (ff_job w j)
        ∧ settled j' = true
        ∧ pk j' = pk j.
Proof.
  intros Hi. destruct (fast_forward_lookup job_cache w i j Hi)
    as (j' & Hj' & Hj).
  exists j'. split; [exact Hj'|].
  pose proof (ff_job_settled w j) as Hs.
  pose proof (ff_job_pk w j) as Hk. revert Hj Hs Hk.
  generalize (ff_job w j). intros x [->| ->] Hs Hk.
  - split; [reflexivity|]. split; [exact Hs | exact Hk].
  - split; [reflexivity|]. rewrite settled_set_old_state.
    split; [exact Hs | exact Hk].
Qed.

(** C9: fast-forward never changes a job that is in a terminal state.  A
    job whose state is FAILED or JOB_FINISHED when the pass starts, or any
    state other than CREATED, AWAITING_PARENTS, READY, STAGED_IN, RUN_DONE,
    RUN_TIMEOUT, RUN_ERROR and POSTPROCESSED, is at the same place of the
    cache with the same state when the pass ends; nothing of the job but
    the bookkeeping attribute [__old_state] of the write-back can differ. *)
Theorem fast_forward_keeps_terminal (job_cache : list BalsamJob) (w : World)
    (i : nat) (j : BalsamJob) :
  job_cache !! i = Some j →
  state j = FAILED ∨ state j = JOB_FINISHED ∨ state j ∉ fast_forward_states →
  ∃ j', (fast_forward job_cache w).1.2 !! i = Some j'
        ∧ state j' = state j
        ∧ (j' = j ∨ j' = set_old_state (state j) j).
Proof.
  intros Hi Hst.
  assert (Hout : state j ∉ fast_forward_states).
  { destruct Hst as [E|[E|N]]; [| |exact N]; rewrite E;
      unfold fast_forward_states; rewrite !not_elem_of_cons;
      repeat split; try discriminate; apply not_elem_of_nil. }
  destruct (fast_forward_lookup job_cache w i j Hi) as (j' & Hj' & Hj).
  rewrite (ff_job_other w j Hout) in Hj.
  exists j'. split; [exact Hj'|].
  split; [by destruct Hj as [->| ->] | exact Hj].
Qed.

Lemma fast_forward_keeps_terminal_witness :
  let cache := [Sample.job "a" READY []; Sample.job "b" FAILED [];
                Sample.job "c" JOB_FINISHED []] in
  let w := Sample.world [] [("a", READY); ("b", FAILED); ("c", JOB_FINISHED)] in
  ∃ j', (fast_forward cache w).1.2 !! 1 = Some j'
        ∧ state j' = FAILED
        ∧ (j' = Sample.job "b" FAILED []
           ∨ j' = set_old_state FAILED (Sample.job "b" FAILED [])).
Proof.
  intros cache w.
  apply (fast_forward_keeps_terminal cache w 1 (Sample.job "b" FAILED []));
    [reflexivity | left; reflexivity].
Defined.

(** C8: a job with no preprocess command, empty input_files, no stage-in
    URL and no parents that is READY when a fast-forward pass starts is
    PREPROCESSED when the pass ends. *)
Theorem fast_forward_ready_to_preprocessed (job_cache : list BalsamJob)
    (w : World) (i : nat) (j : BalsamJob) :
  job_cache !! i = Some j →
  state j = READY →
  truthy (preprocess_cmd j) = false →
  truthy (input_files j) = false →
  truthy (stage_in_url j) = false →
  parents j = [] →
  ∃ j', (fast_forward job_cache w).1.2 !! i = Some j'
        ∧ pk j' = pk j ∧ state j' = PREPROCESSED.
Proof.
  intros Hi Hst Hpre Hinp Hurl Hps.
  destruct (fast_forward_state job_cache w i j Hi)
    as (j' & Hj' & Hs & _ & Hk).
  exists j'. split; [exact Hj'|]. split; [exact Hk|].
  rewrite Hs. clear Hj' Hs Hk Hi.
  destruct j as [k cid st old wd ps wait inp url_in outf url_out pre post
                 eh th retry].
  cbn [state preprocess_cmd input_files stage_in_url parents] in *.
  subst st ps. unfold ff_job.
  repeat ff_stage; try reflexivity; exfalso;
    repeat match goal with
           | E : _ = _ |- _ =>
               rewrite ?Hurl, ?Hpre, ?Hinp in E;
               cbn [andb orb negb truthy list_truthy] in E;
               first [discriminate E | clear E]
           end.
Qed.

Lemma fast_forward_ready_to_preprocessed_witness :
  let cache := [Sample.job "a" READY []] in
  let w := Sample.world [] [("a", READY)] in
  ∃ j', (fast_forward cache w).1.2 !! 0 = Some j'
        ∧ pk j' = "a" ∧ state j' = PREPROCESSED.
Proof.
  intros cache w.
  apply (fast_forward_ready_to_preprocessed cache w 0 (Sample.job "a" READY []));
    reflexivity.
Defined.

(** C4, as amended: running the fast-forward pass twice in succession,
    the second pass on the cache and the world the first one left, gives
    every job the same state after the second pass as after the first,
    provided the dependency check still leaves waiting every job the first
    pass left in AWAITING_PARENTS (the first pass's own write-back has
    not finished the last parent of such a job). *)
Theorem fast_forward_idempotent (job_cache : list BalsamJob) (w : World) :
  let r1 := fast_forward job_cache w in
  let r2 := fast_forward r1.1.2 r1.1.1 in
  (∀ j, j ∈ r1.1.2 → state j = AWAITING_PARENTS →
        state (check_parents j r1.1.1).2 = AWAITING_PARENTS) →
  state <$> r2.1.2 = state <$> r1.1.2.
Proof.
  intros r1 r2 Hwait. apply list_eq. intros i.
  rewrite !list_lookup_fmap.
  destruct (r1.1.2 !! i) as [j1|] eqn:E1.
  - assert (Hs1 : settled j1 = true).
    { assert (Hlt : i < length job_cache).
      { rewrite <- (fast_forward_length job_cache w).
        by apply lookup_lt_Some with j1. }
      destruct (lookup_lt_is_Some_2 job_cache i Hlt) as [j0 Hj0].
      destruct (fast_forward_state job_cache w i j0 Hj0)
        as (j' & Hj' & _ & Hs & _).
      fold r1 in Hj'. congruence. }
    destruct (fast_forward_state r1.1.2 r1.1.1 i j1 E1)
      as (j2 & Hj2 & Hs2 & _).
    fold r2 in Hj2. rewrite Hj2. cbn [fmap option_fmap option_map]. f_equal.
    rewrite Hs2. apply settled_fixed; [exact Hs1|].
    apply Hwait. by apply list_elem_of_lookup_2 with i.
  - assert (Hnone : r2.1.2 !! i = None).
    { apply lookup_ge_None. unfold r2.
      rewrite fast_forward_length. by apply lookup_ge_None. }
    by rewrite Hnone.
Qed.

Lemma fast_forward_idempotent_witness :
  let cache := [Sample.job "child" AWAITING_PARENTS ["mother"];
                Sample.job "other" RUN_DONE []] in
  let w := Sample.world []
             [("child", AWAITING_PARENTS); ("other", RUN_DONE);
              ("mother", PyStr "RUNNING")] in
  let r1 := fast_forward cache w in
  let r2 := fast_forward r1.1.2 r1.1.1 in
  state <$> r2.1.2 = state <$> r1.1.2
  ∧ state <$> r1.1.2 = [AWAITING_PARENTS; JOB_FINISHED].
Proof.
  intros cache w r1 r2.
  assert (Hc : r1.1.2
                 = [Sample.job "child" AWAITING_PARENTS ["mother"];
                    set_old_state JOB_FINISHED
                      (Sample.job "other" JOB_FINISHED [])])
      by (vm_compute; reflexivity).
  assert (Hk : state (check_parents
                        (Sample.job "child" AWAITING_PARENTS ["mother"])
                        r1.1.1).2 = AWAITING_PARENTS)
    by (vm_compute; reflexivity).
  assert (Hw : ∀ j, j ∈ r1.1.2 → state j = AWAITING_PARENTS →
        state (check_parents j r1.1.1).2 = AWAITING_PARENTS).
  { intros j Hj Hst. rewrite Hc in Hj.
    apply elem_of_cons in Hj as [Hj|Hj].
    + rewrite Hj. exact Hk.
    + apply elem_of_cons in Hj as [Hj|Hj].
      * rewrite Hj in Hst. discriminate Hst.
      * apply elem_of_nil in Hj. destruct Hj. }
  split.
  - exact (fast_forward_idempotent cache w Hw).
  - rewrite Hc. reflexivity.
Defined.

(** C4 as stated fails: with a waiting job and its only parent in the
    same cache, the first pass finishes the parent and writes that to the
    store, and the second pass, with no write from outside in between,
    moves the waiting job on. *)
Lemma fast_forward_second_pass_moves_child :
  let cache := [Sample.job "child" AWAITING_PARENTS ["mother"];
                Sample.job "mother" POSTPROCESSED []] in
  let w := Sample.world []
             [("child", AWAITING_PARENTS); ("mother", POSTPROCESSED)] in
  let r1 := fast_forward cache w in
  let r2 := fast_forward r1.1.2 r1.1.1 in
  state <$> r1.1.2 = [AWAITING_PARENTS; JOB_FINISHED]
  ∧ state <$> r2.1.2 = [PREPROCESSED; JOB_FINISHED]
  ∧ state <$> r2.1.2 ≠ state <$> r1.1.2.
Proof.
  intros cache w r1 r2.
  assert (H1 : state <$> r1.1.2 = [AWAITING_PARENTS; JOB_FINISHED])
    by (vm_compute; reflexivity).
  assert (H2 : state <$> r2.1.2 = [PREPROCESSED; JOB_FINISHED])
    by (vm_compute; reflexivity).
  split; [exact H1|]. split; [exact H2|].
  rewrite H1, H2. discriminate.
Qed.

(** ** The bulk write-back *)

Lemma dict_append_ids k v d st ids id :
  (st, ids) ∈ dict_append k v d → id ∈ ids →
  (st = k ∧ id = v) ∨ ∃ ids0, (st, ids0) ∈ d ∧ id ∈ ids0.
Proof.
  induction d as [|[k' vs] d IH]; cbn [dict_append]; intros Hin Hid.
  - apply list_elem_of_singleton in Hin. injection Hin as -> ->.
    apply list_elem_of_singleton in Hid. by left.
  - destruct (decide (k = k')) as [->|Hne].
    + apply elem_of_cons in Hin as [Hin|Hin].
      * injection Hin as -> ->. apply elem_of_app in Hid as [Hid|Hid].
        -- right. exists vs. split; [apply list_elem_of_here | exact Hid].
        -- apply list_elem_of_singleton in Hid. by left.
      * right. exists ids. split; [by apply list_elem_of_further | exact Hid].
    + apply elem_of_cons in Hin as [Hin|Hin].
      * injection Hin as -> ->. right. exists vs.
        split; [apply list_elem_of_here | exact Hid].
      * destruct (IH Hin Hid) as [?|(ids0 & H0 & H1)]; [by left|].
        right. exists ids0. split; [by apply list_elem_of_further | exact H1].
Qed.

Lemma scan_cache_groups (c : list BalsamJob) d u st ids id :
  (scan_cache c d).2 = inr u → (st, ids) ∈ u → id ∈ ids →
  (∃ ids0, (st, ids0) ∈ d ∧ id ∈ ids0)
  ∨ ∃ j, j ∈ c ∧ pk j = id ∧ state j = st ∧ changed j.
Proof.
  revert d. induction c as [|x c IH]; intros d; cbn [scan_cache].
  - intros [= <-] Hin Hid. left. by exists ids.
  - destruct (__old_state x) as [old|] eqn:Eold; [|discriminate].
    case_bool_decide as Hch.
    + specialize (IH (dict_append (state x) (pk x) d)).
      destruct (scan_cache c (dict_append (state x) (pk x) d)) as [c' r].
      cbn [snd] in *. intros Hr Hin Hid.
      destruct (IH Hr Hin Hid) as [(ids0 & H0 & H1)|(j & Hj & Hrest)].
      * destruct (dict_append_ids _ _ _ _ _ _ H0 H1) as [[-> ->]|Hd].
        -- right. exists x. split; [apply list_elem_of_here|].
           split; [reflexivity|]. split; [reflexivity|]. by exists old.
        -- by left.
      * right. exists j. split; [by apply list_elem_of_further | exact Hrest].
    + specialize (IH d). destruct (scan_cache c d) as [c' r].
      cbn [snd] in *. intros Hr Hin Hid.
      destruct (IH Hr Hin Hid) as [?|(j & Hj & Hrest)]; [by left|].
      right. exists j. split; [by apply list_elem_of_further | exact Hrest].
Qed.

Lemma scan_cache_unchanged (c : list BalsamJob) d :
  (∀ j, j ∈ c → ¬ changed j) →
  (scan_cache c d).2 = inr d ∨ ∃ e, (scan_cache c d).2 = inl e.
Proof.
  induction c as [|x c IH]; intros Hc; cbn [scan_cache]; [by left|].
  destruct (__old_state x) as [old|] eqn:Eold; [|right; by eexists].
  case_bool_decide as Hch.
  - exfalso. apply (Hc x); [apply list_elem_of_here | by exists old].
  - destruct IH as [IH|[e IH]].
    + intros j Hj. apply Hc. by apply list_elem_of_further.
    + destruct (scan_cache c d) as [c' r]. cbn [snd] in *. by left.
    + destruct (scan_cache c d) as [c' r]. cbn [snd] in *. right. by exists e.
Qed.

Lemma batch_update_state_other ids st w k :
  k ∉ ids → db (batch_update_state ids st w) !! k = db w !! k.
Proof.
  intros Hk. unfold batch_update_state. cbn [db with_call with_db].
  induction ids as [|i ids IH]; cbn [foldr]; [reflexivity|].
  apply not_elem_of_cons in Hk as [Hne Hk].
  rewrite lookup_alter_ne by congruence. by apply IH.
Qed.

Lemma write_groups_calls u w :
  store_calls (write_groups u w) = store_calls w ++ group_calls u.
Proof.
  unfold write_groups, group_calls. revert w.
  induction u as [|[st ids] u IH]; intros w; cbn [foldl fmap list_fmap].
  - by rewrite app_nil_r.
  - rewrite IH. cbn [batch_update_state store_calls with_call with_db fst snd].
    by rewrite <- app_assoc.
Qed.

Lemma write_groups_other u w k :
  (∀ st ids, (st, ids) ∈ u → k ∉ ids) →
  db (write_groups u w) !! k = db w !! k.
Proof.
  unfold write_groups. revert w.
  induction u as [|[st ids] u IH]; intros w Hk; cbn [foldl]; [reflexivity|].
  rewrite IH.
  - apply batch_update_state_other. apply (Hk st). apply list_elem_of_here.
  - intros st' ids' Hin. apply (Hk st'). by apply list_elem_of_further.
Qed.

(** C10: the bulk write-back writes only changed jobs.  The calls that
    [update_states_from_cache] issues to the store are one transaction
    holding one batch update per new state, and every key in a batch is
    the key of a cached job that is in that state and whose state differs
    from its [__old_state]; when no cached job is changed the world is
    left as it was (no store operation at all); and the stored record of
    a key that belongs to no changed job is left untouched. *)
Theorem update_states_writes_only_changed (job_cache : list BalsamJob)
    (w : World) :
  let w' := (update_states_from_cache job_cache w).1.1 in
  (∃ groups,
      store_calls w' = store_calls w
        ++ (if truthy groups
            then AtomicBegin :: group_calls groups ++ [AtomicCommit] else [])
      ∧ ∀ st ids id, (st, ids) ∈ groups → id ∈ ids →
          ∃ j, j ∈ job_cache ∧ pk j = id ∧ state j = st ∧ changed j)
  ∧ ((∀ j, j ∈ job_cache → ¬ changed j) → w' = w)
  ∧ (∀ k, (∀ j, j ∈ job_cache → changed j → pk j ≠ k) →
          db w' !! k = db w !! k).
Proof.
  intros w'. unfold update_states_from_cache in w'.
  pose proof (scan_cache_groups job_cache []) as Hgroups.
  pose proof (scan_cache_unchanged job_cache []) as Hsame.
  destruct (scan_cache job_cache []) as [c' [e|u]]; cbn [snd] in *.
  { subst w'. cbn [fst]. split; [|split; reflexivity || (intros; reflexivity)].
    exists []. cbn [truthy list_truthy]. rewrite app_nil_r. split; [reflexivity|].
    intros st ids id Hin. by apply elem_of_nil in Hin. }
  assert (Hu : ∀ st ids id, (st, ids) ∈ u → id ∈ ids →
             ∃ j, j ∈ job_cache ∧ pk j = id ∧ state j = st ∧ changed j).
  { intros st ids id Hin Hid.
    destruct (Hgroups u st ids id eq_refl Hin Hid) as [(ids0 & H0 & _)|Hj];
      [by apply elem_of_nil in H0 | exact Hj]. }
  destruct u as [|g u]; cbn [truthy list_truthy negb] in w'; subst w';
    cbn [fst].
  - split; [|split; intros; reflexivity].
    exists []. cbn [truthy list_truthy]. rewrite app_nil_r. split; [reflexivity|].
    intros st ids id Hin. by apply elem_of_nil in Hin.
  - split; [|split].
    + exists (g :: u). split; [|exact Hu].
      cbn [truthy list_truthy store_calls with_call].
      rewrite write_groups_calls. cbn [store_calls with_call].
      by rewrite <- !app_assoc.
    + intros Hnone. exfalso. destruct (Hsame Hnone) as [[=]|[e [=]]].
    + intros k Hk. cbn [db with_call]. rewrite write_groups_other; [reflexivity|].
      intros st ids Hin Hid.
      destruct (Hu st ids k Hin Hid) as (j & Hj & Hpk & _ & Hch).
      by apply (Hk j Hj Hch).
Qed.

(** A cache of three jobs of which two have moved: one transaction with
    one batch per new state, in the order the states were met. *)
Example update_states_sample :
  let cache := [set_state JOB_FINISHED (Sample.job "a" POSTPROCESSED []);
                Sample.job "b" READY [];
                set_state FAILED (Sample.job "c" RUN_ERROR [])] in
  let w := Sample.world []
             [("a", POSTPROCESSED); ("b", READY); ("c", RUN_ERROR)] in
  let r := update_states_from_cache cache w in
  store_calls r.1.1
  = [AtomicBegin; BatchUpdateState ["a"] JOB_FINISHED;
     BatchUpdateState ["c"] FAILED; AtomicCommit]
  ∧ db r.1.1 !! "b" = Some READY
  ∧ db r.1.1 !! "c" = Some FAILED.
Proof. vm_compute. repeat split; reflexivity. Qed.

(** ** Transition functions *)

Lemma split_truthy (app exe : string) (args : list string) :
  split app = exe :: args → truthy app = true.
Proof. by destruct app. Qed.

Ltac unfold_tr :=
  unfold mbind, Tr_bind, self, logging, when, mret, Tr_ret, world_get,
    world_do, world_step, ext_call, raise, job_state_assign, first_item,
    refresh_from_db;
  cbn [fst snd].

Section StageInFacts.

Variable transfer_stage_in : string → string → World → World * option string.
Variable glob_glob : string → World → list string.
Variable os_symlink : string → string → World → World * option string.
Variable parent_workdirs : BalsamJob → World → list (string * string).

Local Abbreviation run_stage_in :=
  (stage_in transfer_stage_in glob_glob os_symlink parent_workdirs).

(** C6 fails on the code: when the working directory of the job does
    not exist, [stage_in] does not create it; it stops at the reference
    to the name [workdir], which is bound nowhere, and the exception
    that leaves the function is a NameError, not a transition error. *)
Theorem stage_in_missing_workdir (job : BalsamJob) (w : World) :
  os_path_exists (working_directory job) w = false →
  run_stage_in (w, job)
  = ((logger DEBUG (cute_id job +:+ " in stage_in") w, job),
     inl (NameError "workdir")).
Proof.
  intros Hdir. unfold stage_in. unfold_tr.
  change (os_path_exists (working_directory job)
            (logger DEBUG (cute_id job +:+ " in stage_in") w))
    with (os_path_exists (working_directory job) w).
  rewrite Hdir. reflexivity.
Qed.

End StageInFacts.

Section PostprocessFacts.

Context {env : Type}.
Variable get_envs : BalsamJob → bool → bool → env.
Variable open_write : string → string → World → World * option string.
Variable run_subprocess :
  list string → env → string → Z → World → World * proc_outcome.
Variable proc_kill : World → World.
Variable get_tail : string → option nat → World → string.

Local Abbreviation run_postprocess :=
  (postprocess get_envs open_write run_subprocess proc_kill get_tail).

(** With no postprocess command and neither handling mode,
    [postprocess] returns normally and leaves a tuple in [job.state]. *)
Lemma postprocess_no_command (job : BalsamJob) (w : World) :
  truthy (postprocess_cmd job) = false →
  run_postprocess false false (w, job)
  = ((logger INFO (cute_id job +:+ " no postprocess: skipped")
        (logger DEBUG (cute_id job +:+ " in postprocess") w),
      set_state (PyTuple ["POSTPROCESSED"]) job), inr ()).
Proof.
  intros Hcmd. unfold postprocess. unfold_tr.
  cbn [andb negb]. rewrite Hcmd. reflexivity.
Qed.

(** C7: after the postprocess subprocess has exited with code 0,
    [postprocess] reloads the persisted state [v] of the job; in
    error_handling mode with [v] still RUN_ERROR, and in
    timeout_handling mode with [v] still RUN_TIMEOUT, it raises a
    transition error; otherwise it returns, the job holding the reloaded
    state in a handling mode and POSTPROCESSED in neither mode. *)
Theorem postprocess_rechecks_state (job : BalsamJob) (w w1 w2 : World)
    (error_handling timeout_handling : bool) (app exe : string)
    (args : list string) (v : pyval) :
  postprocess_cmd job = Some app →
  split app = exe :: args →
  error_handling && timeout_handling = false →
  os_path_exists exe w = true →
  open_write (path_join (working_directory job) "postprocess.log")
    (postprocess_header app error_handling timeout_handling)
    (postprocess_entry job error_handling timeout_handling w) = (w1, None) →
  run_subprocess (split app) (get_envs job timeout_handling error_handling)
    (working_directory job) POSTPROCESS_TIMEOUT_SECONDS
    (logger INFO (cute_id job +:+ " postprocess Popen") w1)
    = (w2, Exited 0) →
  db w2 !! pk job = Some v →
  let r := run_postprocess error_handling timeout_handling (w, job) in
  state r.1.2
    = (if error_handling || timeout_handling then v else POSTPROCESSED)
  ∧ (error_handling = true → v = RUN_ERROR →
     ∃ msg, r.2 = inl (BalsamTransitionError msg))
  ∧ (timeout_handling = true → v = RUN_TIMEOUT →
     ∃ msg, r.2 = inl (BalsamTransitionError msg))
  ∧ (¬ (error_handling = true ∧ v = RUN_ERROR) →
     ¬ (timeout_handling = true ∧ v = RUN_TIMEOUT) →
     r.2 = inr ()).
Proof.
  intros Hcmd Hsplit Hmodes Hexe Hopen Hrun Hdb r.
  pose proof (split_truthy app exe args Hsplit) as Happ.
  assert (Hentry : fs (postprocess_entry job error_handling timeout_handling w)
                   = fs w).
  { unfold postprocess_entry.
    by destruct error_handling, timeout_handling. }
  assert (Hr : r =
    let s := (w2, set_state v job) in
    if error_handling && bool_decide (v = RUN_ERROR) then
      (s, inl (BalsamTransitionError
                 (cute_id job
                  +:+ " Error handling didn't fix job state: marking FAILED")))
    else if timeout_handling && bool_decide (v = RUN_TIMEOUT) then
      (s, inl (BalsamTransitionError
                 (cute_id job
                  +:+ " Timeout handling didn't change job state: marking FAILED")))
    else if negb (error_handling || timeout_handling) then
      ((logger INFO (cute_id job +:+ " postprocess done") w2,
        set_state POSTPROCESSED job), inr ())
    else
      ((logger INFO (cute_id job +:+ " postprocess done") w2,
        set_state v job), inr ())).
  { subst r. unfold postprocess, run_logged. unfold_tr.
    rewrite Hmodes, Hcmd.
    change (truthy (Some app)) with (truthy app). rewrite Happ.
    cbn [negb]. change (opt_text (Some app)) with app.
    rewrite Hsplit in Hrun |- *. cbn [fst snd mret Tr_ret].
    unfold postprocess_entry in Hopen, Hentry.
    destruct error_handling, timeout_handling; try discriminate Hmodes;
      cbn [fst snd andb orb negb] in Hopen, Hrun, Hentry |- *;
      unfold os_path_exists in Hexe |- *; cbn [fs logger] in Hentry |- *;
      rewrite ?Hentry; rewrite Hexe; cbn [negb fst snd];
      rewrite Hopen; cbn [fst snd];
      change (" " +:+ "postprocess" +:+ " Popen") with " postprocess Popen";
      rewrite Hrun; cbn [fst snd];
      rewrite (bool_decide_eq_false_2 (0%Z ≠ 0%Z) (λ H, H eq_refl));
      unfold_tr;
      rewrite Hdb; cbn [fst snd state set_state cute_id];
      repeat case_bool_decide; reflexivity. }
  rewrite Hr. clear Hr r. cbv zeta.
  destruct error_handling, timeout_handling; try discriminate Hmodes;
    cbn [andb orb negb];
    repeat case_bool_decide; cbn [fst snd state set_state];
    (split; [reflexivity|]); (split; [|split]); intros;
    first [ congruence | exfalso; tauto | eexists; reflexivity ].
Qed.

End PostprocessFacts.

Lemma stage_in_missing_workdir_witness :
  let job := Sample.job "a" READY [] in
  let w := Sample.world [] [("a", READY)] in
  os_path_exists (working_directory job) w = false
  ∧ Sample.stage_in (w, job)
    = ((logger DEBUG (cute_id job +:+ " in stage_in") w, job),
       inl (NameError "workdir")).
Proof.
  intros job w.
  assert (Hdir : os_path_exists (working_directory job) w = false)
    by (vm_compute; reflexivity).
  split; [exact Hdir|].
  exact (stage_in_missing_workdir Sample.transfer Sample.glob_glob
           Sample.transfer Sample.parent_workdirs job w Hdir).
Defined.

Lemma postprocess_rechecks_state_witness :
  let job := Sample.with_handler "/bin/fix --quiet"
               (Sample.job "a" RUN_ERROR []) in
  let w := Sample.world ["/bin/fix"; "/work/a"] [("a", RUN_ERROR)] in
  ∃ msg, (Sample.postprocess true false (w, job)).2
         = inl (BalsamTransitionError msg).
Proof.
  intros job w.
  refine (proj1 (proj2
    (postprocess_rechecks_state Sample.get_envs Sample.transfer
       Sample.run_subprocess Sample.proc_kill Sample.get_tail
       job w _ _ true false "/bin/fix --quiet" "/bin/fix" ["--quiet"] RUN_ERROR
       eq_refl _ eq_refl _ eq_refl eq_refl _)) eq_refl eq_refl);
    vm_compute; reflexivity.
Defined.

(** C1 fails on the code: for a job in RUN_DONE with no postprocess
    command, [postprocess] in neither handling mode returns without error,
    but the value it leaves in [job.state] is the one-element tuple
    [('POSTPROCESSED',)], not the state POSTPROCESSED. *)
Theorem postprocess_stores_tuple (w : World) :
  let job := Sample.job "a" RUN_DONE [] in
  let r := Sample.postprocess false false (w, job) in
  r.2 = inr ()
  ∧ state r.1.2 = PyTuple ["POSTPROCESSED"]
  ∧ state r.1.2 ≠ POSTPROCESSED.
Proof.
  intros job r. subst r. unfold Sample.postprocess.
  rewrite postprocess_no_command by reflexivity.
  cbn [fst snd state set_state]. split; [reflexivity|].
  split; [reflexivity | discriminate].
Qed.

(** ** The transition pass of the worker *)

Section PassFacts.

Context {env : Type}.
Variable get_envs : BalsamJob → bool → bool → env.
Variable transfer_stage_in : string → string → World → World * option string.
Variable transfer_stage_out : string → string → World → World * option string.
Variable glob_glob : string → World → list string.
Variable os_symlink : string → string → World → World * option string.
Variable shutil_copyfile : string → string → World → World * option string.
Variable tempdir_enter : World → World * string.
Variable tempdir_exit : string → World → World.
Variable open_write : string → string → World → World * option string.
Variable run_subprocess :
  list string → env → string → Z → World → World * proc_outcome.
Variable proc_kill : World → World.
Variable get_tail : string → option nat → World → string.
Variable parent_workdirs : BalsamJob → World → list (string * string).
Variable print_exc : exn → string.

Local Abbreviation lookup_transition :=
  (TRANSITIONS get_envs transfer_stage_in transfer_stage_out glob_glob
     os_symlink shutil_copyfile tempdir_enter tempdir_exit open_write
     run_subprocess proc_kill get_tail parent_workdirs).
Local Abbreviation run_pass :=
  (transition_pass get_envs transfer_stage_in transfer_stage_out glob_glob
     os_symlink shutil_copyfile tempdir_enter tempdir_exit open_write
     run_subprocess proc_kill get_tail parent_workdirs print_exc).

(** A pass that came through a first part of the cache with the stop
    flag down goes on with the rest. *)
Lemma transition_pass_app (pre post pre' : list BalsamJob) (w w0 : World) :
  run_pass pre w = (w0, pre', None) →
  EXIT_FLAG w0 = false →
  run_pass (pre ++ post) w
  = let '(w1, post', e) := run_pass post w0 in (w1, pre' ++ post', e).
Proof.
  revert pre' w. induction pre as [|job rest IH]; intros pre' w Hpre Hflag.
  - cbn [transition_pass] in Hpre. injection Hpre as <- <-.
    cbn [app]. destruct (run_pass post w) as [[w1 post'] e]. reflexivity.
  - cbn [app transition_pass] in Hpre |- *.
    destruct (lookup_transition (state job)) as [f|]; [|discriminate Hpre].
    destruct (f (w, job)) as [s1 [e|u]].
    + destruct e; try discriminate Hpre.
      destruct (mark_failed print_exc msg s1) as [w2 job2].
      destruct (EXIT_FLAG w2) eqn:E2.
      * injection Hpre as <- <-. congruence.
      * specialize (IH (match run_pass rest w2 with (_, r, _) => r end) w2).
        destruct (run_pass rest w2) as [[w3 rest'] e].
        injection Hpre as <- <- ->. rewrite (IH eq_refl Hflag).
        destruct (run_pass post w3) as [[w4 post'] e']. reflexivity.
    + destruct (EXIT_FLAG s1.1) eqn:E1.
      * injection Hpre as <- <-. congruence.
      * specialize (IH (match run_pass rest s1.1 with (_, r, _) => r end)
                       s1.1).
        destruct (run_pass rest s1.1) as [[w3 rest'] e].
        injection Hpre as <- <- ->. rewrite (IH eq_refl Hflag).
        destruct (run_pass post w3) as [[w4 post'] e']. reflexivity.
Qed.

(** After a job whose transition function returned, the pass looks at
    the stop flag and, the flag being down, goes on with the next job. *)
Lemma transition_pass_after_success (pre post pre' : list BalsamJob)
    (job : BalsamJob) (w w0 : World) (f : Tr unit)
    (s1 : World * BalsamJob) :
  run_pass pre w = (w0, pre', None) →
  EXIT_FLAG w0 = false →
  lookup_transition (state job) = Some f →
  f (w0, job) = (s1, inr ()) →
  run_pass (pre ++ job :: post) w
  = if EXIT_FLAG s1.1 then (s1.1, pre' ++ s1.2 :: post, None)
    else let '(w3, post', e) := run_pass post s1.1 in
         (w3, pre' ++ s1.2 :: post', e).
Proof.
  intros Hpre Hflag Hf Hrun.
  rewrite (transition_pass_app pre (job :: post) pre' w w0 Hpre Hflag).
  cbn [transition_pass]. rewrite Hf, Hrun.
  destruct (EXIT_FLAG s1.1); [reflexivity|].
  destruct (run_pass post s1.1) as [[w3 post'] e]. reflexivity.
Qed.

(** C3: in the transition pass, when the pass reaches a job (it is the
    first of the cache, or the jobs before it were passed with no
    exception and the stop flag down) and the transition function of that
    job raises a transition error, the job is set to FAILED and two error
    records are logged, the first with the traceback; no exception leaves
    the pass on account of this job.  The loop then tests the stop flag:
    when the flag is down the pass runs over the jobs that follow, and
    when the flag is up the pass ends there and the jobs that follow are
    handed on unprocessed.  The jobs before the failing one keep what the
    pass did to them, and the failure changes nothing of the world but
    the log. *)
Theorem transition_pass_isolates_failure (pre post pre' : list BalsamJob)
    (job : BalsamJob) (w w0 : World) (f : Tr unit)
    (s1 : World * BalsamJob) (msg : string) :
  run_pass pre w = (w0, pre', None) →
  pre = [] ∨ EXIT_FLAG w0 = false →
  lookup_transition (state job) = Some f →
  f (w0, job) = (s1, inl (BalsamTransitionError msg)) →
  let failed := mark_failed print_exc msg s1 in
  state failed.2 = FAILED
  ∧ pk failed.2 = pk s1.2
  ∧ log failed.1
    = log s1.1
      ++ [(ERROR, cute_id s1.2 +:+ " BalsamTransitionError:" +:+ newline
                  +:+ print_exc (BalsamTransitionError msg) +:+ newline);
          (ERROR, "Marking " +:+ cute_id s1.2 +:+ " as FAILED")]
  ∧ fs failed.1 = fs s1.1 ∧ db failed.1 = db s1.1
  ∧ store_calls failed.1 = store_calls s1.1
  ∧ EXIT_FLAG failed.1 = EXIT_FLAG s1.1
  ∧ run_pass (pre ++ job :: post) w
    = if EXIT_FLAG s1.1 then (failed.1, pre' ++ failed.2 :: post, None)
      else let '(w3, post', e) := run_pass post failed.1 in
           (w3, pre' ++ failed.2 :: post', e).
Proof.
  intros Hpre Hreach Hf Hrun failed.
  split; [reflexivity|]. split; [reflexivity|].
  split. { subst failed. unfold mark_failed. cbn [fst snd log logger].
           rewrite <- app_assoc. reflexivity. }
  split; [reflexivity|]. split; [reflexivity|]. split; [reflexivity|].
  split; [reflexivity|].
  assert (Happ : run_pass (pre ++ job :: post) w
                 = let '(w1, post', e) := run_pass (job :: post) w0 in
                   (w1, pre' ++ post', e)).
  { destruct Hreach as [-> | Hflag].
    - cbn [transition_pass] in Hpre. injection Hpre as <- <-.
      cbn [app]. destruct (run_pass (job :: post) w) as [[w1 post'] e].
      reflexivity.
    - exact (transition_pass_app pre (job :: post) pre' w w0 Hpre Hflag). }
  rewrite Happ. cbn [transition_pass]. rewrite Hf, Hrun.
  assert (E2 : EXIT_FLAG failed.1 = EXIT_FLAG s1.1) by reflexivity.
  fold failed. destruct failed as [w2 job2]. cbn [fst snd] in E2 |- *.
  rewrite E2. destruct (EXIT_FLAG s1.1); [reflexivity|].
  destruct (run_pass post w2) as [[w3 post'] e]. reflexivity.
Qed.

End PassFacts.

Lemma transition_pass_isolates_failure_witness :
  let job := Sample.job "e" RUN_ERROR [] in
  let next := Sample.job "t" RUN_TIMEOUT [] in
  let w := Sample.world [] [("e", RUN_ERROR); ("t", RUN_TIMEOUT)] in
  let failed :=
    mark_failed Sample.print_exc "No error handler: run failed" (w, job) in
  state failed.2 = FAILED
  ∧ pk failed.2 = "e"
  ∧ log failed.1
    = [(ERROR,
        "[e] BalsamTransitionError:" +:+ newline
        +:+ Sample.print_exc
              (BalsamTransitionError "No error handler: run failed")
        +:+ newline);
       (ERROR, "Marking [e] as FAILED")]
  ∧ fs failed.1 = fs w ∧ db failed.1 = db w
  ∧ store_calls failed.1 = store_calls w
  ∧ EXIT_FLAG failed.1 = false
  ∧ Sample.transition_pass ([] ++ job :: [next]) w
    = if false then (failed.1, [] ++ failed.2 :: [next], None)
      else let '(w3, post', e) := Sample.transition_pass [next] failed.1 in
           (w3, [] ++ failed.2 :: post', e).
Proof.
  intros job next w failed.
  exact (transition_pass_isolates_failure Sample.get_envs Sample.transfer
           Sample.transfer Sample.glob_glob Sample.transfer Sample.transfer
           Sample.tempdir_enter Sample.tempdir_exit Sample.transfer
           Sample.run_subprocess Sample.proc_kill Sample.get_tail
           Sample.parent_workdirs Sample.print_exc [] [next] [] job w w
           Sample.handle_run_error (w, job) "No error handler: run failed"
           eq_refl (or_introl eq_refl) eq_refl eq_refl).
Defined.

(** C3 as stated fails: the pass does not always continue with the
    remaining jobs.  A signal that arrives while the stage-in transfer of
    job [a] is under way sets the stop flag and makes the transfer fail;
    [stage_in] raises a transition error, [a] is marked FAILED, and the
    loop, finding the flag up, ends: job [b], whose transition function
    would have run next, is handed on unprocessed, and no exception
    leaves the pass. *)
Lemma transition_pass_stops_after_failure :
  let a := Sample.with_stage_in "/remote/in" (Sample.job "a" READY []) in
  let b := Sample.job "b" RUN_ERROR [] in
  let w := Sample.world ["/work/a"] [("a", READY); ("b", RUN_ERROR)] in
  let r := Sample.interrupted_pass [a; b] w in
  (∃ f s1,
      Sample.interrupted_transitions (state a) = Some f
      ∧ f (w, a)
        = (s1, inl (BalsamTransitionError
                      "Exception received during stage_in: interrupted")))
  ∧ r.2 = None
  ∧ state <$> r.1.2 = [FAILED; RUN_ERROR]
  ∧ r.1.2 !! 1 = Some b
  ∧ state <$> (Sample.interrupted_pass [b] w).1.2 = [FAILED]
  ∧ ¬ (∀ (job : BalsamJob) (post : list BalsamJob) (w0 : World)
         (f : Tr unit) (s1 : World * BalsamJob) (msg : string),
         Sample.interrupted_transitions (state job) = Some f →
         f (w0, job) = (s1, inl (BalsamTransitionError msg)) →
         Sample.interrupted_pass (job :: post) w0
         = let failed := mark_failed Sample.print_exc msg s1 in
           let '(w3, post', e) := Sample.interrupted_pass post failed.1 in
           (w3, failed.2 :: post', e)).
Proof.
  intros a b w r.
  split. { eexists _, _. split; vm_compute; reflexivity. }
  split; [vm_compute; reflexivity|].
  split; [vm_compute; reflexivity|].
  split; [vm_compute; reflexivity|].
  split; [vm_compute; reflexivity|].
  intros H.
  specialize (H a [b] w
                (stage_in Sample.interrupted_transfer Sample.glob_glob
                   Sample.transfer Sample.parent_workdirs)
                ((Sample.interrupted_transfer "" ""
                    (logger INFO "[a] transfer in from /remote/in"
                       (logger DEBUG "[a] in stage_in" w))).1, a)
                "Exception received during stage_in: interrupted").
  specialize (H ltac:(vm_compute; reflexivity) ltac:(vm_compute; reflexivity)).
  vm_compute in H. discriminate H.
Qed.

(** ** The worker's share of the jobs *)

(** What the store asks of [acquire_transitionable] bounds the growth of
    the cache: the worker acquires at most the target minus the current
    cache size additional jobs. *)
Lemma refresh_cache_acquires_at_most (PROCESSABLE_STATES : list string)
    (acquire_transitionable : Z → World → World * list BalsamJob)
    (job_cache : list BalsamJob) (num_threads target : Z) (w : World) :
  (∀ n w0, Z.of_nat (length (acquire_transitionable n w0).2) ≤ Z.max 0 n)%Z →
  target_count
    (Z.of_nat (size (filter (λ kv, processable PROCESSABLE_STATES kv.2 = true)
                       (db w)))) num_threads = inr target →
  (Z.of_nat (length (refresh_cache PROCESSABLE_STATES acquire_transitionable
                       job_cache num_threads w).1.2)
   ≤ Z.of_nat (length job_cache)
     + Z.max 0 (target - Z.of_nat (length job_cache)))%Z.
Proof.
  intros Hacq Htarget. unfold refresh_cache. cbv zeta. rewrite Htarget.
  set (n := Z.max 0 (target - Z.of_nat (length job_cache))).
  specialize (Hacq n (with_call (AcquireTransitionable n) w)).
  destruct (acquire_transitionable n _) as [w1 acquired].
  cbn [fst snd] in *. rewrite length_fmap, length_app. lia.
Qed.

(** The target for one worker and for two, for 0 to 5 transitionable
    jobs: the ceiling of the quotient except where the quotient is an odd
    integer. *)
Example target_count_table :
  (λ n, target_count n 1) <$> [0; 1; 2; 3; 4; 5]%Z
  = inr <$> [0; 2; 2; 4; 4; 6]%Z
  ∧ (λ n, target_count n 2) <$> [0; 1; 2; 3; 4; 5]%Z
    = inr <$> [0; 1; 2; 2; 2; 3]%Z
  ∧ (λ n, fair_share_spec n 2) <$> [0; 1; 2; 3; 4; 5]%Z
    = [0; 1; 1; 2; 2; 3]%Z.
Proof. vm_compute. repeat split; reflexivity. Qed.

(** C5 fails on the code: with three transitionable jobs and three
    workers the target is [round(1.0 + 0.5) = 2], not [ceil(3 / 3) = 1],
    and a worker with an empty cache asks the store for two jobs and
    takes two. *)
Theorem refresh_cache_target_exceeds_fair_share :
  let pool := [Sample.job "a" READY []; Sample.job "b" READY [];
               Sample.job "c" READY []] in
  let w := Sample.world [] [("a", READY); ("b", READY); ("c", READY)] in
  let r := refresh_cache Sample.PROCESSABLE_STATES (Sample.acquire pool)
             [] 3 w in
  target_count 3 3 = inr 2%Z
  ∧ fair_share_spec 3 3 = 1%Z
  ∧ store_calls r.1.1 = [AcquireTransitionable 2]
  ∧ length r.1.2 = 2.
Proof.
  intros pool w r.
  split; [vm_compute; reflexivity|]. split; [reflexivity|].
  split; vm_compute; reflexivity.
Qed.

(** * Further properties of the engine *)

(** ** The skip rules of fast-forward, one by one *)

(** What a pass does to the job at a place of the cache is what [ff_job]
    does to it. *)
Lemma fast_forward_at (job_cache : list BalsamJob) (w : World) (i : nat)
    (j : BalsamJob) (st : pyval) :
  job_cache !! i = Some j →
  state (ff_job w j) = st →
  ∃ j', (fast_forward job_cache w).1.2 !! i = Some j'
        ∧ pk j' = pk j ∧ state j' = st.
Proof.
  intros Hi Hst.
  destruct (fast_forward_state job_cache w i j Hi)
    as (j' & Hj' & Hs & _ & Hk).
  exists j'. split; [exact Hj'|]. split; [exact Hk|]. congruence.
Qed.

(** Close the branches of a case analysis that contradict the given
    facts about the configuration of the job. *)
Ltac ff_contradict H1 H2 H3 :=
  exfalso;
  repeat match goal with
         | E : _ = _ |- _ =>
             rewrite ?H1, ?H2, ?H3 in E;
             cbn [andb orb negb truthy list_truthy] in E;
             first [discriminate E | clear E]
         end.

(** Close the branches in which two splits on the same test disagree. *)
Ltac ff_clash :=
  exfalso;
  match goal with
  | E : ?b = _, E' : context [?b] |- _ =>
      rewrite E in E'; cbn [andb orb negb] in E'; discriminate E'
  end.

Lemma ff_job_staged_in (w : World) (j : BalsamJob) :
  state j = STAGED_IN → truthy (preprocess_cmd j) = false →
  state (ff_job w j) = PREPROCESSED.
Proof.
  destruct j as [k cid st old wd ps wait inp url_in outf url_out pre post
                 eh th retry].
  cbn [state preprocess_cmd]. intros -> Hpre. unfold ff_job.
  repeat ff_stage; try reflexivity; ff_contradict Hpre Hpre Hpre.
Qed.

(** For every job with no preprocess command, a fast-forward pass moves
    it from STAGED_IN to PREPROCESSED. *)
Theorem fast_forward_skips_preprocess (job_cache : list BalsamJob)
    (w : World) (i : nat) (j : BalsamJob) :
  job_cache !! i = Some j →
  state j = STAGED_IN →
  truthy (preprocess_cmd j) = false →
  ∃ j', (fast_forward job_cache w).1.2 !! i = Some j'
        ∧ pk j' = pk j ∧ state j' = PREPROCESSED.
Proof.
  intros Hi Hst Hpre. apply fast_forward_at; [exact Hi|].
  by apply ff_job_staged_in.
Qed.

Lemma fast_forward_skips_preprocess_witness :
  ∃ j', (fast_forward [Sample.job "a" STAGED_IN []]
           (Sample.world [] [("a", STAGED_IN)])).1.2 !! 0 = Some j'
        ∧ pk j' = "a" ∧ state j' = PREPROCESSED.
Proof.
  apply (fast_forward_skips_preprocess [Sample.job "a" STAGED_IN []]
           (Sample.world [] [("a", STAGED_IN)]) 0
           (Sample.job "a" STAGED_IN [])); reflexivity.
Defined.

Lemma ff_job_timeout_retry (w : World) (j : BalsamJob) :
  state j = RUN_TIMEOUT → auto_timeout_retry j = true →
  post_timeout_handler j = false →
  state (ff_job w j) = RESTART_READY.
Proof.
  destruct j as [k cid st old wd ps wait inp url_in outf url_out pre post
                 eh th retry].
  cbn [state auto_timeout_retry post_timeout_handler]. intros -> -> ->.
  unfold ff_job. repeat ff_stage; reflexivity.
Qed.

(** For every job with auto_timeout_retry set and no time-out handler, a
    fast-forward pass moves it from RUN_TIMEOUT to RESTART_READY. *)
Theorem fast_forward_retries_timeout (job_cache : list BalsamJob)
    (w : World) (i : nat) (j : BalsamJob) :
  job_cache !! i = Some j →
  state j = RUN_TIMEOUT →
  auto_timeout_retry j = true →
  post_timeout_handler j = false →
  ∃ j', (fast_forward job_cache w).1.2 !! i = Some j'
        ∧ pk j' = pk j ∧ state j' = RESTART_READY.
Proof.
  intros Hi Hst Hretry Hth. apply fast_forward_at; [exact Hi|].
  by apply ff_job_timeout_retry.
Qed.

Lemma fast_forward_retries_timeout_witness :
  ∃ j', (fast_forward [Sample.retrying (Sample.job "a" RUN_TIMEOUT [])]
           (Sample.world [] [("a", RUN_TIMEOUT)])).1.2 !! 0 = Some j'
        ∧ pk j' = "a" ∧ state j' = RESTART_READY.
Proof.
  apply (fast_forward_retries_timeout
           [Sample.retrying (Sample.job "a" RUN_TIMEOUT [])]
           (Sample.world [] [("a", RUN_TIMEOUT)]) 0
           (Sample.retrying (Sample.job "a" RUN_TIMEOUT []))); reflexivity.
Defined.

Lemma ff_job_timeout_fail (w : World) (j : BalsamJob) :
  state j = RUN_TIMEOUT → auto_timeout_retry j = false →
  truthy (postprocess_cmd j) && post_timeout_handler j = false →
  state (ff_job w j) = FAILED.
Proof.
  destruct j as [k cid st old wd ps wait inp url_in outf url_out pre post
                 eh th retry].
  cbn [state auto_timeout_retry post_timeout_handler postprocess_cmd].
  intros -> -> Hh. unfold ff_job.
  repeat ff_stage; try reflexivity; ff_contradict Hh Hh Hh.
Qed.

(** A job in RUN_TIMEOUT that is not retried automatically and has no
    postprocess command flagged as time-out handler is FAILED by a
    fast-forward pass. *)
Theorem fast_forward_fails_timeout (job_cache : list BalsamJob)
    (w : World) (i : nat) (j : BalsamJob) :
  job_cache !! i = Some j →
  state j = RUN_TIMEOUT →
  auto_timeout_retry j = false →
  truthy (postprocess_cmd j) && post_timeout_handler j = false →
  ∃ j', (fast_forward job_cache w).1.2 !! i = Some j'
        ∧ pk j' = pk j ∧ state j' = FAILED.
Proof.
  intros Hi Hst Hretry Hh. apply fast_forward_at; [exact Hi|].
  by apply ff_job_timeout_fail.
Qed.

Lemma fast_forward_fails_timeout_witness :
  ∃ j', (fast_forward [Sample.job "a" RUN_TIMEOUT []]
           (Sample.world [] [("a", RUN_TIMEOUT)])).1.2 !! 0 = Some j'
        ∧ pk j' = "a" ∧ state j' = FAILED.
Proof.
  apply (fast_forward_fails_timeout [Sample.job "a" RUN_TIMEOUT []]
           (Sample.world [] [("a", RUN_TIMEOUT)]) 0
           (Sample.job "a" RUN_TIMEOUT [])); reflexivity.
Defined.

Lemma ff_job_timeout_kept (w : World) (j : BalsamJob) :
  state j = RUN_TIMEOUT →
  post_timeout_handler j = true →
  auto_timeout_retry j = true ∨ truthy (postprocess_cmd j) = true →
  state (ff_job w j) = RUN_TIMEOUT.
Proof.
  destruct j as [k cid st old wd ps wait inp url_in outf url_out pre post
                 eh th retry].
  cbn [state auto_timeout_retry post_timeout_handler postprocess_cmd].
  intros -> -> [->|Hpost]; [|destruct retry]; unfold ff_job;
    repeat ff_stage; try reflexivity; ff_contradict Hpost Hpost Hpost.
Qed.

(** A job in RUN_TIMEOUT whose time-out handler flag is set stays in
    RUN_TIMEOUT through a fast-forward pass (it is left to
    [handle_timeout]) when it is retried automatically or has a
    postprocess command. *)
Theorem fast_forward_leaves_handled_timeout (job_cache : list BalsamJob)
    (w : World) (i : nat) (j : BalsamJob) :
  job_cache !! i = Some j →
  state j = RUN_TIMEOUT →
  post_timeout_handler j = true →
  auto_timeout_retry j = true ∨ truthy (postprocess_cmd j) = true →
  ∃ j', (fast_forward job_cache w).1.2 !! i = Some j'
        ∧ pk j' = pk j ∧ state j' = RUN_TIMEOUT.
Proof.
  intros Hi Hst Hth Hor. apply fast_forward_at; [exact Hi|].
  by apply ff_job_timeout_kept.
Qed.

Lemma fast_forward_leaves_handled_timeout_witness :
  ∃ j', (fast_forward
           [Sample.with_handler "post.sh" (Sample.job "a" RUN_TIMEOUT [])]
           (Sample.world [] [("a", RUN_TIMEOUT)])).1.2 !! 0 = Some j'
        ∧ pk j' = "a" ∧ state j' = RUN_TIMEOUT.
Proof.
  apply (fast_forward_leaves_handled_timeout
           [Sample.with_handler "post.sh" (Sample.job "a" RUN_TIMEOUT [])]
           (Sample.world [] [("a", RUN_TIMEOUT)]) 0
           (Sample.with_handler "post.sh" (Sample.job "a" RUN_TIMEOUT [])));
    [reflexivity | reflexivity | reflexivity | right; reflexivity].
Defined.

Lemma ff_job_run_error (w : World) (j : BalsamJob) :
  state j = RUN_ERROR →
  state (ff_job w j)
  = if post_error_handler j && truthy (postprocess_cmd j)
    then RUN_ERROR else FAILED.
Proof.
  destruct j as [k cid st old wd ps wait inp url_in outf url_out pre post
                 eh th retry].
  cbn [state post_error_handler postprocess_cmd]. intros ->.
  unfold ff_job. repeat ff_stage; try reflexivity; ff_clash.
Qed.

(** A job in RUN_ERROR is FAILED by a fast-forward pass unless it has
    both the error-handler flag and a postprocess command, in which case
    the pass leaves it in RUN_ERROR. *)
Theorem fast_forward_run_error (job_cache : list BalsamJob)
    (w : World) (i : nat) (j : BalsamJob) :
  job_cache !! i = Some j →
  state j = RUN_ERROR →
  ∃ j', (fast_forward job_cache w).1.2 !! i = Some j'
        ∧ pk j' = pk j
        ∧ state j' = if post_error_handler j && truthy (postprocess_cmd j)
                     then RUN_ERROR else FAILED.
Proof.
  intros Hi Hst. apply fast_forward_at; [exact Hi|].
  by apply ff_job_run_error.
Qed.

Lemma fast_forward_run_error_witness :
  ∃ j', (fast_forward [Sample.job "a" RUN_ERROR []]
           (Sample.world [] [("a", RUN_ERROR)])).1.2 !! 0 = Some j'
        ∧ pk j' = "a" ∧ state j' = FAILED.
Proof.
  apply (fast_forward_run_error [Sample.job "a" RUN_ERROR []]
           (Sample.world [] [("a", RUN_ERROR)]) 0
           (Sample.job "a" RUN_ERROR [])); reflexivity.
Defined.

Lemma ff_job_run_done (w : World) (j : BalsamJob) :
  state j = RUN_DONE → truthy (postprocess_cmd j) = false →
  state (ff_job w j)
  = if truthy (stage_out_url j) && truthy (stage_out_files j)
    then POSTPROCESSED else JOB_FINISHED.
Proof.
  destruct j as [k cid st old wd ps wait inp url_in outf url_out pre post
                 eh th retry].
  cbn [state stage_out_url stage_out_files postprocess_cmd]. intros -> Hpost.
  unfold ff_job.
  repeat ff_stage; try reflexivity;
    first [ff_clash | ff_contradict Hpost Hpost Hpost].
Qed.

(** A job in RUN_DONE with no postprocess command goes, in one
    fast-forward pass, to JOB_FINISHED when it has no stage-out URL or no
    stage-out patterns (the postprocess skip and the stage-out skip both
    apply in the same pass), and to POSTPROCESSED otherwise. *)
Theorem fast_forward_run_done (job_cache : list BalsamJob)
    (w : World) (i : nat) (j : BalsamJob) :
  job_cache !! i = Some j →
  state j = RUN_DONE →
  truthy (postprocess_cmd j) = false →
  ∃ j', (fast_forward job_cache w).1.2 !! i = Some j'
        ∧ pk j' = pk j
        ∧ state j' = if truthy (stage_out_url j) && truthy (stage_out_files j)
                     then POSTPROCESSED else JOB_FINISHED.
Proof.
  intros Hi Hst Hpost. apply fast_forward_at; [exact Hi|].
  by apply ff_job_run_done.
Qed.

Lemma fast_forward_run_done_witness :
  ∃ j', (fast_forward [Sample.job "a" RUN_DONE []]
           (Sample.world [] [("a", RUN_DONE)])).1.2 !! 0 = Some j'
        ∧ pk j' = "a" ∧ state j' = JOB_FINISHED.
Proof.
  apply (fast_forward_run_done [Sample.job "a" RUN_DONE []]
           (Sample.world [] [("a", RUN_DONE)]) 0
           (Sample.job "a" RUN_DONE [])); reflexivity.
Defined.

Lemma ff_job_created (w : World) (j : BalsamJob) :
  state j = CREATED ∨ state j = AWAITING_PARENTS →
  parents j = [] →
  truthy (stage_in_url j) = false → truthy (preprocess_cmd j) = false →
  state (ff_job w j) = PREPROCESSED.
Proof.
  destruct j as [k cid st old wd ps wait inp url_in outf url_out pre post
                 eh th retry].
  cbn [state parents stage_in_url preprocess_cmd].
  intros Hst -> Hurl Hpre. unfold ff_job.
  destruct Hst as [->| ->];
    repeat ff_stage; try reflexivity; ff_contradict Hurl Hpre Hpre.
Qed.

(** A job in CREATED or AWAITING_PARENTS with no parents, no stage-in
    URL and no preprocess command is PREPROCESSED after one fast-forward
    pass: the dependency check, the stage-in skip and the preprocess skip
    all act on it within the pass. *)
Theorem fast_forward_created_to_preprocessed (job_cache : list BalsamJob)
    (w : World) (i : nat) (j : BalsamJob) :
  job_cache !! i = Some j →
  state j = CREATED ∨ state j = AWAITING_PARENTS →
  parents j = [] →
  truthy (stage_in_url j) = false →
  truthy (preprocess_cmd j) = false →
  ∃ j', (fast_forward job_cache w).1.2 !! i = Some j'
        ∧ pk j' = pk j ∧ state j' = PREPROCESSED.
Proof.
  intros Hi Hst Hps Hurl Hpre. apply fast_forward_at; [exact Hi|].
  by apply ff_job_created.
Qed.

Lemma fast_forward_created_to_preprocessed_witness :
  ∃ j', (fast_forward [Sample.job "a" CREATED []]
           (Sample.world [] [("a", CREATED)])).1.2 !! 0 = Some j'
        ∧ pk j' = "a" ∧ state j' = PREPROCESSED.
Proof.
  apply (fast_forward_created_to_preprocessed [Sample.job "a" CREATED []]
           (Sample.world [] [("a", CREATED)]) 0
           (Sample.job "a" CREATED []));
    [reflexivity | left; reflexivity | reflexivity | reflexivity
    | reflexivity].
Defined.

(** ** What a fast-forward pass leaves behind *)

(** After a fast-forward pass every job of the cache is settled: none is
    in state CREATED and none meets the condition of a skip loop, so that
    only the dependency check can act on the cache in a further pass. *)
Theorem fast_forward_settles (job_cache : list BalsamJob) (w : World) :
  Forall (λ j, settled j = true) (fast_forward job_cache w).1.2.
Proof.
  apply Forall_lookup. intros i j' Hj'.
  assert (Hlt : i < length job_cache).
  { rewrite <- (fast_forward_length job_cache w).
    by apply lookup_lt_Some with j'. }
  destruct (lookup_lt_is_Some_2 job_cache i Hlt) as [j Hj].
  destruct (fast_forward_state job_cache w i j Hj) as (j2 & Hj2 & _ & Hs & _).
  congruence.
Qed.

(** A fast-forward pass keeps the jobs of the cache in their places: the
    keys of the cache after the pass are the keys before it, in the same
    order. *)
Theorem fast_forward_keeps_keys (job_cache : list BalsamJob) (w : World) :
  pk <$> (fast_forward job_cache w).1.2 = pk <$> job_cache.
Proof.
  apply list_eq. intros i. rewrite !list_lookup_fmap.
  destruct (job_cache !! i) as [j|] eqn:Ej.
  - destruct (fast_forward_state job_cache w i j Ej)
      as (j' & Hj' & _ & _ & Hk).
    rewrite Hj'. cbn [fmap option_fmap option_map]. by rewrite Hk.
  - assert (Hnone : (fast_forward job_cache w).1.2 !! i = None).
    { apply lookup_ge_None. rewrite fast_forward_length.
      by apply lookup_ge_None. }
    by rewrite Hnone.
Qed.

(** *** The working directories *)

Lemma for_each_assign_world cond v (c : list BalsamJob) (w : World) :
  (for_each cond (assign_state v) c w).1 = w.
Proof.
  revert w. induction c as [|j c IH]; intros w; [reflexivity|].
  cbn [for_each]. unfold assign_state at 1.
  destruct (cond j); specialize (IH w);
    destruct (for_each cond (assign_state v) c w) as [w2 c']; exact IH.
Qed.

Lemma for_each_check_fs (c : list BalsamJob) (w : World) :
  fs (for_each is_check_job check_parents c w).1 = fs w.
Proof.
  revert w. induction c as [|j c IH]; intros w; [reflexivity|].
  cbn [for_each].
  assert (Hcp : fs (check_parents j w).1 = fs w).
  { unfold check_parents. cbv zeta.
    repeat match goal with |- context [if ?b then _ else _] => destruct b end;
      reflexivity. }
  destruct (is_check_job j).
  - destruct (check_parents j w) as [w1 j1]. cbn [fst] in Hcp.
    specialize (IH w1). destruct (for_each _ _ c w1) as [w2 c'].
    cbn [fst] in *. congruence.
  - specialize (IH w). destruct (for_each _ _ c w) as [w2 c']. exact IH.
Qed.

Lemma skip_stage_in_fs (j : BalsamJob) (w : World) :
  working_directory j ∈ fs (skip_stage_in j w).1
  ∧ fs w ⊆ fs (skip_stage_in j w).1.
Proof.
  unfold skip_stage_in, os_path_exists. cbv zeta.
  case_bool_decide as Hin; cbn [negb];
    destruct (negb (truthy (stage_in_url j)) && _); cbn [fst];
    cbn [fs logger os_makedirs with_fs]; set_solver.
Qed.

Lemma for_each_skip_fs_mono (c : list BalsamJob) (w : World) :
  fs w ⊆ fs (for_each (state_is READY) skip_stage_in c w).1.
Proof.
  revert w. induction c as [|j c IH]; intros w; [reflexivity|].
  cbn [for_each]. destruct (state_is READY j).
  - pose proof (skip_stage_in_fs j w) as [_ Hm].
    destruct (skip_stage_in j w) as [w1 j1]. cbn [fst] in Hm.
    specialize (IH w1). destruct (for_each _ _ c w1) as [w2 c'].
    cbn [fst] in *. set_solver.
  - specialize (IH w). destruct (for_each _ _ c w) as [w2 c']. exact IH.
Qed.

Lemma for_each_skip_fs_dir (c : list BalsamJob) (w : World) (i : nat)
    (j : BalsamJob) :
  c !! i = Some j → state j = READY →
  working_directory j ∈ fs (for_each (state_is READY) skip_stage_in c w).1.
Proof.
  revert w i. induction c as [|x c IH]; intros w i Hi Hst; [done|].
  cbn [for_each]. destruct i as [|i].
  - injection Hi as ->. unfold state_is. rewrite Hst.
    rewrite (bool_decide_eq_true_2 (READY = READY) eq_refl).
    pose proof (skip_stage_in_fs j w) as [Hd _].
    destruct (skip_stage_in j w) as [w1 j1]. cbn [fst] in Hd.
    pose proof (for_each_skip_fs_mono c w1) as Hm.
    destruct (for_each _ _ c w1) as [w2 c']. cbn [fst] in *. set_solver.
  - cbn [lookup list_lookup] in Hi.
    destruct (state_is READY x).
    + destruct (skip_stage_in x w) as [w1 j1].
      specialize (IH w1 i Hi Hst). destruct (for_each _ _ c w1) as [w2 c'].
      exact IH.
    + specialize (IH w i Hi Hst). destruct (for_each _ _ c w) as [w2 c'].
      exact IH.
Qed.

Lemma write_groups_fs u w : fs (write_groups u w) = fs w.
Proof.
  unfold write_groups. revert w.
  induction u as [|g u IH]; intros w; cbn [foldl]; [reflexivity|].
  by rewrite IH.
Qed.

Lemma update_states_fs (c : list BalsamJob) (w : World) :
  fs (update_states_from_cache c w).1.1 = fs w.
Proof.
  unfold update_states_from_cache.
  destruct (scan_cache c []) as [c' [e|u]]; [reflexivity|].
  destruct (negb (truthy u)); [reflexivity|].
  cbn [fst fs with_call]. by rewrite write_groups_fs.
Qed.

(** The files of the world after a pass are those after its stage-in
    loop. *)
Lemma fast_forward_fs (job_cache : list BalsamJob) (w : World) :
  let r1 := for_each is_check_job check_parents job_cache w in
  fs (fast_forward job_cache w).1.1
  = fs (for_each (state_is READY) skip_stage_in r1.2 r1.1).1.
Proof.
  intros r1. unfold fast_forward. fold r1.
  destruct r1 as [w1 c1]. cbn [fst snd].
  destruct (for_each (state_is READY) skip_stage_in c1 w1) as [w2 c2].
  cbn [fst].
  repeat match goal with
  | |- context [for_each ?cond (assign_state ?v) ?c ?w0] =>
      let H := fresh in
      pose proof (for_each_assign_world cond v c w0) as H;
      destruct (for_each cond (assign_state v) c w0) as [? ?];
      cbn [fst] in H; subst
  end.
  apply update_states_fs.
Qed.

(** A fast-forward pass makes sure the working directory exists of every
    job that is READY when the pass starts or that its dependency check
    makes READY, and it removes no path. *)
Theorem fast_forward_makes_workdir (job_cache : list BalsamJob) (w : World)
    (i : nat) (j : BalsamJob) :
  job_cache !! i = Some j →
  state j = READY
  ∨ (is_check_job j = true ∧ state (check_parents j w).2 = READY) →
  os_path_exists (working_directory j) (fast_forward job_cache w).1.1 = true
  ∧ fs w ⊆ fs (fast_forward job_cache w).1.1.
Proof.
  intros Hi Hst. unfold os_path_exists. rewrite fast_forward_fs. cbv zeta.
  destruct (for_each_jobs is_check_job check_parents
              (λ j, (check_parents j w).2) (db w)
              (λ j w0 H, check_parents_job j w0 w H) check_parents_db
              job_cache w eq_refl) as [E1 _].
  pose proof (for_each_check_fs job_cache w) as F1.
  destruct (for_each is_check_job check_parents job_cache w) as [w1 c1].
  cbn [fst snd] in *.
  split.
  - apply bool_decide_eq_true_2.
    set (j1 := cond_apply is_check_job (λ j, (check_parents j w).2) j).
    assert (H1 : c1 !! i = Some j1).
    { rewrite E1, list_lookup_fmap, Hi. reflexivity. }
    assert (Hs1 : state j1 = READY ∧ working_directory j1 = working_directory j).
    { subst j1. unfold cond_apply. destruct Hst as [Hr|[Hc Hr]].
      - assert (Hc : is_check_job j = false).
        { rewrite is_check_job_eq. unfold state_is. rewrite Hr. reflexivity. }
        rewrite Hc. by split.
      - rewrite Hc. split; [exact Hr|].
        rewrite check_parents_state.
        repeat match goal with
               | |- context [if ?b then _ else _] => destruct b
               end; reflexivity. }
    destruct Hs1 as [Hs1 Hwd]. rewrite <- Hwd.
    by apply for_each_skip_fs_dir with i.
  - rewrite <- F1. apply for_each_skip_fs_mono.
Qed.

Lemma fast_forward_makes_workdir_witness :
  os_path_exists "/work/a"
    (fast_forward [Sample.job "a" READY []]
       (Sample.world ["/data"] [("a", READY)])).1.1 = true
  ∧ fs (Sample.world ["/data"] [("a", READY)])
    ⊆ fs (fast_forward [Sample.job "a" READY []]
            (Sample.world ["/data"] [("a", READY)])).1.1.
Proof.
  apply (fast_forward_makes_workdir [Sample.job "a" READY []]
           (Sample.world ["/data"] [("a", READY)]) 0
           (Sample.job "a" READY []));
    [reflexivity | left; reflexivity].
Defined.

(** ** More on the bulk write-back *)

Lemma set_old_state_same (j : BalsamJob) :
  __old_state j = Some (state j) → set_old_state (state j) j = j.
Proof. destruct j. cbn. by intros ->. Qed.

(** The first loop of the write-back on a cache in which every job has
    its [__old_state]: every job ends with [__old_state] equal to its
    state, and the loop does not raise. *)
Lemma scan_cache_ok (c : list BalsamJob) d :
  Forall (λ j, is_Some (__old_state j)) c →
  (scan_cache c d).1 = (λ j, set_old_state (state j) j) <$> c
  ∧ ∃ u, (scan_cache c d).2 = inr u.
Proof.
  revert d. induction c as [|x c IH]; intros d Hall.
  - split; [reflexivity | by exists d].
  - apply Forall_cons in Hall as [[old Hold] Hall]. cbn [scan_cache].
    rewrite Hold. cbn [fmap list_fmap]. case_bool_decide as Hch.
    + destruct (IH (dict_append (state x) (pk x) d) Hall) as [E [u Hu]].
      destruct (scan_cache c _) as [c' r]. cbn [fst snd] in *.
      split; [by rewrite E | by exists u].
    + destruct (IH d Hall) as [E [u Hu]].
      destruct (scan_cache c d) as [c' r]. cbn [fst snd] in *.
      split; [|by exists u].
      rewrite E. f_equal. symmetry. apply set_old_state_same.
      rewrite Hold. f_equal. destruct (decide (state x = old)); [done|].
      by exfalso.
Qed.

Lemma scan_cache_missing (c : list BalsamJob) d :
  ¬ Forall (λ j, is_Some (__old_state j)) c →
  (scan_cache c d).2 = inl (AttributeError "__old_state").
Proof.
  revert d. induction c as [|x c IH]; intros d Hnot.
  - exfalso. apply Hnot. constructor.
  - cbn [scan_cache]. destruct (__old_state x) as [old|] eqn:Hold;
      [|reflexivity].
    assert (Hc : ¬ Forall (λ j, is_Some (__old_state j)) c).
    { intros Hc. apply Hnot. constructor; [by rewrite Hold | exact Hc]. }
    case_bool_decide.
    + specialize (IH (dict_append (state x) (pk x) d) Hc).
      destruct (scan_cache c _) as [c' r]. exact IH.
    + specialize (IH d Hc). destruct (scan_cache c d) as [c' r]. exact IH.
Qed.

Lemma update_states_missing_old (job_cache : list BalsamJob) (w : World) :
  ¬ Forall (λ j, is_Some (__old_state j)) job_cache →
  (update_states_from_cache job_cache w).2
  = Some (AttributeError "__old_state")
  ∧ (update_states_from_cache job_cache w).1.1 = w.
Proof.
  intros Hnot. unfold update_states_from_cache.
  pose proof (scan_cache_missing job_cache [] Hnot) as Hscan.
  destruct (scan_cache job_cache []) as [c' r]. cbn [snd] in Hscan.
  rewrite Hscan. by split.
Qed.

(** When some cached job has no [__old_state] attribute, the write-back
    raises AttributeError out of its first loop, before any call to the
    store: the world is left as it was. *)
Theorem update_states_missing_attribute (job_cache : list BalsamJob)
    (w : World) :
  ¬ Forall (λ j, is_Some (__old_state j)) job_cache →
  (update_states_from_cache job_cache w).2
  = Some (AttributeError "__old_state")
  ∧ (update_states_from_cache job_cache w).1.1 = w.
Proof.
  exact (update_states_missing_old job_cache w).
Qed.

Lemma update_states_missing_attribute_witness :
  (update_states_from_cache [Sample.unsaved (Sample.job "a" READY [])]
     (Sample.world [] [("a", READY)])).2
  = Some (AttributeError "__old_state")
  ∧ (update_states_from_cache [Sample.unsaved (Sample.job "a" READY [])]
       (Sample.world [] [("a", READY)])).1.1
    = Sample.world [] [("a", READY)].
Proof.
  apply (update_states_missing_attribute
           [Sample.unsaved (Sample.job "a" READY [])]
           (Sample.world [] [("a", READY)])).
  intros H. apply Forall_inv in H. destruct H as [old H]. discriminate H.
Defined.

(** A write-back on a cache in which every job has its [__old_state]
    does not raise and leaves every job with its state in
    [__old_state]. *)
Lemma update_states_sync (job_cache : list BalsamJob) (w : World) :
  Forall (λ j, is_Some (__old_state j)) job_cache →
  (update_states_from_cache job_cache w).2 = None
  ∧ (update_states_from_cache job_cache w).1.2
    = (λ j, set_old_state (state j) j) <$> job_cache.
Proof.
  intros Hall. split.
  - unfold update_states_from_cache.
    destruct (scan_cache_ok job_cache [] Hall) as [_ [u Hu]].
    destruct (scan_cache job_cache []) as [c' r']. cbn [snd] in Hu.
    rewrite Hu. by destruct (negb (truthy u)).
  - rewrite update_states_cache.
    by destruct (scan_cache_ok job_cache [] Hall) as [-> _].
Qed.

(** After a write-back that did not raise, no cached job is changed any
    more: every job carries its state in [__old_state], and a second
    write-back right after it issues no call to the store and changes
    nothing. *)
Theorem update_states_twice (job_cache : list BalsamJob) (w : World) :
  Forall (λ j, is_Some (__old_state j)) job_cache →
  let r := update_states_from_cache job_cache w in
  r.2 = None
  ∧ r.1.2 = (λ j, set_old_state (state j) j) <$> job_cache
  ∧ update_states_from_cache r.1.2 r.1.1 = (r.1.1, r.1.2, None).
Proof.
  intros Hall r.
  assert (Hr2 : r.1.2 = (λ j, set_old_state (state j) j) <$> job_cache).
  { subst r. rewrite update_states_cache.
    by destruct (scan_cache_ok job_cache [] Hall) as [-> _]. }
  split; [|split; [exact Hr2|]].
  - subst r. unfold update_states_from_cache.
    destruct (scan_cache_ok job_cache [] Hall) as [_ [u Hu]].
    destruct (scan_cache job_cache []) as [c' r']. cbn [snd] in Hu.
    rewrite Hu. by destruct (negb (truthy u)).
  - rewrite Hr2. generalize r.1.1. intros w'.
    unfold update_states_from_cache.
    assert (Hsync : ∀ j,
              j ∈ (λ j, set_old_state (state j) j) <$> job_cache →
              ¬ changed j).
    { intros j Hj [old [Hold Hne]].
      apply list_elem_of_fmap in Hj as (j0 & -> & _).
      cbn in Hold, Hne. congruence. }
    assert (Hall' : Forall (λ j, is_Some (__old_state j))
                      ((λ j, set_old_state (state j) j) <$> job_cache)).
    { apply Forall_fmap, Forall_true. intros j. by eexists. }
    destruct (scan_cache_ok _ [] Hall') as [Hc _].
    destruct (scan_cache_unchanged _ [] Hsync) as [Hu|[e He]].
    + destruct (scan_cache _ []) as [c' r']. cbn [fst snd] in *.
      rewrite Hu. cbn [truthy list_truthy negb]. rewrite Hc.
      f_equal. f_equal.
      rewrite <- list_fmap_compose. apply list_fmap_ext.
      intros i j _. by destruct j.
    + destruct (scan_cache_ok _ [] Hall') as [_ [u Hu]]. congruence.
Qed.

Lemma update_states_twice_witness :
  let r := update_states_from_cache
             [set_state PREPROCESSED (Sample.job "a" STAGED_IN [])]
             (Sample.world [] [("a", STAGED_IN)]) in
  r.2 = None
  ∧ r.1.2 = [Sample.job "a" PREPROCESSED []]
  ∧ update_states_from_cache r.1.2 r.1.1 = (r.1.1, r.1.2, None).
Proof.
  apply (update_states_twice
           [set_state PREPROCESSED (Sample.job "a" STAGED_IN [])]
           (Sample.world [] [("a", STAGED_IN)])).
  apply Forall_cons. split; [by eexists | apply Forall_nil_2].
Defined.

(** *** Every change reaches the store *)

Lemma batch_update_state_lookup ids st w k :
  db (batch_update_state ids st w) !! k
  = if decide (k ∈ ids) then (λ _, st) <$> db w !! k else db w !! k.
Proof.
  unfold batch_update_state. cbn [db with_call with_db].
  induction ids as [|i ids IH]; cbn [foldr].
  - destruct (decide (k ∈ [])) as [Hin|_]; [|reflexivity].
    by apply elem_of_nil in Hin.
  - destruct (decide (i = k)) as [->|Hne].
    + rewrite lookup_alter_eq, IH.
      destruct (decide (k ∈ k :: ids)) as [_|Hn];
        [|exfalso; apply Hn, list_elem_of_here].
      destruct (decide (k ∈ ids)); by destruct (db w !! k).
    + rewrite lookup_alter_ne by exact Hne. rewrite IH.
      destruct (decide (k ∈ ids)) as [Hin|Hn];
        destruct (decide (k ∈ i :: ids)) as [Hin'|Hn']; try reflexivity.
      * exfalso. apply Hn'. by apply list_elem_of_further.
      * exfalso. apply elem_of_cons in Hin' as [->|Hin']; [by apply Hne|].
        by apply Hn.
Qed.

Lemma write_groups_set u w k v :
  (∀ st ids, (st, ids) ∈ u → k ∈ ids → st = v) →
  (∃ st ids, (st, ids) ∈ u ∧ k ∈ ids) →
  db (write_groups u w) !! k = (λ _, v) <$> db w !! k.
Proof.
  revert w. induction u as [|[st0 ids0] u IH]; intros w Hsame Hex.
  - destruct Hex as (st & ids & Hin & _). by apply elem_of_nil in Hin.
  - change (write_groups ((st0, ids0) :: u) w)
      with (write_groups u (batch_update_state ids0 st0 w)).
    assert (Hsame' : ∀ st ids, (st, ids) ∈ u → k ∈ ids → st = v).
    { intros st ids Hin. apply Hsame. by apply list_elem_of_further. }
    destruct (decide (Exists (λ g : pyval * list string, k ∈ g.2) u))
      as [Hlater|Hnone].
    + rewrite IH; [|exact Hsame'|].
      * rewrite batch_update_state_lookup.
        destruct (decide (k ∈ ids0)); by destruct (db w !! k).
      * apply Exists_exists in Hlater as ([st ids] & Hin & Hk).
        by exists st, ids.
    + rewrite write_groups_other.
      * rewrite batch_update_state_lookup.
        destruct Hex as (st & ids & Hin & Hk).
        apply elem_of_cons in Hin as [[= -> ->]|Hin].
        -- destruct (decide (k ∈ ids0)) as [_|Hn]; [|by exfalso].
           rewrite (Hsame st0 ids0); [reflexivity | apply list_elem_of_here
                                     | exact Hk].
        -- exfalso. apply Hnone, Exists_exists. by exists (st, ids).
      * intros st ids Hin Hk. apply Hnone, Exists_exists. by exists (st, ids).
Qed.

Lemma dict_append_has k v d :
  ∃ ids, (k, ids) ∈ dict_append k v d ∧ v ∈ ids.
Proof.
  induction d as [|[k' vs] d IH]; cbn [dict_append].
  - exists [v]. split; apply list_elem_of_here.
  - destruct (decide (k = k')) as [->|Hne].
    + exists (vs ++ [v]). split; [apply list_elem_of_here|].
      apply elem_of_app. right. apply list_elem_of_here.
    + destruct IH as (ids & Hin & Hv). exists ids.
      split; [by apply list_elem_of_further | exact Hv].
Qed.

Lemma dict_append_mono k v d st ids0 id :
  (st, ids0) ∈ d → id ∈ ids0 →
  ∃ ids, (st, ids) ∈ dict_append k v d ∧ id ∈ ids.
Proof.
  induction d as [|[k' vs] d IH]; cbn [dict_append]; intros Hin Hid.
  - by apply elem_of_nil in Hin.
  - destruct (decide (k = k')) as [->|Hne].
    + apply elem_of_cons in Hin as [[= -> ->]|Hin].
      * exists (vs ++ [v]). split; [apply list_elem_of_here|].
        apply elem_of_app. by left.
      * exists ids0. split; [by apply list_elem_of_further | exact Hid].
    + apply elem_of_cons in Hin as [[= -> ->]|Hin].
      * exists vs. split; [apply list_elem_of_here | exact Hid].
      * destruct (IH Hin Hid) as (ids & H1 & H2). exists ids.
        split; [by apply list_elem_of_further | exact H2].
Qed.

Lemma scan_cache_mono (c : list BalsamJob) d u st ids0 id :
  (scan_cache c d).2 = inr u → (st, ids0) ∈ d → id ∈ ids0 →
  ∃ ids, (st, ids) ∈ u ∧ id ∈ ids.
Proof.
  revert d ids0. induction c as [|x c IH]; intros d ids0; cbn [scan_cache].
  - intros [= <-] Hin Hid. by exists ids0.
  - destruct (__old_state x) as [old|]; [|discriminate].
    case_bool_decide.
    + specialize (IH (dict_append (state x) (pk x) d)).
      destruct (scan_cache c _) as [c' r]. cbn [snd] in *.
      intros Hr Hin Hid.
      destruct (dict_append_mono (state x) (pk x) d st ids0 id Hin Hid)
        as (ids1 & H1 & H2).
      by apply (IH ids1 Hr H1 H2).
    + specialize (IH d). destruct (scan_cache c d) as [c' r]. cbn [snd] in *.
      intros Hr Hin Hid. by apply (IH ids0 Hr Hin Hid).
Qed.

Lemma scan_cache_records (c : list BalsamJob) d u (j : BalsamJob) :
  (scan_cache c d).2 = inr u → j ∈ c → changed j →
  ∃ ids, (state j, ids) ∈ u ∧ pk j ∈ ids.
Proof.
  revert d. induction c as [|x c IH]; intros d; cbn [scan_cache].
  - intros _ Hj. by apply elem_of_nil in Hj.
  - destruct (__old_state x) as [old|] eqn:Hold; [|discriminate].
    case_bool_decide as Hch.
    + pose proof (scan_cache_mono c (dict_append (state x) (pk x) d))
        as Hmono.
      specialize (IH (dict_append (state x) (pk x) d)).
      destruct (scan_cache c _) as [c' r]. cbn [snd] in *.
      intros Hr Hj Hchanged. apply elem_of_cons in Hj as [->|Hj].
      * destruct (dict_append_has (state x) (pk x) d) as (ids1 & H1 & H2).
        by apply (Hmono u (state x) ids1 (pk x) Hr H1 H2).
      * by apply IH.
    + specialize (IH d). destruct (scan_cache c d) as [c' r]. cbn [snd] in *.
      intros Hr Hj Hchanged. apply elem_of_cons in Hj as [->|Hj].
      * exfalso. destruct Hchanged as (old' & Hold' & Hne). congruence.
      * by apply IH.
Qed.

Lemma NoDup_pk_eq (c : list BalsamJob) (j1 j2 : BalsamJob) :
  NoDup (pk <$> c) → j1 ∈ c → j2 ∈ c → pk j1 = pk j2 → j1 = j2.
Proof.
  intros Hnd H1 H2 Hpk.
  apply list_elem_of_lookup in H1 as [i1 H1].
  apply list_elem_of_lookup in H2 as [i2 H2].
  assert (i1 = i2).
  { apply (NoDup_lookup (pk <$> c) i1 i2 (pk j1) Hnd).
    - by rewrite list_lookup_fmap, H1.
    - by rewrite list_lookup_fmap, H2, Hpk. }
  subst. congruence.
Qed.

(** The write-back brings the store in line with the cache.  For a cache
    with distinct keys in which every job carries in [__old_state] the
    state the store holds for it, the write-back does not raise, and after
    it the store holds, for every cached job, the state the job has in
    memory, which is also its new [__old_state]. *)
Theorem update_states_store_agrees (job_cache : list BalsamJob) (w : World) :
  NoDup (pk <$> job_cache) →
  (∀ j, j ∈ job_cache → db w !! pk j = __old_state j ∧ is_Some (__old_state j)) →
  let r := update_states_from_cache job_cache w in
  r.2 = None
  ∧ ∀ j, j ∈ r.1.2 →
      db r.1.1 !! pk j = Some (state j) ∧ __old_state j = Some (state j).
Proof.
  intros Hnd Hsync r.
  assert (Hall : Forall (λ j, is_Some (__old_state j)) job_cache).
  { apply Forall_forall. intros j Hj. by apply Hsync. }
  destruct (update_states_sync job_cache w Hall) as (Hnone & Hcache).
  fold r in Hnone, Hcache. split; [exact Hnone|].
  intros j' Hj'. rewrite Hcache in Hj'.
  apply list_elem_of_fmap in Hj' as (j & -> & Hj).
  split; [|reflexivity].
  change (pk (set_old_state (state j) j)) with (pk j).
  change (state (set_old_state (state j) j)) with (state j).
  destruct (Hsync j Hj) as [Hdb [old Hold]].
  subst r. unfold update_states_from_cache.
  pose proof (scan_cache_groups job_cache []) as Hgroups.
  pose proof (scan_cache_records job_cache []) as Hrecords.
  destruct (scan_cache_ok job_cache [] Hall) as [_ [u Hu]].
  destruct (scan_cache job_cache []) as [c' r']. cbn [snd] in *. subst r'.
  assert (Hu3 : ∀ st ids, (st, ids) ∈ u → pk j ∈ ids → st = state j).
  { intros st ids Hin Hk.
    destruct (Hgroups u st ids (pk j) eq_refl Hin Hk)
      as [(ids0 & H0 & _)|(j2 & Hj2 & Hpk & Hst & _)].
    - by apply elem_of_nil in H0.
    - rewrite (NoDup_pk_eq job_cache j2 j Hnd Hj2 Hj Hpk) in Hst.
      by symmetry. }
  destruct (decide (state j = old)) as [Hsame|Hdiff].
  - (* the job is not changed: no group holds its key *)
    assert (Hno : ∀ st ids, (st, ids) ∈ u → pk j ∉ ids).
    { intros st ids Hin Hk.
      destruct (Hgroups u st ids (pk j) eq_refl Hin Hk)
        as [(ids0 & H0 & _)|(j2 & Hj2 & Hpk & _ & (old2 & Hold2 & Hne))].
      - by apply elem_of_nil in H0.
      - rewrite (NoDup_pk_eq job_cache j2 j Hnd Hj2 Hj Hpk) in Hold2, Hne.
        congruence. }
    destruct (negb (truthy u)); cbn [fst db with_call].
    + congruence.
    + rewrite write_groups_other by exact Hno. cbn [db with_call]. congruence.
  - assert (Hex : ∃ st ids, (st, ids) ∈ u ∧ pk j ∈ ids).
    { destruct (Hrecords u j eq_refl Hj) as (ids & H1 & H2).
      - by exists old.
      - by exists (state j), ids. }
    destruct u as [|g u]; cbn [truthy list_truthy negb fst db with_call].
    + destruct Hex as (st & ids & Hin & _). by apply elem_of_nil in Hin.
    + rewrite (write_groups_set _ _ _ (state j) Hu3 Hex).
      cbn [db with_call]. rewrite Hdb, Hold. reflexivity.
Qed.

Lemma update_states_store_agrees_witness :
  let r := update_states_from_cache
             [set_state PREPROCESSED (Sample.job "a" STAGED_IN [])]
             (Sample.world [] [("a", STAGED_IN)]) in
  r.2 = None
  ∧ ∀ j, j ∈ r.1.2 →
      db r.1.1 !! pk j = Some (state j) ∧ __old_state j = Some (state j).
Proof.
  apply (update_states_store_agrees
           [set_state PREPROCESSED (Sample.job "a" STAGED_IN [])]
           (Sample.world [] [("a", STAGED_IN)])).
  - apply NoDup_singleton.
  - intros j Hj. apply list_elem_of_singleton in Hj. subst j.
    split; [reflexivity | by eexists].
Defined.

(** ** The dependency check, in full *)

Lemma size_list_to_set_NoDup (l : list string) :
  size (list_to_set l : gset string) = length l → NoDup l.
Proof.
  induction l as [|x l IH]; intros Hsize; [constructor|].
  rewrite list_to_set_cons in Hsize. cbn [length] in Hsize.
  pose proof (size_list_to_set_le l) as Hle.
  destruct (decide (x ∈ l)) as [Hin|Hnin].
  - exfalso.
    assert (Heq : ({[x]} ∪ list_to_set l : gset string) = list_to_set l).
    { apply set_eq. intros y. rewrite elem_of_union, elem_of_singleton.
      rewrite !elem_of_list_to_set. split; [intros [->|?]; done | by right]. }
    rewrite Heq in Hsize. lia.
  - constructor; [exact Hnin|]. apply IH.
    rewrite size_union in Hsize.
    + rewrite size_singleton in Hsize. lia.
    + intros y Hy1 Hy2. apply elem_of_singleton in Hy1 as ->.
      by apply elem_of_list_to_set in Hy2.
Qed.

Lemma finished_parents_dom (ps : list string) (d : gmap string pyval) :
  (∀ p, p ∈ ps → d !! p = Some JOB_FINISHED) →
  dom (filter (λ kv : string * pyval, kv.2 = JOB_FINISHED)
         (filter (λ kv : string * pyval, kv.1 ∈ ps) d))
  = (list_to_set ps : gset string).
Proof.
  intros Hall. apply set_eq. intros k.
  rewrite elem_of_dom, elem_of_list_to_set. split.
  - intros [v Hv]. apply map_lookup_filter_Some in Hv as [Hv _].
    by apply map_lookup_filter_Some in Hv as [_ Hin].
  - intros Hin. exists JOB_FINISHED.
    apply map_lookup_filter_Some. split; [|reflexivity].
    apply map_lookup_filter_Some. split; [by apply Hall | exact Hin].
Qed.

Lemma parents_ready_spec (ps : list string) (wait : bool)
    (d : gmap string pyval) :
  parents_ready ps wait d = true
  ↔ ps = [] ∨ wait = false
    ∨ (NoDup ps ∧ ∀ p, p ∈ ps → d !! p = Some JOB_FINISHED).
Proof.
  unfold parents_ready.
  set (m := filter (λ kv : string * pyval, kv.2 = JOB_FINISHED)
              (filter (λ kv : string * pyval, kv.1 ∈ ps) d)).
  split.
  - intros H. apply orb_true_iff in H as [H|H];
      [apply orb_true_iff in H as [H|H]|].
    + left. apply Nat.eqb_eq in H. by destruct ps.
    + right. left. by destruct wait.
    + right. right. apply Nat.eqb_eq in H.
      assert (Hsub : dom m ⊆ (list_to_set ps : gset string)).
      { intros k Hk. apply elem_of_dom in Hk as [v Hv].
        apply map_lookup_filter_Some in Hv as [Hv _].
        apply map_lookup_filter_Some in Hv as [_ Hin].
        by apply elem_of_list_to_set. }
      pose proof (size_list_to_set_le ps) as Hle.
      pose proof (subseteq_size _ _ Hsub) as Hle2.
      rewrite size_dom in Hle2.
      split.
      * apply size_list_to_set_NoDup. lia.
      * assert (Heq : dom m = (list_to_set ps : gset string)).
        { apply set_subseteq_size_eq; [exact Hsub|]. rewrite size_dom. lia. }
        intros p Hp.
        assert (Hin : p ∈ dom m)
          by (rewrite Heq; by apply elem_of_list_to_set).
        apply elem_of_dom in Hin as [v Hv].
        apply map_lookup_filter_Some in Hv as [Hv Hfin].
        apply map_lookup_filter_Some in Hv as [Hv _].
        cbn in Hfin. by subst v.
  - intros [->|[->|[Hnd Hall]]].
    + reflexivity.
    + by rewrite orb_true_r.
    + apply orb_true_iff. right. apply Nat.eqb_eq.
      rewrite <- size_dom. subst m.
      rewrite (finished_parents_dom ps d Hall).
      symmetry. by apply size_list_to_set.
Qed.

(** The dependency check leaves a job READY exactly when it has no
    parents, or does not wait for them, or lists its parent ids without
    repetition and every one of them is the key of a stored job in state
    JOB_FINISHED; in every other case it leaves the job in
    AWAITING_PARENTS.  A job that waits and lists a parent id twice, or
    an id with no stored job, is never made READY; the check never writes
    the store. *)
Theorem check_parents_outcome (job : BalsamJob) (w : World) :
  (state (check_parents job w).2 = READY
   ↔ parents job = [] ∨ wait_for_parents job = false
     ∨ (NoDup (parents job)
        ∧ ∀ p, p ∈ parents job → db w !! p = Some JOB_FINISHED))
  ∧ (state (check_parents job w).2 = READY
     ∨ state (check_parents job w).2 = AWAITING_PARENTS)
  ∧ db (check_parents job w).1 = db w.
Proof.
  rewrite check_parents_state, check_parents_db.
  rewrite <- parents_ready_spec.
  destruct (parents_ready (parents job) (wait_for_parents job) (db w)).
  - split; [by split|]. split; [by left | reflexivity].
  - case_bool_decide as Hst.
    + split; [by split|]. split; [by right | reflexivity].
    + rewrite Hst.
      split; [by split|]. split; [by right | reflexivity].
Qed.

(** A job that waits for parents and lists the same parent twice stays
    in AWAITING_PARENTS although that parent is finished. *)
Example check_parents_repeated_parent :
  state (check_parents (Sample.job "child" CREATED ["mother"; "mother"])
           (Sample.world [] [("mother", JOB_FINISHED)])).2
  = AWAITING_PARENTS.
Proof. vm_compute. reflexivity. Qed.

(** ** Releasing and refreshing *)

Lemma filter_iff_in {A} (P Q : A → Prop) `{!∀ x, Decision (P x)}
    `{!∀ x, Decision (Q x)} (l : list A) :
  (∀ x, x ∈ l → (P x ↔ Q x)) → filter P l = filter Q l.
Proof.
  induction l as [|a l IH]; intros Hiff; [reflexivity|].
  assert (IH' : filter P l = filter Q l).
  { apply IH. intros x Hx. apply Hiff. by apply list_elem_of_further. }
  pose proof (Hiff a (list_elem_of_here a l)) as Ha.
  destruct (decide (P a)) as [HP|HP].
  - rewrite !filter_cons_True by tauto. by rewrite IH'.
  - rewrite !filter_cons_False by tauto. exact IH'.
Qed.

Lemma filter_all {A} (P : A → Prop) `{!∀ x, Decision (P x)} (l : list A) :
  Forall P l → filter P l = l.
Proof.
  induction 1 as [|a l Ha Hl IH]; [reflexivity|].
  rewrite filter_cons_True by exact Ha. by rewrite IH.
Qed.

Lemma filter_none {A} (P : A → Prop) `{!∀ x, Decision (P x)} (l : list A) :
  Forall (λ x, ¬ P x) l → filter P l = [].
Proof.
  induction 1 as [|a l Ha Hl IH]; [reflexivity|].
  rewrite filter_cons_False by exact Ha. exact IH.
Qed.

Section WorkerFacts.

Variable PROCESSABLE_STATES : list string.
Variable acquire_transitionable : Z → World → World * list BalsamJob.

Local Abbreviation is_processable := (processable PROCESSABLE_STATES).
Local Abbreviation run_release := (release_jobs PROCESSABLE_STATES).
Local Abbreviation run_refresh :=
  (refresh_cache PROCESSABLE_STATES acquire_transitionable).

Lemma release_jobs_kept (job_cache : list BalsamJob) (w : World)
    (j : BalsamJob) :
  j ∈ (run_release job_cache w).2 →
  j ∈ job_cache ∧ is_processable (state j) = true.
Proof.
  unfold release_jobs. cbn [snd]. intros Hj.
  apply list_elem_of_filter in Hj as [Hpk Hj]. split; [exact Hj|].
  destruct (is_processable (state j)) eqn:E; [reflexivity|].
  exfalso. apply Hpk. apply list_elem_of_fmap. exists j.
  split; [reflexivity|]. apply list_elem_of_filter. by split.
Qed.

(** [release_jobs] keeps only jobs in a processable state, keeps them in
    the order of the cache, and does not write the store; a second
    release right after it has nothing to release (it still calls the
    store, with an empty list) and keeps the same cache. *)
Theorem release_jobs_keeps_processable (job_cache : list BalsamJob)
    (w : World) :
  let r := run_release job_cache w in
  Forall (λ j, is_processable (state j) = true) r.2
  ∧ sublist r.2 job_cache
  ∧ db r.1 = db w ∧ fs r.1 = fs w
  ∧ run_release r.2 r.1 = (with_call (Release []) r.1, r.2).
Proof.
  intros r.
  assert (Hall : Forall (λ j, is_processable (state j) = true) r.2).
  { apply Forall_forall. intros j Hj.
    by destruct (release_jobs_kept job_cache w j Hj). }
  split; [exact Hall|]. split; [apply sublist_filter|].
  split; [reflexivity|]. split; [reflexivity|].
  generalize dependent r. intros r Hall. generalize r.1. intros w1.
  unfold release_jobs.
  assert (Hnone : filter (λ j, is_processable (state j) = false) r.2 = []).
  { apply filter_none. eapply Forall_impl; [exact Hall|].
    cbn. intros j Hj. congruence. }
  rewrite Hnone. cbn [fmap list_fmap]. f_equal.
  apply filter_all. apply Forall_forall. intros j _. apply not_elem_of_nil.
Qed.

(** When the keys of the cache are distinct, [release_jobs] keeps
    exactly the jobs in a processable state and releases exactly the keys
    of the others. *)
Theorem release_jobs_exact (job_cache : list BalsamJob) (w : World) :
  NoDup (pk <$> job_cache) →
  (run_release job_cache w).2
  = filter (λ j, is_processable (state j) = true) job_cache
  ∧ store_calls (run_release job_cache w).1
    = store_calls w
      ++ [Release (pk <$> filter (λ j, is_processable (state j) = false)
                            job_cache)].
Proof.
  intros Hnd. split; [|reflexivity].
  unfold release_jobs. cbn [snd]. apply filter_iff_in.
  intros j Hj. split.
  - intros Hpk. destruct (is_processable (state j)) eqn:E; [reflexivity|].
    exfalso. apply Hpk. apply list_elem_of_fmap. exists j.
    split; [reflexivity|]. apply list_elem_of_filter. by split.
  - intros Hproc Hpk. apply list_elem_of_fmap in Hpk as (j2 & Hpk & Hj2).
    apply list_elem_of_filter in Hj2 as [Hno Hj2].
    rewrite (NoDup_pk_eq job_cache j j2 Hnd Hj Hj2 Hpk) in Hproc. congruence.
Qed.

(** With no worker ([num_threads = 0]) [refresh_cache] raises
    ZeroDivisionError before it calls the store: cache and world are
    left as they were. *)
Theorem refresh_cache_zero_threads (job_cache : list BalsamJob) (w : World) :
  run_refresh job_cache 0 w = (w, job_cache, Some ZeroDivisionError).
Proof. reflexivity. Qed.


End WorkerFacts.

Lemma release_jobs_exact_witness :
  (release_jobs Sample.PROCESSABLE_STATES
     [Sample.job "a" READY []; Sample.job "b" JOB_FINISHED []]
     (Sample.world [] [])).2
  = [Sample.job "a" READY []]
  ∧ store_calls
      (release_jobs Sample.PROCESSABLE_STATES
         [Sample.job "a" READY []; Sample.job "b" JOB_FINISHED []]
         (Sample.world [] [])).1
    = [Release ["b"]].
Proof.
  apply (release_jobs_exact Sample.PROCESSABLE_STATES
           [Sample.job "a" READY []; Sample.job "b" JOB_FINISHED []]
           (Sample.world [] [])).
  apply (bool_decide_unpack _). vm_compute. reflexivity.
Defined.


(** ** What the transition functions do to the job object *)

Lemma same_but_state_refl (j : BalsamJob) : same_but_state j j.
Proof. by destruct j. Qed.

Lemma same_but_state_trans (j1 j2 j3 : BalsamJob) :
  same_but_state j1 j2 → same_but_state j2 j3 → same_but_state j1 j3.
Proof.
  unfold same_but_state. intros H12 H23. rewrite H23 at 1. rewrite H12.
  by destruct j1.
Qed.

Lemma leaves_keeps {A} (m : Tr A) : leaves_job m → keeps_job m.
Proof. intros H s. rewrite H. apply same_but_state_refl. Qed.

Lemma leaves_bind {A B} (m : Tr A) (f : A → Tr B) :
  leaves_job m → (∀ x, leaves_job (f x)) → leaves_job (m ≫= f).
Proof.
  intros Hm Hf s. unfold mbind, Tr_bind. specialize (Hm s).
  destruct (m s) as [s' [e|x]]; [exact Hm|].
  rewrite (Hf x s'). exact Hm.
Qed.

Lemma keeps_bind {A B} (m : Tr A) (f : A → Tr B) :
  keeps_job m → (∀ x, keeps_job (f x)) → keeps_job (m ≫= f).
Proof.
  intros Hm Hf s. unfold mbind, Tr_bind. specialize (Hm s).
  destruct (m s) as [s' [e|x]]; [exact Hm|].
  eapply same_but_state_trans; [exact Hm | apply Hf].
Qed.

Lemma leaves_ret {A} (x : A) : leaves_job (mret x).
Proof. by intros s. Qed.
Lemma leaves_raise {A} (e : exn) : leaves_job (raise (A:=A) e).
Proof. by intros s. Qed.
Lemma leaves_self : leaves_job self.
Proof. by intros s. Qed.
Lemma leaves_logging l msg : leaves_job (logging l msg).
Proof. by intros s. Qed.
Lemma leaves_world_get {A} (f : World → A) : leaves_job (world_get f).
Proof. by intros s. Qed.
Lemma leaves_world_do f : leaves_job (world_do f).
Proof. by intros s. Qed.
Lemma leaves_world_step {A} (f : World → World * A) :
  leaves_job (world_step f).
Proof. intros s. unfold world_step. by destruct (f s.1). Qed.
Lemma leaves_ext_call f : leaves_job (ext_call f).
Proof. intros s. unfold ext_call. by destruct (f s.1). Qed.
Lemma leaves_first_item l : leaves_job (first_item l).
Proof. destruct l; [apply leaves_raise | apply leaves_ret]. Qed.
Lemma leaves_when b (c : Tr unit) : leaves_job c → leaves_job (when b c).
Proof. destruct b; [done | intros _; apply leaves_ret]. Qed.

Lemma leaves_try_except {A} (body : Tr A) (handler : exn → Tr A) :
  leaves_job body → (∀ e, leaves_job (handler e)) →
  leaves_job (try_except body handler).
Proof.
  intros Hb Hh s. unfold try_except. specialize (Hb s).
  destruct (body s) as [s' [e|x]]; [|exact Hb].
  rewrite (Hh e s'). exact Hb.
Qed.

Lemma leaves_for_in {A} (l : list A) (body : A → Tr unit) :
  (∀ x, leaves_job (body x)) → leaves_job (for_in l body).
Proof.
  intros Hb. induction l as [|x l IH]; [apply leaves_ret|].
  cbn [for_in]. apply leaves_bind; [apply Hb | intros _; exact IH].
Qed.

Lemma keeps_assign v : keeps_job (job_state_assign v).
Proof. intros s. unfold same_but_state. reflexivity. Qed.

Lemma keeps_when b (c : Tr unit) : keeps_job c → keeps_job (when b c).
Proof.
  destruct b; [done | intros _; apply leaves_keeps, leaves_ret].
Qed.

Lemma keeps_refresh_from_db : keeps_job refresh_from_db.
Proof.
  unfold refresh_from_db.
  apply keeps_bind; [apply leaves_keeps, leaves_self | intros job].
  apply keeps_bind; [apply leaves_keeps, leaves_world_get | intros [v|]].
  - apply keeps_assign.
  - apply leaves_keeps, leaves_raise.
Qed.

(** Take a computation apart along its binds and branches. *)
Ltac job_step :=
  first
    [ apply leaves_bind; [|intros ?]
    | apply leaves_ret | apply leaves_raise | apply leaves_self
    | apply leaves_logging | apply leaves_world_get | apply leaves_world_do
    | apply leaves_world_step | apply leaves_ext_call
    | apply leaves_first_item | apply leaves_when
    | apply leaves_try_except; [|intros ?]
    | apply leaves_for_in; intros ?
    | apply keeps_bind; [|intros ?]
    | apply keeps_assign | apply keeps_refresh_from_db
    | apply keeps_when
    | match goal with
      | |- context [if ?b then _ else _] => destruct b
      | |- context [match ?x with _ => _ end] => destruct x
      end
    | apply leaves_keeps ].

Section JobFacts.

Context {env : Type}.
Variable get_envs : BalsamJob → bool → bool → env.
Variable transfer_stage_in : string → string → World → World * option string.
Variable transfer_stage_out : string → string → World → World * option string.
Variable glob_glob : string → World → list string.
Variable os_symlink : string → string → World → World * option string.
Variable shutil_copyfile : string → string → World → World * option string.
Variable tempdir_enter : World → World * string.
Variable tempdir_exit : string → World → World.
Variable open_write : string → string → World → World * option string.
Variable run_subprocess :
  list string → env → string → Z → World → World * proc_outcome.
Variable proc_kill : World → World.
Variable get_tail : string → option nat → World → string.
Variable parent_workdirs : BalsamJob → World → list (string * string).
Variable print_exc : exn → string.

Local Abbreviation the_stage_in :=
  (stage_in transfer_stage_in glob_glob os_symlink parent_workdirs).
Local Abbreviation the_stage_out :=
  (stage_out transfer_stage_out glob_glob shutil_copyfile tempdir_enter
     tempdir_exit).
Local Abbreviation the_preprocess :=
  (preprocess get_envs open_write run_subprocess proc_kill get_tail).
Local Abbreviation the_postprocess :=
  (postprocess get_envs open_write run_subprocess proc_kill get_tail).
Local Abbreviation the_handle_timeout :=
  (handle_timeout get_envs open_write run_subprocess proc_kill get_tail).
Local Abbreviation the_handle_run_error :=
  (handle_run_error get_envs open_write run_subprocess proc_kill get_tail).
Local Abbreviation the_transitions :=
  (TRANSITIONS get_envs transfer_stage_in transfer_stage_out glob_glob
     os_symlink shutil_copyfile tempdir_enter tempdir_exit open_write
     run_subprocess proc_kill get_tail parent_workdirs).
Local Abbreviation the_pass :=
  (transition_pass get_envs transfer_stage_in transfer_stage_out glob_glob
     os_symlink shutil_copyfile tempdir_enter tempdir_exit open_write
     run_subprocess proc_kill get_tail parent_workdirs print_exc).

Lemma leaves_with_tempdir {A} (body : string → Tr A) :
  (∀ d, leaves_job (body d)) →
  leaves_job (with_tempdir tempdir_enter tempdir_exit body).
Proof.
  intros Hb s. unfold with_tempdir. destruct (tempdir_enter s.1) as [w1 d].
  specialize (Hb d (w1, s.2)). destruct (body d (w1, s.2)) as [[w2 j2] r].
  exact Hb.
Qed.

Lemma leaves_run_logged out header args envs cwd timeout name what :
  leaves_job (run_logged open_write run_subprocess proc_kill out header args
                envs cwd timeout name what).
Proof. unfold run_logged. repeat job_step. Qed.

Lemma keeps_stage_in : keeps_job the_stage_in.
Proof.
  unfold stage_in. cbv zeta. repeat job_step.
Qed.

Lemma keeps_stage_out : keeps_job the_stage_out.
Proof.
  unfold stage_out. cbv zeta.
  repeat first [apply leaves_with_tempdir; intros ? | job_step].
Qed.

Lemma keeps_preprocess : keeps_job the_preprocess.
Proof.
  unfold preprocess. cbv zeta.
  repeat first [apply leaves_run_logged | job_step].
Qed.

Lemma keeps_postprocess eh th : keeps_job (the_postprocess eh th).
Proof.
  unfold postprocess. cbv zeta.
  repeat first [apply leaves_run_logged | job_step].
Qed.

Lemma keeps_handle_timeout : keeps_job the_handle_timeout.
Proof.
  unfold handle_timeout.
  apply keeps_bind; [apply leaves_keeps, leaves_self | intros job].
  destruct (post_timeout_handler job);
    [|apply leaves_keeps, leaves_raise].
  apply keeps_bind; [apply leaves_keeps, leaves_logging | intros _].
  apply keeps_postprocess.
Qed.

Lemma keeps_handle_run_error : keeps_job the_handle_run_error.
Proof.
  unfold handle_run_error.
  apply keeps_bind; [apply leaves_keeps, leaves_self | intros job].
  destruct (post_error_handler job);
    [|apply leaves_keeps, leaves_raise].
  apply keeps_bind; [apply leaves_keeps, leaves_logging | intros _].
  apply keeps_postprocess.
Qed.

Lemma keeps_transition (st : pyval) (f : Tr unit) :
  the_transitions st = Some f → keeps_job f.
Proof.
  unfold TRANSITIONS. intros Hf.
  repeat match type of Hf with
         | (if ?d then _ else _) = _ => destruct d
         end; try discriminate Hf; injection Hf as <-.
  - apply keeps_stage_in.
  - apply keeps_preprocess.
  - apply keeps_postprocess.
  - apply keeps_handle_timeout.
  - apply keeps_handle_run_error.
  - apply keeps_stage_out.
Qed.

(** No transition function touches the key or the [__old_state] of the
    job it is given, also when it raises; and [stage_in], [preprocess]
    and [stage_out], which never reload the job from the store, hand it
    on with nothing changed but, possibly, its state. *)
Theorem transitions_keep_job (st : pyval) (f : Tr unit) (w : World)
    (j : BalsamJob) :
  the_transitions st = Some f →
  pk (f (w, j)).1.2 = pk j
  ∧ __old_state (f (w, j)).1.2 = __old_state j
  ∧ (st = READY ∨ st = STAGED_IN ∨ st = POSTPROCESSED →
     (f (w, j)).1.2 = set_state (state (f (w, j)).1.2) j).
Proof.
  intros Hf. pose proof (keeps_transition st f Hf (w, j)) as Hk.
  unfold same_but_state in Hk. cbn [snd] in Hk.
  split; [|split].
  - rewrite Hk. reflexivity.
  - rewrite Hk. reflexivity.
  - intros _. exact Hk.
Qed.

Lemma lookup_transition_none (st : pyval) :
  st ∉ transition_states → the_transitions st = None.
Proof.
  unfold transition_states. rewrite !not_elem_of_cons.
  intros (N1 & N2 & N3 & N4 & N5 & N6 & _). unfold TRANSITIONS.
  repeat match goal with
         | |- (if ?d then _ else _) = _ => destruct d; [congruence|]
         end.
  reflexivity.
Qed.

Lemma transition_pass_same_but_state (job_cache : list BalsamJob)
    (w : World) :
  Forall2 same_but_state job_cache (the_pass job_cache w).1.2.
Proof.
  revert w. induction job_cache as [|job rest IH]; intros w.
  { constructor. }
  assert (Hrest : Forall2 same_but_state rest rest).
  { clear. induction rest; constructor;
      [apply same_but_state_refl | assumption]. }
  cbn [transition_pass].
  destruct (the_transitions (state job)) as [f|] eqn:Hf.
  - pose proof (keeps_transition _ f Hf (w, job)) as Hk. cbn [snd] in Hk.
    destruct (f (w, job)) as [[w1 j1] [e|u]]; cbn [fst snd] in *.
    + destruct e;
        try (constructor; [exact Hk | exact Hrest]).
      unfold mark_failed. cbn [fst snd].
      assert (Hk2 : same_but_state job (set_state FAILED j1)).
      { eapply same_but_state_trans; [exact Hk|]. reflexivity. }
      match goal with
      | |- context [if ?b then _ else _] => destruct b
      end.
      * constructor; [exact Hk2 | exact Hrest].
      * match goal with
        | |- context [transition_pass _ _ _ _ _ _ _ _ _ _ _ _ _ _ rest ?w0] =>
            specialize (IH w0);
            destruct (the_pass rest w0) as [[w3 rest'] e3]
        end.
        constructor; [exact Hk2 | exact IH].
    + destruct (EXIT_FLAG w1).
      * constructor; [exact Hk | exact Hrest].
      * specialize (IH w1). destruct (the_pass rest w1) as [[w3 rest'] e3].
        constructor; [exact Hk | exact IH].
  - constructor; [apply same_but_state_refl | exact Hrest].
Qed.

(** The pass keeps every job of the cache at its place and never touches
    a key or an [__old_state], whatever the transition functions did and
    whether the pass raised or not: the write-back that follows compares
    every state the pass assigned with the state saved before the pass. *)
Theorem transition_pass_keeps_jobs (job_cache : list BalsamJob) (w : World) :
  pk <$> (the_pass job_cache w).1.2 = pk <$> job_cache
  ∧ __old_state <$> (the_pass job_cache w).1.2 = __old_state <$> job_cache.
Proof.
  pose proof (transition_pass_same_but_state job_cache w) as H.
  split.
  - induction H as [|j j' c c' Hj _ IH]; [reflexivity|].
    cbn [fmap list_fmap]. rewrite IH. f_equal.
    unfold same_but_state in Hj. rewrite Hj. reflexivity.
  - induction H as [|j j' c c' Hj _ IH]; [reflexivity|].
    cbn [fmap list_fmap]. rewrite IH. f_equal.
    unfold same_but_state in Hj. rewrite Hj. reflexivity.
Qed.

(** A job whose state is not a key of [TRANSITIONS] (AWAITING_PARENTS,
    PREPROCESSED, a tuple, ...) stops the pass with a KeyError when the
    pass reaches it: the job and the jobs after it are untouched, the
    world is as the jobs before it left it, and the job is not marked
    FAILED. *)
Theorem transition_pass_key_error (pre post pre' : list BalsamJob)
    (job : BalsamJob) (w w0 : World) :
  the_pass pre w = (w0, pre', None) →
  EXIT_FLAG w0 = false →
  state job ∉ transition_states →
  the_pass (pre ++ job :: post) w
  = (w0, pre' ++ job :: post, Some (KeyError (state job))).
Proof.
  intros Hpre Hflag Hst.
  rewrite (transition_pass_app _ _ _ _ _ _ _ _ _ _ _ _ _ _
             pre (job :: post) pre' w w0 Hpre Hflag).
  cbn [transition_pass]. by rewrite (lookup_transition_none _ Hst).
Qed.

(** An exception of a transition function that is not a transition error
    leaves the pass at once: the job keeps what the function did to it
    and is not marked FAILED, and the jobs after it are untouched. *)
Lemma transition_pass_other_exception (pre post pre' : list BalsamJob)
    (job : BalsamJob) (w w0 : World) (f : Tr unit)
    (s1 : World * BalsamJob) (e : exn) :
  the_pass pre w = (w0, pre', None) →
  EXIT_FLAG w0 = false →
  the_transitions (state job) = Some f →
  f (w0, job) = (s1, inl e) →
  (∀ msg, e ≠ BalsamTransitionError msg) →
  the_pass (pre ++ job :: post) w = (s1.1, pre' ++ s1.2 :: post, Some e).
Proof.
  intros Hpre Hflag Hf Hrun Hne.
  rewrite (transition_pass_app _ _ _ _ _ _ _ _ _ _ _ _ _ _
             pre (job :: post) pre' w w0 Hpre Hflag).
  cbn [transition_pass]. rewrite Hf, Hrun.
  destruct e; try reflexivity. by destruct (Hne msg).
Qed.

(** In the pass, a READY job whose working directory does not exist
    stops the pass with the NameError of [stage_in]: the job stays READY
    and is not marked FAILED, and the jobs after it are not processed. *)
Theorem transition_pass_missing_workdir (pre post pre' : list BalsamJob)
    (job : BalsamJob) (w w0 : World) :
  the_pass pre w = (w0, pre', None) →
  EXIT_FLAG w0 = false →
  state job = READY →
  os_path_exists (working_directory job) w0 = false →
  the_pass (pre ++ job :: post) w
  = (logger DEBUG (cute_id job +:+ " in stage_in") w0,
     pre' ++ job :: post, Some (NameError "workdir")).
Proof.
  intros Hpre Hflag Hst Hdir.
  rewrite (transition_pass_other_exception pre post pre' job w w0
             the_stage_in
             (logger DEBUG (cute_id job +:+ " in stage_in") w0, job)
             (NameError "workdir") Hpre Hflag).
  - reflexivity.
  - rewrite Hst. reflexivity.
  - unfold stage_in. unfold_tr.
    change (os_path_exists (working_directory job)
              (logger DEBUG (cute_id job +:+ " in stage_in") w0))
      with (os_path_exists (working_directory job) w0).
    rewrite Hdir. reflexivity.
  - discriminate.
Qed.

(** *** How the transition functions end *)

Lemma bind_returned {A B} (m : Tr A) (f : A → Tr B) s s' x :
  m s = (s', inr x) → (m ≫= f) s = f x s'.
Proof. intros H. unfold mbind, Tr_bind. by rewrite H. Qed.

Lemma bind_raised {A B} (m : Tr A) (f : A → Tr B) s s' e :
  m s = (s', inl e) → (m ≫= f) s = (s', inl e).
Proof. intros H. unfold mbind, Tr_bind. by rewrite H. Qed.

Lemma never_ret {A} (x : A) : never_raises (mret x).
Proof. intros s. by exists x. Qed.
Lemma never_self : never_raises self.
Proof. intros s. by eexists. Qed.
Lemma never_logging l msg : never_raises (logging l msg).
Proof. intros s. by eexists. Qed.
Lemma never_world_get {A} (f : World → A) : never_raises (world_get f).
Proof. intros s. by eexists. Qed.
Lemma never_assign v : never_raises (job_state_assign v).
Proof. intros s. by eexists. Qed.

Lemma only_of_never {A} (m : Tr A) :
  never_raises m → only_transition_errors m.
Proof. intros H s e He. destruct (H s) as [x Hx]. congruence. Qed.

Lemma only_bind {A B} (m : Tr A) (f : A → Tr B) :
  only_transition_errors m → (∀ x, only_transition_errors (f x)) →
  only_transition_errors (m ≫= f).
Proof.
  intros Hm Hf s e. unfold mbind, Tr_bind. specialize (Hm s).
  destruct (m s) as [s' [e'|x]]; cbn [snd] in *.
  - intros [= <-]. by apply Hm.
  - apply Hf.
Qed.

Lemma only_raise {A} msg :
  only_transition_errors (raise (A:=A) (BalsamTransitionError msg)).
Proof. intros s e [= <-]. by exists msg. Qed.

Lemma only_when b (c : Tr unit) :
  only_transition_errors c → only_transition_errors (when b c).
Proof. destruct b; [done | intros _; apply only_of_never, never_ret]. Qed.

(** A [try] whose handler raises a transition error lets no other
    exception out, whatever its body does. *)
Lemma only_try_except {A} (body : Tr A) (mk : exn → string) :
  only_transition_errors
    (try_except body (λ e, raise (BalsamTransitionError (mk e)))).
Proof.
  intros s e. unfold try_except, raise.
  destruct (body s) as [s' [e'|x]]; cbn [snd].
  - intros [= <-]. by eexists.
  - discriminate.
Qed.

Lemma only_with_tempdir {A} (body : string → Tr A) :
  (∀ d, only_transition_errors (body d)) →
  only_transition_errors (with_tempdir tempdir_enter tempdir_exit body).
Proof.
  intros Hb s e. unfold with_tempdir. destruct (tempdir_enter s.1) as [w1 d].
  specialize (Hb d (w1, s.2)). destruct (body d (w1, s.2)) as [[w2 j2] r].
  cbn [snd] in *. apply Hb.
Qed.

Lemma only_for_in {A} (l : list A) (body : A → Tr unit) :
  (∀ x, only_transition_errors (body x)) →
  only_transition_errors (for_in l body).
Proof.
  intros Hb. induction l as [|x l IH]; [apply only_of_never, never_ret|].
  cbn [for_in]. apply only_bind; [apply Hb | intros _; exact IH].
Qed.

Lemma ends_bind_leaves {A B} v (m : Tr A) (f : A → Tr B) :
  leaves_job m → (∀ x, ends_in v (f x)) → ends_in v (m ≫= f).
Proof.
  intros Hm Hf s. unfold mbind, Tr_bind. specialize (Hm s).
  destruct (m s) as [s' [e|x]]; cbn [fst snd] in *; [exact Hm|].
  specialize (Hf x s'). rewrite <- Hm. exact Hf.
Qed.

Lemma ends_assign_log v l msg :
  ends_in v (job_state_assign v;; logging l msg).
Proof. intros s. reflexivity. Qed.

Lemma ends_assign v : ends_in v (job_state_assign v).
Proof. intros s. reflexivity. Qed.

Ltac only_step :=
  first
    [ apply only_try_except
    | apply only_bind; [|intros ?]
    | apply only_raise | apply only_when
    | apply only_with_tempdir; intros ?
    | apply only_for_in; intros ?
    | apply only_of_never;
      first [ apply never_ret | apply never_self | apply never_logging
            | apply never_world_get | apply never_assign ]
    | match goal with
      | |- context [if ?b then _ else _] => destruct b
      | |- context [match ?x with _ => _ end] => destruct x
      end ].

Ltac ends_step :=
  first
    [ apply ends_assign_log | apply ends_assign
    | apply ends_bind_leaves; [|intros ?]
    | apply leaves_with_tempdir; intros ?
    | apply leaves_run_logged
    | job_step ].

(** [stage_out] raises nothing but transition errors; when it returns
    the job is in JOB_FINISHED, and when it raises the job is as it was.
    Without a stage-out URL it returns at once, the world being changed
    by its two log records only. *)
Theorem stage_out_outcome (w : World) (j : BalsamJob) :
  let r := the_stage_out (w, j) in
  ((r.2 = inr () ∧ r.1.2 = set_state JOB_FINISHED j)
   ∨ (∃ msg, r.2 = inl (BalsamTransitionError msg) ∧ r.1.2 = j))
  ∧ (truthy (stage_out_url j) = false →
     r = ((logger INFO (cute_id j +:+ " no stage_out_url: done")
             (logger DEBUG (cute_id j +:+ " in stage_out") w),
           set_state JOB_FINISHED j), inr ())).
Proof.
  intros r. split.
  - assert (Honly : only_transition_errors the_stage_out).
    { unfold stage_out. cbv zeta. repeat only_step. }
    assert (Hends : ends_in JOB_FINISHED the_stage_out).
    { unfold stage_out. cbv zeta. repeat ends_step. }
    specialize (Honly (w, j)). specialize (Hends (w, j)). fold r in Honly, Hends.
    destruct r.2 as [e|[]].
    + right. destruct (Honly e eq_refl) as [msg ->]. by exists msg.
    + left. by split.
  - intros Hurl. subst r. unfold stage_out. unfold_tr.
    rewrite Hurl. reflexivity.
Qed.

(** When the working directory exists, [stage_in] raises nothing but
    transition errors; when it returns the job is in STAGED_IN, and when
    it raises the job is as it was. *)
Theorem stage_in_outcome (w : World) (j : BalsamJob) :
  os_path_exists (working_directory j) w = true →
  let r := the_stage_in (w, j) in
  (r.2 = inr () ∧ r.1.2 = set_state STAGED_IN j)
  ∨ (∃ msg, r.2 = inl (BalsamTransitionError msg) ∧ r.1.2 = j).
Proof.
  intros Hdir r. subst r. unfold stage_in. cbv zeta.
  rewrite (bind_returned _ _ (w, j) (w, j) j) by reflexivity.
  erewrite bind_returned by reflexivity.
  erewrite (bind_returned (world_get _)) by reflexivity.
  cbn [fst snd].
  change (os_path_exists (working_directory j)
            (logger DEBUG (cute_id j +:+ " in stage_in") w))
    with (os_path_exists (working_directory j) w).
  rewrite Hdir. cbn [negb when].
  erewrite (bind_returned (mret ())) by reflexivity.
  match goal with
  | |- context [(?m ≫= ?f) ?s] =>
      assert (Honly : only_transition_errors (m ≫= f))
        by (repeat only_step);
      assert (Hends : ends_in STAGED_IN (m ≫= f))
        by (repeat ends_step);
      specialize (Honly s); specialize (Hends s);
      destruct ((m ≫= f) s) as [s' [e|[]]]; cbn [fst snd] in *
  end.
  - right. destruct (Honly e eq_refl) as [msg ->]. by exists msg.
  - left. by split.
Qed.

(** [preprocess] either returns, the job being in PREPROCESSED, or
    raises, the job being as it was. *)
Theorem preprocess_outcome (w : World) (j : BalsamJob) :
  let r := the_preprocess (w, j) in
  (r.2 = inr () ∧ r.1.2 = set_state PREPROCESSED j)
  ∨ (∃ e, r.2 = inl e ∧ r.1.2 = j).
Proof.
  intros r.
  assert (Hends : ends_in PREPROCESSED the_preprocess).
  { unfold preprocess. cbv zeta. repeat ends_step. }
  specialize (Hends (w, j)). fold r in Hends.
  destruct r.2 as [e|[]]; [right; by exists e | left; by split].
Qed.

End JobFacts.

Lemma transitions_keep_job_witness :
  pk (Sample.stage_in
        (Sample.world ["/work/a"] [], Sample.job "a" READY [])).1.2 = "a"
  ∧ __old_state
      (Sample.stage_in
         (Sample.world ["/work/a"] [], Sample.job "a" READY [])).1.2
    = Some READY
  ∧ (READY = READY ∨ READY = STAGED_IN ∨ READY = POSTPROCESSED →
     (Sample.stage_in
        (Sample.world ["/work/a"] [], Sample.job "a" READY [])).1.2
     = set_state
         (state (Sample.stage_in
                   (Sample.world ["/work/a"] [],
                    Sample.job "a" READY [])).1.2)
         (Sample.job "a" READY [])).
Proof.
  apply (transitions_keep_job Sample.get_envs Sample.transfer Sample.transfer
           Sample.glob_glob Sample.transfer Sample.transfer
           Sample.tempdir_enter Sample.tempdir_exit Sample.transfer
           Sample.run_subprocess Sample.proc_kill Sample.get_tail
           Sample.parent_workdirs READY Sample.stage_in
           (Sample.world ["/work/a"] []) (Sample.job "a" READY [])).
  reflexivity.
Defined.

Lemma transition_pass_key_error_witness :
  Sample.transition_pass
    ([] ++ Sample.job "a" AWAITING_PARENTS ["p"] :: [Sample.job "b" READY []])
    (Sample.world [] [])
  = (Sample.world [] [],
     [] ++ Sample.job "a" AWAITING_PARENTS ["p"] :: [Sample.job "b" READY []],
     Some (KeyError AWAITING_PARENTS)).
Proof.
  apply (transition_pass_key_error Sample.get_envs Sample.transfer
           Sample.transfer Sample.glob_glob Sample.transfer Sample.transfer
           Sample.tempdir_enter Sample.tempdir_exit Sample.transfer
           Sample.run_subprocess Sample.proc_kill Sample.get_tail
           Sample.parent_workdirs Sample.print_exc
           [] [Sample.job "b" READY []] []
           (Sample.job "a" AWAITING_PARENTS ["p"])
           (Sample.world [] []) (Sample.world [] []));
    [reflexivity | reflexivity |].
  apply (bool_decide_unpack _). vm_compute. reflexivity.
Defined.

Lemma transition_pass_missing_workdir_witness :
  Sample.transition_pass
    ([] ++ Sample.job "a" READY [] :: [Sample.job "b" READY []])
    (Sample.world [] [])
  = (logger DEBUG ("[a]" +:+ " in stage_in") (Sample.world [] []),
     [] ++ Sample.job "a" READY [] :: [Sample.job "b" READY []],
     Some (NameError "workdir")).
Proof.
  apply (transition_pass_missing_workdir Sample.get_envs Sample.transfer
           Sample.transfer Sample.glob_glob Sample.transfer Sample.transfer
           Sample.tempdir_enter Sample.tempdir_exit Sample.transfer
           Sample.run_subprocess Sample.proc_kill Sample.get_tail
           Sample.parent_workdirs Sample.print_exc
           [] [Sample.job "b" READY []] []
           (Sample.job "a" READY [])
           (Sample.world [] []) (Sample.world [] []));
    [reflexivity | reflexivity | reflexivity | vm_compute; reflexivity].
Defined.

Lemma stage_in_outcome_witness :
  let r := Sample.stage_in
             (Sample.world ["/work/a"] [], Sample.job "a" READY []) in
  (r.2 = inr () ∧ r.1.2 = set_state STAGED_IN (Sample.job "a" READY []))
  ∨ (∃ msg, r.2 = inl (BalsamTransitionError msg)
            ∧ r.1.2 = Sample.job "a" READY []).
Proof.
  apply (stage_in_outcome Sample.transfer Sample.glob_glob Sample.transfer
           Sample.parent_workdirs
           (Sample.world ["/work/a"] []) (Sample.job "a" READY [])).
  vm_compute. reflexivity.
Defined.

(** ** Commands made of white space *)

Lemma white_space_cases (c : string) :
  c ∈ white_space →
  (∃ a, c = String a "" ∧ ∀ s, space_width (String a s) = 1)
  ∨ (∃ a b, c = String a (String b "")
            ∧ ∀ s, space_width (String a (String b s)) = 2)
  ∨ (∃ a b d, c = String a (String b (String d ""))
              ∧ ∀ s, space_width (String a (String b (String d s))) = 3).
Proof.
  intros H. vm_compute in H.
  repeat (apply elem_of_cons in H as [-> | H]);
    try (apply elem_of_nil in H; destruct H);
    first [ left; eexists; split; [reflexivity|]; intros s; reflexivity
          | right; left; eexists _, _; split; [reflexivity|];
            intros s; reflexivity
          | right; right; eexists _, _, _; split; [reflexivity|];
            intros s; reflexivity ].
Qed.

Lemma white_space_nonempty (c : string) :
  c ∈ white_space → ∃ a c', c = String a c'.
Proof.
  intros H. destruct (white_space_cases c H)
    as [(a & -> & _) | [(a & b & -> & _) | (a & b & d & -> & _)]];
    by eexists _, _.
Qed.

(** A white-space character at the head of a string is passed over. *)
Lemma split_aux_space (c s : string) :
  c ∈ white_space →
  split_aux 0 "" (c +:+ s) = split_aux 0 "" s.
Proof.
  intros H. destruct (white_space_cases c H)
    as [(a & -> & Hw) | [(a & b & -> & Hw) | (a & b & d & -> & Hw)]].
  - change (String a "" +:+ s) with (String a s).
    cbn [split_aux]. rewrite (Hw s). reflexivity.
  - change (String a (String b "") +:+ s) with (String a (String b s)).
    cbn [split_aux]. rewrite (Hw s). reflexivity.
  - change (String a (String b (String d "")) +:+ s)
      with (String a (String b (String d s))).
    cbn [split_aux]. rewrite (Hw s). reflexivity.
Qed.

(** A string made of white-space characters only has no word. *)
Lemma split_white_space (chars : list string) :
  Forall (λ c, c ∈ white_space) chars →
  split (foldr String.append "" chars) = [].
Proof.
  unfold split. induction 1 as [|c rest Hc _ IH]; [reflexivity|].
  cbn [foldr]. rewrite (split_aux_space c _ Hc). exact IH.
Qed.

(** ** Running the preprocess and postprocess commands *)

Section CommandFacts.

Context {env : Type}.
Variable get_envs : BalsamJob → bool → bool → env.
Variable open_write : string → string → World → World * option string.
Variable run_subprocess :
  list string → env → string → Z → World → World * proc_outcome.
Variable proc_kill : World → World.
Variable get_tail : string → option nat → World → string.

Local Abbreviation cmd_preprocess :=
  (preprocess get_envs open_write run_subprocess proc_kill get_tail).
Local Abbreviation cmd_postprocess :=
  (postprocess get_envs open_write run_subprocess proc_kill get_tail).
Local Abbreviation cmd_handle_timeout :=
  (handle_timeout get_envs open_write run_subprocess proc_kill get_tail).
Local Abbreviation cmd_handle_run_error :=
  (handle_run_error get_envs open_write run_subprocess proc_kill get_tail).

(** What [preprocess] does once its command is found on the file system
    and the log file is open, by what becomes of the subprocess: exit
    code 0 gives PREPROCESSED; another exit code gives a transition error
    that quotes the code and the tail of the log; a failing wait (the
    time-out) kills the process and gives a transition error; and when
    the process cannot be started at all, the handler's [proc.kill()]
    raises UnboundLocalError, which is not a transition error.  The job
    is untouched in all cases but the first. *)
Theorem preprocess_run_outcomes (job : BalsamJob) (w w1 w2 : World)
    (app exe : string) (args : list string) (out : proc_outcome) :
  preprocess_cmd job = Some app →
  split app = exe :: args →
  os_path_exists exe w = true →
  open_write (path_join (working_directory job) "preprocess.log")
    ("# Balsam Preprocessor: " +:+ app)
    (logger DEBUG (cute_id job +:+ " in preprocess") w) = (w1, None) →
  run_subprocess (split app) (get_envs job false false)
    (working_directory job) PREPROCESS_TIMEOUT_SECONDS
    (logger INFO (cute_id job +:+ " preprocess Popen") w1) = (w2, out) →
  cmd_preprocess (w, job)
  = match out with
    | Exited retcode =>
        if bool_decide (retcode ≠ 0%Z) then
          ((w2, job),
           inl (BalsamTransitionError
                  (cute_id job +:+ " preprocess returned "
                   +:+ pretty retcode +:+ ":" +:+ newline
                   +:+ get_tail (path_join (working_directory job)
                                   "preprocess.log") None w2)))
        else
          ((logger INFO (cute_id job +:+ " preprocess done") w2,
            set_state PREPROCESSED job), inr ())
    | WaitRaises msg =>
        ((proc_kill w2, job),
         inl (BalsamTransitionError ("Preprocess failed: " +:+ msg)))
    | PopenRaises msg => ((w2, job), inl (UnboundLocalError "proc"))
    end.
Proof.
  intros Hcmd Hsplit Hexe Hopen Hrun.
  pose proof (split_truthy app exe args Hsplit) as Happ.
  unfold preprocess, run_logged. unfold_tr. rewrite Hcmd.
  change (truthy (Some app)) with (truthy app). rewrite Happ.
  cbn [negb]. change (opt_text (Some app)) with app.
  rewrite Hsplit in Hrun |- *. cbn [fst snd mret Tr_ret].
  unfold os_path_exists in Hexe |- *. cbn [fs logger].
  rewrite Hexe. cbn [negb fst snd]. rewrite Hopen. cbn [fst snd].
  change (" " +:+ "preprocess" +:+ " Popen") with " preprocess Popen".
  rewrite Hrun. cbn [fst snd].
  destruct out as [msg|msg|retcode]; try reflexivity.
  unfold_tr. destruct (bool_decide (retcode ≠ 0%Z)); reflexivity.
Qed.

Lemma blank_command_raises (job : BalsamJob) (w : World) (app : string) :
  truthy app = true → split app = [] →
  (preprocess_cmd job = Some app →
   cmd_preprocess (w, job)
   = ((logger DEBUG (cute_id job +:+ " in preprocess") w, job),
      inl IndexError))
  ∧ (postprocess_cmd job = Some app →
     cmd_postprocess false false (w, job)
     = ((logger DEBUG (cute_id job +:+ " in postprocess") w, job),
        inl IndexError)).
Proof.
  intros Happ Hsplit. split; intros Hcmd.
  - unfold preprocess. unfold_tr. rewrite Hcmd.
    change (truthy (Some app)) with (truthy app). rewrite Happ.
    cbn [negb]. change (opt_text (Some app)) with app.
    rewrite Hsplit. reflexivity.
  - unfold postprocess. unfold_tr. cbn [andb]. rewrite Hcmd.
    change (truthy (Some app)) with (truthy app). rewrite Happ.
    cbn [negb]. change (opt_text (Some app)) with app.
    rewrite Hsplit. reflexivity.
Qed.

(** A command that is not empty but is made of white-space characters
    only (any of those of [str.isspace], ASCII or not) passes the
    emptiness test and then has no first word: [preprocess] and
    [postprocess] raise IndexError, which is not a transition error, with
    the job untouched. *)
Theorem blank_command_index_error (job : BalsamJob) (w : World)
    (chars : list string) :
  chars ≠ [] →
  Forall (λ c, c ∈ white_space) chars →
  let app := foldr String.append "" chars in
  (preprocess_cmd job = Some app →
   cmd_preprocess (w, job)
   = ((logger DEBUG (cute_id job +:+ " in preprocess") w, job),
      inl IndexError))
  ∧ (postprocess_cmd job = Some app →
     cmd_postprocess false false (w, job)
     = ((logger DEBUG (cute_id job +:+ " in postprocess") w, job),
        inl IndexError)).
Proof.
  intros Hne Hall app. apply blank_command_raises.
  - destruct Hall as [|c rest Hc _]; [congruence|].
    destruct (white_space_nonempty c Hc) as (a & c' & ->). reflexivity.
  - exact (split_white_space chars Hall).
Qed.

(** For a job with no postprocess command, [handle_run_error] always
    raises a transition error and leaves the job as it was, and
    [handle_timeout] marks the job RESTART_READY and returns when the
    time-out handler flag is set, and raises a transition error
    otherwise. *)
Theorem handlers_without_command (job : BalsamJob) (w : World) :
  truthy (postprocess_cmd job) = false →
  (∃ msg, (cmd_handle_run_error (w, job)).2
          = inl (BalsamTransitionError msg)
          ∧ (cmd_handle_run_error (w, job)).1.2 = job)
  ∧ (if post_timeout_handler job
     then (cmd_handle_timeout (w, job)).2 = inr ()
          ∧ (cmd_handle_timeout (w, job)).1.2 = set_state RESTART_READY job
     else ∃ msg, (cmd_handle_timeout (w, job)).2
                 = inl (BalsamTransitionError msg)
                 ∧ (cmd_handle_timeout (w, job)).1.2 = job).
Proof.
  intros Hcmd. split.
  - unfold handle_run_error, postprocess. unfold_tr.
    destruct (post_error_handler job); unfold_tr.
    + cbn [andb]. rewrite Hcmd. cbn [negb fst snd]. by eexists.
    + by eexists.
  - unfold handle_timeout, postprocess. unfold_tr.
    destruct (post_timeout_handler job); unfold_tr.
    + cbn [andb]. rewrite Hcmd. cbn [negb fst snd]. by split.
    + by eexists.
Qed.

End CommandFacts.

Lemma preprocess_run_outcomes_witness :
  preprocess Sample.get_envs Sample.transfer Sample.run_failing
    Sample.proc_kill Sample.get_tail
    (Sample.world ["pre.sh"] [],
     Sample.with_preprocess "pre.sh -v" (Sample.job "a" STAGED_IN []))
  = ((logger INFO "[a] preprocess Popen"
        (logger DEBUG "[a] in preprocess" (Sample.world ["pre.sh"] [])),
      Sample.with_preprocess "pre.sh -v" (Sample.job "a" STAGED_IN [])),
     inl (BalsamTransitionError
            ("[a] preprocess returned 2:" +:+ newline))).
Proof.
  apply (preprocess_run_outcomes Sample.get_envs Sample.transfer
           Sample.run_failing Sample.proc_kill Sample.get_tail
           (Sample.with_preprocess "pre.sh -v" (Sample.job "a" STAGED_IN []))
           (Sample.world ["pre.sh"] [])
           (logger DEBUG "[a] in preprocess" (Sample.world ["pre.sh"] []))
           (logger INFO "[a] preprocess Popen"
              (logger DEBUG "[a] in preprocess" (Sample.world ["pre.sh"] [])))
           "pre.sh -v" "pre.sh" ["-v"] (Exited 2));
    [reflexivity | vm_compute; reflexivity | vm_compute; reflexivity
    | reflexivity | reflexivity].
Defined.

Lemma blank_command_index_error_witness :
  let blank := " " +:+ utf8 [194; 160] +:+ utf8 [9] in
  let job := Sample.with_handler blank
               (Sample.with_preprocess blank (Sample.job "a" STAGED_IN [])) in
  (preprocess_cmd job = Some blank →
   preprocess Sample.get_envs Sample.transfer Sample.run_subprocess
     Sample.proc_kill Sample.get_tail (Sample.world [] [], job)
   = ((logger DEBUG ("[a]" +:+ " in preprocess") (Sample.world [] []), job),
      inl IndexError))
  ∧ (postprocess_cmd job = Some blank →
     Sample.postprocess false false (Sample.world [] [], job)
     = ((logger DEBUG ("[a]" +:+ " in postprocess") (Sample.world [] []),
         job),
        inl IndexError)).
Proof.
  intros blank job.
  apply (blank_command_index_error Sample.get_envs Sample.transfer
           Sample.run_subprocess Sample.proc_kill Sample.get_tail
           job (Sample.world [] []) [" "; utf8 [194; 160]; utf8 [9]]).
  - discriminate.
  - repeat (apply Forall_cons; split; [vm_compute; set_solver|]).
    apply Forall_nil_2.
Defined.

Lemma handlers_without_command_witness :
  (∃ msg, (Sample.handle_run_error
             (Sample.world [] [], Sample.job "a" RUN_ERROR [])).2
          = inl (BalsamTransitionError msg)
          ∧ (Sample.handle_run_error
               (Sample.world [] [], Sample.job "a" RUN_ERROR [])).1.2
            = Sample.job "a" RUN_ERROR [])
  ∧ ∃ msg, (handle_timeout Sample.get_envs Sample.transfer
              Sample.run_subprocess Sample.proc_kill Sample.get_tail
              (Sample.world [] [], Sample.job "a" RUN_ERROR [])).2
           = inl (BalsamTransitionError msg)
           ∧ (handle_timeout Sample.get_envs Sample.transfer
                Sample.run_subprocess Sample.proc_kill Sample.get_tail
                (Sample.world [] [], Sample.job "a" RUN_ERROR [])).1.2
             = Sample.job "a" RUN_ERROR [].
Proof.
  apply (handlers_without_command Sample.get_envs Sample.transfer
           Sample.run_subprocess Sample.proc_kill Sample.get_tail
           (Sample.job "a" RUN_ERROR []) (Sample.world [] [])).
  reflexivity.
Defined.

(** ** A turn of the worker loop *)

Lemma update_states_returned (job_cache : list BalsamJob) (w : World) :
  (update_states_from_cache job_cache w).2 = None →
  Forall (λ j, __old_state j = Some (state j))
    (update_states_from_cache job_cache w).1.2.
Proof.
  intros Hnone.
  destruct (decide (Forall (λ j, is_Some (__old_state j)) job_cache))
    as [Hall|Hnot].
  - destruct (update_states_sync job_cache w Hall) as [_ ->].
    apply Forall_fmap, Forall_forall. intros j _. reflexivity.
  - destruct (update_states_missing_old job_cache w Hnot) as [He _].
    rewrite He in Hnone. discriminate.
Qed.

Section TurnFacts.

Context {env : Type}.
Variable get_envs : BalsamJob → bool → bool → env.
Variable transfer_stage_in : string → string → World → World * option string.
Variable transfer_stage_out : string → string → World → World * option string.
Variable glob_glob : string → World → list string.
Variable os_symlink : string → string → World → World * option string.
Variable shutil_copyfile : string → string → World → World * option string.
Variable tempdir_enter : World → World * string.
Variable tempdir_exit : string → World → World.
Variable open_write : string → string → World → World * option string.
Variable run_subprocess :
  list string → env → string → Z → World → World * proc_outcome.
Variable proc_kill : World → World.
Variable get_tail : string → option nat → World → string.
Variable parent_workdirs : BalsamJob → World → list (string * string).
Variable print_exc : exn → string.
Variable PROCESSABLE_STATES : list string.
Variable acquire_transitionable : Z → World → World * list BalsamJob.

Local Abbreviation the_turn :=
  (main_turn get_envs transfer_stage_in transfer_stage_out glob_glob
     os_symlink shutil_copyfile tempdir_enter tempdir_exit open_write
     run_subprocess proc_kill get_tail parent_workdirs print_exc
     PROCESSABLE_STATES acquire_transitionable).

(** A turn of the worker loop that ends without an exception leaves in
    the cache only jobs in a processable state whose saved state is their
    state: whatever the transition functions did, the write-back at the
    end of the turn has recorded it and the release has dropped the jobs
    that are done or failed. *)
Theorem main_turn_invariant (num_threads : Z) (stale : bool)
    (job_cache : list BalsamJob) (w : World) :
  let r := the_turn num_threads stale job_cache w in
  r.2 = None →
  Forall (λ j, processable PROCESSABLE_STATES (state j) = true
               ∧ __old_state j = Some (state j)) r.1.2.
Proof.
  intros r. subst r. unfold main_turn.
  destruct (if negb (truthy job_cache) || stale then _ else _)
    as [[w1 c1] [e1|]]; [discriminate|].
  destruct (fast_forward c1 w1) as [[w2 c2] [e2|]]; [discriminate|].
  destruct (release_jobs PROCESSABLE_STATES c2 w2) as [w3 c3].
  destruct (transition_pass _ _ _ _ _ _ _ _ _ _ _ _ _ _ c3 w3)
    as [[w4 c4] [e4|]]; [discriminate|].
  pose proof (update_states_returned c4 w4) as Hsync.
  destruct (update_states_from_cache c4 w4) as [[w5 c5] [e5|]];
    [discriminate|].
  cbn [fst snd] in Hsync. specialize (Hsync eq_refl).
  pose proof (release_jobs_kept PROCESSABLE_STATES c5 w5) as Hkept.
  destruct (release_jobs PROCESSABLE_STATES c5 w5) as [w6 c6].
  cbn [fst snd] in *. intros _. apply Forall_forall. intros j Hj.
  destruct (Hkept j Hj) as [Hin Hproc]. split; [exact Hproc|].
  rewrite Forall_forall in Hsync. exact (Hsync j Hin).
Qed.

End TurnFacts.

Lemma main_turn_invariant_witness :
  let r := Sample.main_turn
             [Sample.with_stage_in "/remote/in"
                (Sample.unsaved (Sample.job "a" READY []))]
             1 true []
             (Sample.world ["/work/a"] [("a", READY)]) in
  Forall (λ j, processable Sample.PROCESSABLE_STATES (state j) = true
               ∧ __old_state j = Some (state j)) r.1.2.
Proof.
  apply (main_turn_invariant Sample.get_envs Sample.transfer Sample.transfer
           Sample.glob_glob Sample.transfer Sample.transfer
           Sample.tempdir_enter Sample.tempdir_exit Sample.transfer
           Sample.run_subprocess Sample.proc_kill Sample.get_tail
           Sample.parent_workdirs Sample.print_exc
           Sample.PROCESSABLE_STATES
           (Sample.acquire
              [Sample.with_stage_in "/remote/in"
                 (Sample.unsaved (Sample.job "a" READY []))])
           1 true []
           (Sample.world ["/work/a"] [("a", READY)])).
  vm_compute. reflexivity.
Defined.

Example main_turn_sample :
  (Sample.main_turn
     [Sample.with_stage_in "/remote/in"
        (Sample.unsaved (Sample.job "a" READY []))]
     1 true [] (Sample.world ["/work/a"] [("a", READY)])).1.2
  = [Sample.with_stage_in "/remote/in" (Sample.job "a" STAGED_IN [])].
Proof. vm_compute. reflexivity. Qed.
